(** * Gemini schema-sanitizer proxy: a shallow embedding

    The proxy of [src/unnamed/part_000] (and its earlier single-user version
    [src/gemini-proxy.js]) is embedded function by function.  JavaScript
    values that come out of [JSON.parse] are the inductive type [json];
    a JavaScript object is the list of its own properties in enumeration
    order; the two [Map]s of the signature store are insertion-ordered
    association lists; asynchronous code is a function from the outcomes of
    the upstream attempts to the trace of effects it performs. *)

From Stdlib Require Import List String Ascii ZArith Bool Arith Lia.
From Stdlib Require Import Permutation DecimalString.
From Stdlib Require DecimalPos DecimalZ.
Import ListNotations.

Open Scope string_scope.
Open Scope list_scope.

Set Warnings "-register-all".

(* ================================================================== *)
(** * JSON values and the JavaScript operations the proxy applies to them *)
(* ================================================================== *)

(** What [JSON.parse] returns.  Numbers are kept as integers: the proxy
    never computes with a number of a body, it only tests it for being
    zero, compares it for identity and copies it. *)
Inductive json : Type :=
| JNull
| JBool (b : bool)
| JNum (n : Z)
| JStr (s : string)
| JArr (l : list json)
| JObj (o : list (string * json)).

(** The own properties of an object, in enumeration order. *)
Definition object : Type := list (string * json).

(** [v ? .. : ..], [!v], [v || d]: JavaScript truthiness. *)
Definition truthy (v : json) : bool :=
  match v with
  | JNull => false
  | JBool b => b
  | JNum n => negb (Z.eqb n 0)
  | JStr s => negb (String.eqb s "")
  | JArr _ | JObj _ => true
  end.

(** Truthiness of a value that may be [undefined]. *)
Definition truthy_opt (v : option json) : bool :=
  match v with
  | Some x => truthy x
  | None => false
  end.

(** [typeof v === 'object'] ([null] included, as in JavaScript). *)
Definition typeof_object (v : json) : bool :=
  match v with
  | JNull | JArr _ | JObj _ => true
  | _ => false
  end.

(** Keyed collections.  A JavaScript object and a [Map] with string keys
    are both an association list with one entry per key, in insertion
    order. *)
Section Assoc.
Context {V : Type}.

(** [o.k], [m.get(k)]: [None] for [undefined]. *)
Fixpoint assoc_get (k : string) (m : list (string * V)) : option V :=
  match m with
  | [] => None
  | (k', v) :: rest => if String.eqb k' k then Some v else assoc_get k rest
  end.

(** [delete o.k], [m.delete(k)]. *)
Fixpoint assoc_delete (k : string) (m : list (string * V)) : list (string * V) :=
  match m with
  | [] => []
  | (k', v) :: rest =>
      if String.eqb k' k then assoc_delete k rest
      else (k', v) :: assoc_delete k rest
  end.

(** [o.k = v], [m.set(k, v)]: an existing key keeps its place, a new one
    goes last (no key the proxy adds to an object is an array index, which
    JavaScript would enumerate before the names). *)
Fixpoint assoc_set (k : string) (v : V) (m : list (string * V)) : list (string * V) :=
  match m with
  | [] => [(k, v)]
  | (k', v') :: rest =>
      if String.eqb k' k then (k', v) :: rest
      else (k', v') :: assoc_set k v rest
  end.
End Assoc.

Abbreviation obj_get := (@assoc_get json).
Abbreviation obj_delete := (@assoc_delete json).
Abbreviation obj_set := (@assoc_set json).

Definition keys {V : Type} (m : list (string * V)) : list string := map fst m.

(** One entry per key: what every object and every [Map] satisfies. *)
Fixpoint unique (l : list string) : bool :=
  match l with
  | [] => true
  | k :: rest => negb (existsb (String.eqb k) rest) && unique rest
  end.

(** [v.k] on a value that is not [null]: only objects carry the property
    names the proxy reads (none of them is an index, [length] or a member of
    a built-in prototype). *)
Definition js_prop (k : string) (v : json) : option json :=
  match v with
  | JObj o => obj_get k o
  | _ => None
  end.

(** [v?.k] on a value that may be [undefined] or [null]. *)
Definition js_opt_prop (k : string) (v : option json) : option json :=
  match v with
  | Some JNull | None => None
  | Some x => js_prop k x
  end.

(** [list.includes(v)] for a list of string literals: only a string can be
    identical to one of them. *)
Definition str_includes (l : list string) (v : json) : bool :=
  match v with
  | JStr s => existsb (String.eqb s) l
  | _ => false
  end.

(** The property name of an array index. *)
Definition index_key (i : nat) : string :=
  NilZero.string_of_uint (Nat.to_uint i).

(** [Object.entries(v)] for an object or an array. *)
Definition array_entries (l : list json) : object :=
  combine (map index_key (seq 0 (List.length l))) l.

(** Nesting depth, the measure the recursion of the sanitizer descends on. *)
Fixpoint json_depth (x : json) : nat :=
  match x with
  | JArr l => S (fold_right (fun v n => Nat.max (json_depth v) n) 0 l)
  | JObj o => S (fold_right (fun kv n => Nat.max (json_depth (snd kv)) n) 0 o)
  | _ => 0
  end.

(* ================================================================== *)
(** * SchemaSanitizer: [sanitizeSchema] of [src/unnamed/part_000] *)
(* ================================================================== *)

(** The keys removed unconditionally, in the order of the [delete]
    statements (lines 99-128). *)
Definition unsupported_keys : list string :=
  [ "$ref"; "$schema"; "$id"; "definitions"; "$defs";
    "anyOf"; "oneOf"; "allOf"; "not";
    "exclusiveMaximum"; "exclusiveMinimum"; "const";
    "contentEncoding"; "contentMediaType";
    "prefixItems"; "contains"; "minContains"; "maxContains";
    "propertyNames"; "patternProperties";
    "dependentSchemas"; "dependentRequired" ].

Definition delete_keys (ks : list string) (clean : object) : object :=
  fold_left (fun c k => obj_delete k c) ks clean.

(** [if (clean.format && !['enum', 'date-time'].includes(clean.format))
      delete clean.format;] *)
Definition drop_format (clean : object) : object :=
  match obj_get "format" clean with
  | Some f =>
      if truthy f && negb (str_includes ["enum"; "date-time"] f)
      then obj_delete "format" clean
      else clean
  | None => clean
  end.

(** [t !== 'null'] is the predicate of [find]; [is_null_name] its negation,
    also the test of [includes('null')]. *)
Definition is_null_name (t : json) : bool :=
  match t with
  | JStr s => String.eqb s "null"
  | _ => false
  end.

(** Lines 136-145: a [type] that is an array is collapsed. *)
Definition collapse_type (clean : object) : object :=
  match obj_get "type" clean with
  | Some (JArr ts) =>
      let hasNull := existsb is_null_name ts in
      let nonNullType := find (fun t => negb (is_null_name t)) ts in
      match nonNullType with
      | Some t =>
          if truthy t then
            let clean := obj_set "type" t clean in
            if hasNull then obj_set "nullable" (JBool true) clean else clean
          else obj_set "type" (JStr "string") clean
      | None => obj_set "type" (JStr "string") clean
      end
  | _ => clean
  end.

(** [if (clean.additionalProperties === false) delete ...] *)
Definition drop_closed (clean : object) : object :=
  match obj_get "additionalProperties" clean with
  | Some (JBool false) => obj_delete "additionalProperties" clean
  | _ => clean
  end.

(** [if (Array.isArray(clean.required) && clean.required.length === 0)
      delete clean.required;] *)
Definition drop_empty_required (clean : object) : object :=
  match obj_get "required" clean with
  | Some (JArr []) => obj_delete "required" clean
  | _ => clean
  end.

(** The test of line 158:
    [clean.type && !['number', 'integer'].includes(clean.type)]. *)
Definition non_numeric_type (clean : object) : bool :=
  match obj_get "type" clean with
  | Some t => truthy t && negb (str_includes ["number"; "integer"] t)
  | None => false
  end.

Definition numeric_keys : list string := ["minimum"; "maximum"; "multipleOf"].

Definition drop_numeric (clean : object) : object :=
  if non_numeric_type clean then delete_keys numeric_keys clean else clean.

(** Lines 96-162: everything [sanitizeSchema] does to an object before it
    recurses. *)
Definition sanitize_node (schema : object) : object :=
  let clean := schema in
  let clean := delete_keys unsupported_keys clean in
  let clean := drop_format clean in
  let clean := collapse_type clean in
  let clean := drop_closed clean in
  let clean := drop_empty_required clean in
  drop_numeric clean.

(** [props[key] = v] on the object literal [props = {}]: the key
    [__proto__] reaches the setter of [Object.prototype], which creates no
    own property; every other key is an ordinary assignment. *)
Definition props_assign (props : object) (key : string) (v : json) : object :=
  if String.eqb key "__proto__" then props else obj_set key v props.

(** Lines 166-169: the loop over [Object.entries(clean.properties)]. *)
Definition rebuild_props (rec : json -> json) (entries : object) : object :=
  fold_left (fun props kv => props_assign props (fst kv) (rec (snd kv)))
            entries [].

(** Lines 165-171. *)
Definition sanitize_properties (rec : json -> json) (clean : object) : object :=
  match obj_get "properties" clean with
  | Some (JObj ps) =>
      obj_set "properties" (JObj (rebuild_props rec ps)) clean
  | Some (JArr l) =>
      obj_set "properties" (JObj (rebuild_props rec (array_entries l))) clean
  | _ => clean
  end.

(** Lines 173-175. *)
Definition sanitize_items (rec : json -> json) (clean : object) : object :=
  match obj_get "items" clean with
  | Some it => if truthy it then obj_set "items" (rec it) clean else clean
  | None => clean
  end.

(** Lines 177-179. *)
Definition sanitize_additional (rec : json -> json) (clean : object) : object :=
  match obj_get "additionalProperties" clean with
  | Some ap =>
      if truthy ap && typeof_object ap
      then obj_set "additionalProperties" (rec ap) clean
      else clean
  | None => clean
  end.

(** Lines 164-179. *)
Definition sanitize_children (rec : json -> json) (clean : object) : object :=
  let clean := sanitize_properties rec clean in
  let clean := sanitize_items rec clean in
  sanitize_additional rec clean.

(** The body of [sanitizeSchema], its recursive calls made through [rec].
    A scalar or [null] is returned as it is (line 94).  An array is copied
    ([[...schema]]): it owns none of the properties the function deletes or
    reads, so the copy is returned with the elements it had. *)
Definition sanitize_body (rec : json -> json) (schema : json) : json :=
  match schema with
  | JObj o => JObj (sanitize_children rec (sanitize_node o))
  | JArr l => JArr l
  | _ => schema
  end.

(** The recursion, bounded by a number of nested calls. *)
Fixpoint sanitize_fuel (fuel : nat) (schema : json) : json :=
  match fuel with
  | O => schema
  | S fuel' => sanitize_body (sanitize_fuel fuel') schema
  end.

(** [sanitizeSchema]: the nesting depth of the argument is fuel enough
    ([sanitizeSchema_unfold] below). *)
Definition sanitizeSchema (schema : json) : json :=
  sanitize_fuel (json_depth schema) schema.

(* ================================================================== *)
(** * The earlier single-user version: [sanitizeSchema] of
      [src/gemini-proxy.js] (lines 23-112) *)
(* ================================================================== *)

Module GeminiProxy.

(** Lines 29-58 of [src/gemini-proxy.js]. *)
Definition deleted_keys : list string :=
  [ "$ref"; "$schema"; "$id"; "definitions"; "$defs";
    "anyOf"; "oneOf"; "allOf"; "not";
    "exclusiveMaximum"; "exclusiveMinimum"; "const";
    "contentEncoding"; "contentMediaType";
    "prefixItems"; "contains"; "minContains"; "maxContains";
    "propertyNames"; "patternProperties";
    "dependentSchemas"; "dependentRequired" ].

(** Lines 29-58. *)
Definition strip_keys (clean : object) : object :=
  fold_left (fun c k => obj_delete k c) deleted_keys clean.

(** Lines 61-63. *)
Definition strip_format (clean : object) : object :=
  if truthy_opt (obj_get "format" clean)
     && negb (match obj_get "format" clean with
              | Some (JStr f) => String.eqb f "enum" || String.eqb f "date-time"
              | _ => false
              end)
  then obj_delete "format" clean
  else clean.

(** Lines 66-75. *)
Definition scalar_type (clean : object) : object :=
  match obj_get "type" clean with
  | Some (JArr ts) =>
      let hasNull := existsb is_null_name ts in
      match find (fun t => negb (is_null_name t)) ts with
      | Some nonNullType =>
          if truthy nonNullType then
            if hasNull
            then obj_set "nullable" (JBool true) (obj_set "type" nonNullType clean)
            else obj_set "type" nonNullType clean
          else obj_set "type" (JStr "string") clean
      | None => obj_set "type" (JStr "string") clean
      end
  | _ => clean
  end.

(** Lines 78-80. *)
Definition strip_closed (clean : object) : object :=
  match obj_get "additionalProperties" clean with
  | Some (JBool false) => obj_delete "additionalProperties" clean
  | _ => clean
  end.

(** Lines 83-85. *)
Definition strip_empty_required (clean : object) : object :=
  match obj_get "required" clean with
  | Some (JArr []) => obj_delete "required" clean
  | _ => clean
  end.

(** Lines 88-92. *)
Definition strip_bounds (clean : object) : object :=
  match obj_get "type" clean with
  | Some t =>
      if truthy t && negb (str_includes ["number"; "integer"] t)
      then obj_delete "multipleOf"
             (obj_delete "maximum" (obj_delete "minimum" clean))
      else clean
  | None => clean
  end.

(** Lines 26-92: the statements before the recursive calls, in order. *)
Definition clean_node (schema : object) : object :=
  strip_bounds
    (strip_empty_required
       (strip_closed (scalar_type (strip_format (strip_keys schema))))).

(** Lines 95-109: the three recursive steps. *)
Definition clean_children (rec : json -> json) (clean : object) : object :=
  let clean :=
    let entries :=
      match obj_get "properties" clean with
      | Some (JObj ps) => Some ps
      | Some (JArr l) => Some (array_entries l)
      | _ => None
      end in
    match entries with
    | Some es =>
        let props :=
          fold_left (fun props kv => props_assign props (fst kv) (rec (snd kv)))
                    es [] in
        obj_set "properties" (JObj props) clean
    | None => clean
    end in
  let clean :=
    match obj_get "items" clean with
    | Some it => if truthy it then obj_set "items" (rec it) clean else clean
    | None => clean
    end in
  match obj_get "additionalProperties" clean with
  | Some ap =>
      if truthy ap && typeof_object ap
      then obj_set "additionalProperties" (rec ap) clean
      else clean
  | None => clean
  end.

Fixpoint sanitize_fuel (fuel : nat) (schema : json) : json :=
  match fuel with
  | O => schema
  | S fuel' =>
      match schema with
      | JObj o => JObj (clean_children (sanitize_fuel fuel') (clean_node o))
      | JArr l => JArr l
      | _ => schema
      end
  end.

Definition sanitizeSchema (schema : json) : json :=
  sanitize_fuel (json_depth schema) schema.

End GeminiProxy.

(* ================================================================== *)
(** * SignatureStore: [conversationSignatures] and [cleanupSignatures] *)
(* ================================================================== *)

(** [{signature, timestamp}]; a timestamp is a value of [Date.now()], in
    milliseconds. *)
Record signature_data : Type := {
  signature : json;
  timestamp : Z
}.

(** [Map<tool_call_id, {signature, timestamp}>]. *)
Definition signatures_map : Type := list (string * signature_data).

(** [conversationSignatures]: [Map<conversation_id, Map<...>>]. *)
Definition conversations : Type := list (string * signatures_map).

(** Lines 235-244 and 402-411: the write both extraction paths share. *)
Definition store_signature (conversationId toolCallId : string) (sig : json)
    (now : Z) (store : conversations) : conversations :=
  let store :=
    match assoc_get conversationId store with
    | Some _ => store
    | None => assoc_set conversationId [] store
    end in
  match assoc_get conversationId store with
  | Some signaturesMap =>
      assoc_set conversationId
        (assoc_set toolCallId {| signature := sig; timestamp := now |}
           signaturesMap)
        store
  | None => store
  end.

(** Lines 67-71: the loop over [signaturesMap.entries()]. *)
Definition delete_expired (oneHourAgo : Z) (signaturesMap : signatures_map)
    : signatures_map :=
  fold_left
    (fun m entry =>
       if timestamp (snd entry) <? oneHourAgo then assoc_delete (fst entry) m
       else m)%Z
    signaturesMap signaturesMap.

(** [entries.sort((a, b) => a[1].timestamp - b[1].timestamp)]: ascending
    by timestamp, entries of one timestamp in the order they had. *)
Fixpoint insert_by_timestamp (e : string * signature_data)
    (sorted : list (string * signature_data)) : list (string * signature_data) :=
  match sorted with
  | [] => [e]
  | x :: rest =>
      if (timestamp (snd e) <=? timestamp (snd x))%Z then e :: sorted
      else x :: insert_by_timestamp e rest
  end.

Definition sort_by_timestamp (entries : list (string * signature_data))
    : list (string * signature_data) :=
  fold_right insert_by_timestamp [] entries.

Definition MAX_SIGNATURES : nat := 100.

(** Lines 80-85. *)
Definition evict_oldest (signaturesMap : signatures_map) : signatures_map :=
  if Nat.ltb MAX_SIGNATURES (List.length signaturesMap) then
    let entries := sort_by_timestamp signaturesMap in
    let toRemove := firstn (List.length signaturesMap - MAX_SIGNATURES) entries in
    fold_left (fun m entry => assoc_delete (fst entry) m) toRemove signaturesMap
  else signaturesMap.

(** One turn of the outer loop (lines 65-86): the map of the conversation
    is changed in place, or the conversation is deleted. *)
Definition cleanup_conversation (oneHourAgo : Z) (store : conversations)
    (entry : string * signatures_map) : conversations :=
  let conversationId := fst entry in
  let signaturesMap := delete_expired oneHourAgo (snd entry) in
  if Nat.eqb (List.length signaturesMap) 0
  then assoc_delete conversationId store
  else assoc_set conversationId (evict_oldest signaturesMap) store.

(** [cleanupSignatures()], the clock read once (line 61). *)
Definition cleanupSignatures (now : Z) (store : conversations) : conversations :=
  let oneHourAgo := (now - 60 * 60 * 1000)%Z in
  fold_left (cleanup_conversation oneHourAgo) store store.

(** What the store looks like from outside: every [Map] has one entry per
    key. *)
Definition store_ok (store : conversations) : bool :=
  unique (keys store) && forallb (fun c => unique (keys (snd c))) store.

(** The records of a map that are not older than one hour at [now]. *)
Definition within_ttl (now : Z) (signaturesMap : signatures_map) : signatures_map :=
  filter (fun e => (now - 60 * 60 * 1000 <=? timestamp (snd e))%Z) signaturesMap.

(* ================================================================== *)
(** * Token injection: [injectThoughtSignatures] *)
(* ================================================================== *)

(** A call either returns or throws a [TypeError] (a property read on
    [null], a call of something that is no function). *)
Inductive completion (A : Type) : Type :=
| Normal (a : A)
| TypeError (what : string).
Arguments Normal {A} a.
Arguments TypeError {A} what.

Definition bind {A B : Type} (c : completion A) (k : A -> completion B)
    : completion B :=
  match c with
  | Normal a => k a
  | TypeError w => TypeError w
  end.

Notation "x <- c ;; k" := (bind c (fun x => k))
  (at level 61, c at next level, right associativity).

(** [array.map((x, idx) => f idx x)], stopped by the first throw. *)
Fixpoint map_indexed {A B : Type} (f : nat -> A -> completion B) (idx : nat)
    (l : list A) : completion (list B) :=
  match l with
  | [] => Normal []
  | x :: rest =>
      y <- f idx x ;;
      ys <- map_indexed f (S idx) rest ;;
      Normal (y :: ys)
  end.

(** [{...v}]: the own enumerable properties of a value. *)
Definition spread (v : json) : object :=
  match v with
  | JObj o => o
  | JArr l => array_entries l
  | JStr s =>
      array_entries (map (fun c => JStr (String c "")) (list_ascii_of_string s))
  | _ => []
  end.

Definition SKIP_VALIDATOR : string := "skip_thought_signature_validator".

(** [signaturesMap.get(toolCall.id)]: the keys of the map are strings, so
    only a string id finds a record. *)
Definition lookup_signature (signaturesMap : signatures_map) (toolCall : json)
    : option signature_data :=
  match js_prop "id" toolCall with
  | Some (JStr toolCallId) => assoc_get toolCallId signaturesMap
  | _ => None
  end.

(** [signatureData?.signature || 'skip_thought_signature_validator']. *)
Definition signature_or_skip (signatureData : option signature_data) : json :=
  match signatureData with
  | Some d => if truthy (signature d) then signature d else JStr SKIP_VALIDATOR
  | None => JStr SKIP_VALIDATOR
  end.

Definition thought_signature_content (sig : json) : json :=
  JObj [("google", JObj [("thought_signature", sig)])].

(** The callback of [msg.tool_calls.map] (lines 293-311). *)
Definition inject_tool_call (signaturesMap : signatures_map) (idx : nat)
    (toolCall : json) : completion json :=
  match toolCall with
  | JNull => TypeError "Cannot read properties of null (reading 'id')"
  | _ =>
      let signatureData := lookup_signature signaturesMap toolCall in
      let sig := signature_or_skip signatureData in
      if Nat.eqb idx 0 then
        Normal (JObj (obj_set "extra_content" (thought_signature_content sig)
                        (spread toolCall)))
      else Normal toolCall
  end.

Definition is_assistant (msg : json) : bool :=
  match js_prop "role" msg with
  | Some (JStr r) => String.eqb r "assistant"
  | _ => false
  end.

(** The callback of [requestData.messages.map] (lines 289-317). *)
Definition inject_message (signaturesMap : signatures_map) (idx : nat)
    (msg : json) : completion json :=
  match msg with
  | JNull => TypeError "Cannot read properties of null (reading 'role')"
  | _ =>
      if negb (is_assistant msg) || negb (truthy_opt (js_prop "tool_calls" msg))
      then Normal msg
      else
        match js_prop "tool_calls" msg with
        | Some (JArr tool_calls) =>
            toolCalls <- map_indexed (inject_tool_call signaturesMap) 0 tool_calls ;;
            Normal (JObj (obj_set "tool_calls" (JArr toolCalls) (spread msg)))
        | _ => TypeError "msg.tool_calls.map is not a function"
        end
  end.

(** [injectThoughtSignatures(requestData, conversationId)]. *)
Definition injectThoughtSignatures (store : conversations) (requestData : json)
    (conversationId : string) : completion json :=
  if negb (truthy_opt (js_opt_prop "messages" (Some requestData)))
  then Normal requestData
  else
    let signaturesMap :=
      match assoc_get conversationId store with
      | Some m => m
      | None => []
      end in
    match js_opt_prop "messages" (Some requestData) with
    | Some (JArr msgs) =>
        messages <- map_indexed (inject_message signaturesMap) 0 msgs ;;
        Normal (JObj (obj_set "messages" (JArr messages) (spread requestData)))
    | _ => TypeError "requestData.messages.map is not a function"
    end.

(* ================================================================== *)
(** * StreamAccumulator: [extractSignaturesFromStreamChunks] *)
(* ================================================================== *)

(** The events of a streamed completion, typed as the upstream protocol
    sends them; [None] is a field that is absent ([undefined]).  The token
    sits inside [extra_content], which stays an arbitrary JSON value. *)
Record function_delta : Type := {
  fn_name : option string;
  fn_arguments : option string
}.

Record tool_call_delta : Type := {
  tcd_index : option Z;
  tcd_id : option string;
  tcd_function : option function_delta;
  tcd_extra_content : option json
}.

Record choice : Type := {
  delta_tool_calls : option (list tool_call_delta)
}.

Record chunk : Type := {
  choices : option (list choice)
}.

(** A slot of [accumulatedToolCalls]; [None] is [null]. *)
Record slot : Type := {
  slot_id : option string;
  slot_name : option string;
  slot_arguments : string;
  slot_extra_content : option json
}.

(** [accumulatedToolCalls], a plain object keyed by the index. *)
Definition accumulator : Type := list (string * slot).

(** The property name a numeric index becomes. *)
Definition number_key (index : Z) : string :=
  NilZero.string_of_int (Z.to_int index).

(** Lines 373-377. *)
Definition empty_slot : slot :=
  {| slot_id := None; slot_name := None; slot_arguments := "";
     slot_extra_content := None |}.

Definition nonempty (s : option string) : bool :=
  match s with
  | Some x => negb (String.eqb x "")
  | None => false
  end.

(** [accumulated.extra_content?.google?.thought_signature]. *)
Definition slot_token (s : slot) : option json :=
  js_opt_prop "thought_signature" (js_opt_prop "google" (slot_extra_content s)).

(** Lines 383-396: the fields of one event merged into its slot. *)
Definition merge_delta (accumulated : slot) (d : tool_call_delta) : slot :=
  let accumulated :=
    if nonempty (tcd_id d)
    then {| slot_id := tcd_id d; slot_name := slot_name accumulated;
            slot_arguments := slot_arguments accumulated;
            slot_extra_content := slot_extra_content accumulated |}
    else accumulated in
  let accumulated :=
    match tcd_function d with
    | Some fn =>
        let accumulated :=
          if nonempty (fn_name fn)
          then {| slot_id := slot_id accumulated; slot_name := fn_name fn;
                  slot_arguments := slot_arguments accumulated;
                  slot_extra_content := slot_extra_content accumulated |}
          else accumulated in
        match fn_arguments fn with
        | Some fragment =>
            if negb (String.eqb fragment "")
            then {| slot_id := slot_id accumulated;
                    slot_name := slot_name accumulated;
                    slot_arguments := (slot_arguments accumulated ++ fragment)%string;
                    slot_extra_content := slot_extra_content accumulated |}
            else accumulated
        | None => accumulated
        end
    | None => accumulated
    end in
  if truthy_opt (tcd_extra_content d)
  then {| slot_id := slot_id accumulated; slot_name := slot_name accumulated;
          slot_arguments := slot_arguments accumulated;
          slot_extra_content := tcd_extra_content d |}
  else accumulated.

(** The body of the innermost loop (lines 366-414), on the accumulator of
    the request and the store. *)
Definition accumulate_tool_call (conversationId : string) (now : Z)
    (st : accumulator * conversations) (d : tool_call_delta)
    : accumulator * conversations :=
  let (accumulatedToolCalls, store) := st in
  match tcd_index d with
  | None => st
  | Some index =>
      let key := number_key index in
      let current :=
        match assoc_get key accumulatedToolCalls with
        | Some s => s
        | None => empty_slot
        end in
      let accumulated := merge_delta current d in
      let accumulatedToolCalls := assoc_set key accumulated accumulatedToolCalls in
      match slot_token accumulated with
      | Some sig =>
          if nonempty (slot_id accumulated) && truthy sig
          then
            match slot_id accumulated with
            | Some toolCallId =>
                (accumulatedToolCalls,
                 store_signature conversationId toolCallId sig now store)
            | None => (accumulatedToolCalls, store)
            end
          else (accumulatedToolCalls, store)
      | None => (accumulatedToolCalls, store)
      end
  end.

(** Lines 362-415: the choices of one chunk. *)
Definition accumulate_choice (conversationId : string) (now : Z)
    (st : accumulator * conversations) (c : choice)
    : accumulator * conversations :=
  match delta_tool_calls c with
  | Some tool_calls =>
      fold_left (accumulate_tool_call conversationId now) tool_calls st
  | None => st
  end.

Definition accumulate_chunk (conversationId : string) (now : Z)
    (st : accumulator * conversations) (c : chunk)
    : accumulator * conversations :=
  match choices c with
  | Some cs => fold_left (accumulate_choice conversationId now) cs st
  | None => st
  end.

(** [extractSignaturesFromStreamChunks(chunks, accumulatedToolCalls,
    conversationId)]. *)
Definition extractSignaturesFromStreamChunks (conversationId : string) (now : Z)
    (chunks : list chunk) (st : accumulator * conversations)
    : accumulator * conversations :=
  fold_left (accumulate_chunk conversationId now) chunks st.

(** [prefix a b]: [b] is [a] with something appended. *)
Definition extends (a b : string) : Prop := exists more, b = (a ++ more)%string.

(* ================================================================== *)
(** * ResponseTranslator: [convertGeminiErrorToOpenAI] *)
(* ================================================================== *)

(** [a || d]. *)
Definition or_default (a : option json) (d : json) : json :=
  match a with
  | Some x => if truthy x then x else d
  | None => d
  end.

(** Lines 265-271: the object handed to [JSON.stringify]. *)
Definition openai_error (geminiError : json) : json :=
  JObj [("error",
         JObj [("message",
                or_default (js_prop "message" geminiError) (JStr "Unknown error"));
               ("type",
                or_default (js_prop "status" geminiError) (JStr "api_error"));
               ("code", or_default (js_prop "code" geminiError) JNull)])].

Section Translator.

(** The two built-ins of the platform: [JSON.parse], [None] when it throws
    a [SyntaxError], and [JSON.stringify]. *)
Variable JSON_parse : string -> option json.
Variable JSON_stringify : json -> string.

(** [convertGeminiErrorToOpenAI(responseData)], on the text of the body.
    Reading [data.error] of [null] throws inside the [try], and the [catch]
    returns the body. *)
Definition convertGeminiErrorToOpenAI (responseData : string) : string :=
  match JSON_parse responseData with
  | Some JNull => responseData
  | Some data =>
      match js_prop "error" data with
      | Some geminiError =>
          if truthy geminiError && typeof_object geminiError
          then JSON_stringify (openai_error geminiError)
          else responseData
      | None => responseData
      end
  | None => responseData
  end.

End Translator.

(* ================================================================== *)
(** * RetryOrchestrator: [makeRequestWithRetry] *)
(* ================================================================== *)

(** [parseInt(s)]: leading blanks, a sign, [0x] for base sixteen, then the
    longest run of digits; [None] is [NaN].  The strings are those of a
    header, one character a byte: the blanks among them are the codes 9 to
    13, 32 and 160.  The result is the integer the digits denote, which
    JavaScript's number is up to [2 ^ 53]. *)
Definition is_blank (c : ascii) : bool :=
  let n := nat_of_ascii c in
  ((9 <=? n) && (n <=? 13) || (n =? 32) || (n =? 160))%nat.

Fixpoint skip_blanks (s : string) : string :=
  match s with
  | String c rest => if is_blank c then skip_blanks rest else s
  | EmptyString => s
  end.

Definition digit_value (radix : Z) (c : ascii) : option Z :=
  let n := Z.of_nat (nat_of_ascii c) in
  let v :=
    if ((48 <=? n) && (n <=? 57))%Z then Some (n - 48)%Z
    else if ((97 <=? n) && (n <=? 122))%Z then Some (n - 87)%Z
    else if ((65 <=? n) && (n <=? 90))%Z then Some (n - 55)%Z
    else None in
  match v with
  | Some d => if (d <? radix)%Z then Some d else None
  | None => None
  end.

Fixpoint leading_digits (radix : Z) (s : string) (acc : option Z) : option Z :=
  match s with
  | String c rest =>
      match digit_value radix c with
      | Some d =>
          leading_digits radix rest
            (Some (match acc with
                   | Some a => a * radix + d
                   | None => d
                   end)%Z)
      | None => acc
      end
  | EmptyString => acc
  end.

Definition parseInt (s : string) : option Z :=
  let s := skip_blanks s in
  let '(negative, s) :=
    match s with
    | String "-" rest => (true, rest)
    | String "+" rest => (false, rest)
    | _ => (false, s)
    end in
  let '(radix, s) :=
    match s with
    | String "0" (String "x" rest) => (16%Z, rest)
    | String "0" (String "X" rest) => (16%Z, rest)
    | _ => (10%Z, s)
    end in
  match leading_digits radix s None with
  | Some n => Some (if negative then - n else n)%Z
  | None => None
  end.

(** [requestData?.stream === true] (line 423). *)
Definition isStreaming (requestData : option json) : bool :=
  match js_opt_prop "stream" requestData with
  | Some (JBool true) => true
  | _ => false
  end.

(** What one upstream attempt brings: no response at all (the request
    errors or the connection times out), or a response whose body arrives
    in chunks and then ends, or is cut by one of the two response
    timeouts.  A response comes with what [zlib.gunzipSync] makes of its
    body. *)
Record upstream_response : Type := {
  statusCode : Z;
  retry_after : option string;        (* [headers['retry-after']] *)
  body_chunks : list string;
  content_encoding : option string;   (* [headers['content-encoding']] *)
  gunzipped : option string           (* [zlib.gunzipSync(responseData)],
                                         [None] when it throws *)
}.

Inductive ending : Type :=
| Ended
| TimedOut (reason : string).

Inductive attempt_outcome : Type :=
| NoResponse (reason : string)
| Responded (r : upstream_response) (fin : ending).

(** What the promise of one attempt resolves to. *)
Record attempt_result : Type := {
  res_statusCode : Z;
  res_retry_after : option string;
  res_responseData : string;
  res_decompressedData : string;
  res_streaming : bool
}.

(** How the promise of one attempt settles.  An exception thrown inside a
    callback of the response leaves it pending. *)
Inductive settlement : Type :=
| Resolved (result : attempt_result)
| Rejected (error : string)
| Unsettled (exception : string).

(** The effects a request has outside the function, in order. *)
Inductive event : Type :=
| Request (attempt : nat)        (* [https.request] is issued *)
| WriteHead (status : Z)         (* [clientRes.writeHead] *)
| Write (data : string)          (* [clientRes.write(chunk)] *)
| EndResponse                    (* [clientRes.end()] *)
| Sleep (ms : option Z).         (* [setTimeout(resolve, ms)], [None] for [NaN] *)

Inductive final : Type :=
| Returned (r : attempt_result)
| Thrown (reason : string)           (* the [throw error] of line 682 *)
| Uncaught (reason : string)         (* an exception inside a callback *)
| ReturnedUndefined.                 (* the loop ran out *)

(** Lines 559-562: [decompressedData] of a buffered response; [None] when
    [zlib.gunzipSync] throws. *)
Definition decompressedData (r : upstream_response) : option string :=
  match content_encoding r with
  | Some encoding =>
      if String.eqb encoding "gzip" then gunzipped r
      else Some (String.concat "" (body_chunks r))
  | None => Some (String.concat "" (body_chunks r))
  end.

(** The object handed to [resolve] (lines 536-542 and 564-570); a buffered
    response whose body does not decompress is never resolved. *)
Definition result_of (r : upstream_response) (streaming : bool) : attempt_result :=
  let responseData := String.concat "" (body_chunks r) in
  {| res_statusCode := statusCode r;
     res_retry_after := retry_after r;
     res_responseData := responseData;
     res_decompressedData :=
       if streaming then responseData
       else match decompressedData r with
            | Some data => data
            | None => responseData
            end;
     res_streaming := streaming |}.

(** Lines 629-633. *)
Definition delays : list Z := [2000; 5000; 10000; 20000; 40000]%Z.

Definition delay_429 (retryAfter : option string) (attempt : nat) : option Z :=
  if nonempty retryAfter then
    match retryAfter with
    | Some s =>
        match parseInt s with
        | Some n => Some (n * 1000)%Z
        | None => None
        end
    | None => None
    end
  else
    (* [delays[attempt] || delays[delays.length - 1]] *)
    match nth_error delays attempt with
    | Some d => Some (if (d =? 0)%Z then 40000 else d)%Z
    | None => Some 40000%Z
    end.

(** One attempt (lines 427-584): the effects on the client connection,
    whether its headers are sent afterwards, and how the promise settles.
    In streaming mode a second [writeHead] on the same client response
    throws inside the response callback; in the other mode
    [zlib.gunzipSync] throws inside the ['end'] callback on a body that is
    declared gzip and is not. *)
Definition run_attempt (streaming : bool) (headersSent : bool)
    (o : attempt_outcome) : list event * bool * settlement :=
  match o with
  | NoResponse reason => ([], headersSent, Rejected reason)
  | Responded r fin =>
      if streaming then
        if headersSent then ([], headersSent, Unsettled "ERR_HTTP_HEADERS_SENT")
        else
          let forwarded := WriteHead (statusCode r) :: map Write (body_chunks r) in
          match fin with
          | Ended =>
              (forwarded ++ [EndResponse], true, Resolved (result_of r true))
          | TimedOut reason => (forwarded, true, Rejected reason)
          end
      else
        match fin with
        | Ended =>
            match decompressedData r with
            | Some _ => ([], headersSent, Resolved (result_of r false))
            | None => ([], headersSent, Unsettled "zlib.gunzipSync")
            end
        | TimedOut reason => ([], headersSent, Rejected reason)
        end
  end.

(** [`${v}`]: the conversion of a parsed value to a string.  An array
    joins its elements; an object is converted by the inherited
    [toString], and the conversion throws when an own property hides it
    (no parsed value is a function, and the inherited [valueOf] returns
    the object). *)
Fixpoint printable (v : json) : bool :=
  match v with
  | JArr l =>
      (fix all (l : list json) : bool :=
         match l with
         | [] => true
         | x :: rest => printable x && all rest
         end) l
  | JObj o =>
      match obj_get "toString" o with
      | Some _ => false
      | None => true
      end
  | _ => true
  end.

(** [messages.some(m => m.role === 'tool')]: stops at the first message
    whose role is ['tool'], throws at a [null] before it. *)
Fixpoint some_tool_role (messages : list json) : completion bool :=
  match messages with
  | [] => Normal false
  | JNull :: _ => TypeError "Cannot read properties of null (reading 'role')"
  | m :: rest =>
      match js_prop "role" m with
      | Some (JStr role) =>
          if String.eqb role "tool" then Normal true else some_tool_role rest
      | _ => some_tool_role rest
      end
  end.

(** Line 592: [requestData?.messages?.some(m => m.role === 'tool')]. *)
Definition hasToolResults (requestData : option json) : completion bool :=
  match js_opt_prop "messages" requestData with
  | None | Some JNull => Normal false
  | Some (JArr messages) => some_tool_role messages
  | Some _ => TypeError "requestData?.messages?.some is not a function"
  end.

(** The callback of line 671: [`${tool.function?.name || 'unnamed'}`]. *)
Definition log_tool (tool : json) : completion unit :=
  match tool with
  | JNull => TypeError "Cannot read properties of null (reading 'function')"
  | _ =>
      if printable (or_default (js_opt_prop "name" (js_prop "function" tool))
                      (JStr "unnamed"))
      then Normal tt
      else TypeError "Cannot convert object to primitive value"
  end.

(** [array.forEach(f)], stopped by the first throw. *)
Fixpoint for_each {A : Type} (f : A -> completion unit) (l : list A)
    : completion unit :=
  match l with
  | [] => Normal tt
  | x :: rest => _ <- f x ;; for_each f rest
  end.

(** Lines 668-673: the tools of the request are listed after a response
    with a status of 400 or more. *)
Definition log_request_tools (requestData : option json) : completion unit :=
  match js_opt_prop "tools" requestData with
  | Some tools =>
      if truthy tools then
        match tools with
        | JArr l => for_each log_tool l
        | _ => TypeError "requestData.tools.forEach is not a function"
        end
      else Normal tt
  | None => Normal tt
  end.

(** Lines 675-677: [`${requestData.tools.length}`] after any other
    response.  An array and a string have a number as [length]. *)
Definition log_success (requestData : option json) : completion unit :=
  match js_opt_prop "tools" requestData with
  | Some (JObj o) =>
      match obj_get "length" o with
      | Some v =>
          if printable v then Normal tt
          else TypeError "Cannot convert object to primitive value"
      | None => Normal tt
      end
  | _ => Normal tt
  end.

(** The loop of [makeRequestWithRetry] from attempt [attempt] on, with
    [remaining = maxRetries - attempt] turns left.  [upstream i] is what
    the [i]-th attempt brings, [streaming] is [isStreaming && clientRes].
    What the statements between the promise and the [return] throw (lines
    592, 670-672 and 676) is caught at line 680 as a rejection is; the
    store that [extractThoughtSignatures] updates at line 589 is not part
    of the trace. *)
Fixpoint retry_loop (upstream : nat -> attempt_outcome)
    (requestData : option json) (streaming : bool)
    (maxRetries : nat) (remaining : nat) (attempt : nat) (headersSent : bool)
    : list event * final :=
  match remaining with
  | O => ([], ReturnedUndefined)
  | S remaining' =>
      let again := fun (ms : option Z) (sent : bool) =>
        let (trace, f) :=
          retry_loop upstream requestData streaming maxRetries remaining'
            (S attempt) sent in
        (Sleep ms :: trace, f) in
      (* lines 680-686 *)
      let caught := fun (error : string) (sent : bool) =>
        if Nat.eqb attempt (maxRetries - 1) then ([], Thrown error)
        else again (Some (1000 * 2 ^ Z.of_nat attempt)%Z) sent in
      let '(effects, sent, settled) :=
        run_attempt streaming headersSent (upstream attempt) in
      let '(trace, f) :=
        match settled with
        | Unsettled exception => ([], Uncaught exception)
        | Rejected error => caught error sent
        | Resolved result =>
            (* lines 588-618 *)
            match
              (if (200 <=? res_statusCode result)%Z
                  && (res_statusCode result <? 300)%Z
                  && negb (res_streaming result)
               then hasToolResults requestData
               else Normal false)
            with
            | TypeError error => caught error sent
            | Normal _ =>
                (* lines 620-624 *)
                if res_streaming result then ([], Returned result)
                else if (res_statusCode result =? 429)%Z
                        && Nat.ltb attempt (maxRetries - 1)
                then again (delay_429 (res_retry_after result) attempt) sent
                else if (res_statusCode result =? 503)%Z && Nat.ltb attempt 3
                then again (Some (2 ^ Z.of_nat attempt * 1000)%Z) sent
                else
                  (* lines 657-679 *)
                  match
                    (if (400 <=? res_statusCode result)%Z
                     then log_request_tools requestData
                     else log_success requestData)
                  with
                  | TypeError error => caught error sent
                  | Normal _ => ([], Returned result)
                  end
            end
        end in
      (Request attempt :: effects ++ trace, f)
  end.

(** [makeRequestWithRetry(options, body, requestData, conversationId,
    clientRes, maxRetries)]; [clientRes] tells whether a client response is
    passed. *)
Definition makeRequestWithRetry (upstream : nat -> attempt_outcome)
    (requestData : option json) (clientRes : bool) (maxRetries : nat)
    : list event * final :=
  retry_loop upstream requestData (isStreaming requestData && clientRes)
    maxRetries maxRetries 0 false.

(** The default of the last parameter, the one the server uses. *)
Definition DEFAULT_MAX_RETRIES : nat := 5.

(* ================================================================== *)
(** * ToolSanitizer: [sanitizeTools] *)
(* ================================================================== *)

(** The callback of [tools.map] (lines 188-198).  Only an object has a
    [function], and only an object [function] has [parameters]; the two
    spreads copy them, and the two keys that are written exist already, so
    they keep their places. *)
Definition sanitize_tool (tool : json) : json :=
  match js_opt_prop "function" (Some tool) with
  | Some fn =>
      match js_opt_prop "parameters" (Some fn) with
      | Some parameters =>
          if truthy parameters then
            JObj (obj_set "function"
                    (JObj (obj_set "parameters" (sanitizeSchema parameters)
                             (spread fn)))
                    (spread tool))
          else tool
      | None => tool
      end
  | None => tool
  end.

(** [sanitizeTools(tools)] (lines 185-199). *)
Definition sanitizeTools (tools : json) : json :=
  match tools with
  | JArr l => JArr (map sanitize_tool l)
  | _ => tools
  end.

(* ================================================================== *)
(** * The built-ins the remaining functions call, and the functions
      themselves: [generateConversationId], [extractThoughtSignatures],
      [parseSSEChunks] and the request handler *)
(* ================================================================== *)

(** [a || b] on two values that are strings or [undefined]. *)
Definition first_nonempty (a b : option string) : option string :=
  if nonempty a then a else b.

(** [a || 'literal']. *)
Definition or_literal (a : option string) (d : string) : string :=
  match a with
  | Some s => if String.eqb s "" then d else s
  | None => d
  end.

(** [for (const x of v)]: an array yields its elements and a string its
    characters, each of them a string; nothing else that [JSON.parse]
    returns is iterable. *)
Definition iterate (v : json) : completion (list json) :=
  match v with
  | JArr l => Normal l
  | JStr s => Normal (map (fun c => JStr (String c "")) (list_ascii_of_string s))
  | _ => TypeError "is not iterable"
  end.

(** [text.split('\n')]: the pieces between the line feeds, one more than
    there are line feeds. *)
Fixpoint split_lines (text : string) : list string :=
  match text with
  | EmptyString => [EmptyString]
  | String c rest =>
      if Ascii.eqb c "010" then EmptyString :: split_lines rest
      else
        match split_lines rest with
        | line :: lines => String c line :: lines
        | [] => [String c EmptyString]
        end
  end.

(** [toolCall.extra_content?.google?.thought_signature]. *)
Definition thought_signature_of (toolCall : json) : option json :=
  js_opt_prop "thought_signature"
    (js_opt_prop "google" (js_prop "extra_content" toolCall)).

Section Platform.

(** [crypto.createHash('sha256').update(s).digest('hex')],
    [String.prototype.trim], [JSON.parse] ([None] when it throws) and
    [JSON.stringify]. *)
Variable sha256_hex : string -> string.
Variable trim : string -> string.
Variable JSON_parse : string -> option json.
Variable JSON_stringify : json -> string.

(** Lines 47-56: the identifier built from the characteristics of the
    request. *)
Definition derived_id (headers : list (string * string))
    (remoteAddress : option string) : string :=
  let clientIp :=
    or_literal (first_nonempty (assoc_get "x-forwarded-for" headers) remoteAddress)
               "unknown" in
  let userAgent := or_literal (assoc_get "user-agent" headers) "unknown" in
  let hash := substring 0 16 (sha256_hex (clientIp ++ ":" ++ userAgent)) in
  ("auto:" ++ hash)%string.

(** [generateConversationId(req)], on [req.headers] and
    [req.socket.remoteAddress]. *)
Definition generateConversationId (headers : list (string * string))
    (remoteAddress : option string) : string :=
  match assoc_get "x-conversation-id" headers with
  | Some explicitId =>
      if negb (String.eqb explicitId "") then ("explicit:" ++ explicitId)%string
      else derived_id headers remoteAddress
  | None => derived_id headers remoteAddress
  end.

(** Lines 215-230: the four tests a tool-call of a buffered response has to
    pass; [Some id] when it passes them. *)
Definition valid_tool_call (toolCall : json) : option string :=
  if negb (truthy toolCall) || negb (typeof_object toolCall) then None
  else
    match js_prop "id" toolCall with
    | Some (JStr id) =>
        if String.eqb id "" || String.eqb (trim id) "" then None
        else if negb (truthy_opt (js_prop "function" toolCall)) then None
        else if negb (truthy_opt
                        (js_opt_prop "name" (js_prop "function" toolCall)))
        then None
        else Some id
    | _ => None
    end.

(** The body of the inner loop (lines 213-247); nothing in it throws. *)
Definition extract_tool_call (conversationId : string) (now : Z)
    (store : conversations) (toolCall : json) : conversations :=
  match valid_tool_call toolCall with
  | Some id =>
      match thought_signature_of toolCall with
      | Some sig =>
          if truthy sig then store_signature conversationId id sig now store
          else store
      | None => store
      end
  | None => store
  end.

(** [choice.message || choice.delta]; the read throws on [null]. *)
Definition choice_message (choice : json) : completion (option json) :=
  match choice with
  | JNull => TypeError "Cannot read properties of null (reading 'message')"
  | _ =>
      Normal (match js_prop "message" choice with
              | Some m => if truthy m then Some m else js_prop "delta" choice
              | None => js_prop "delta" choice
              end)
  end.

(** One turn of the outer loop (lines 209-248): the store it leaves, and
    whether it completes or throws. *)
Definition extract_choice (conversationId : string) (now : Z)
    (store : conversations) (choice : json) : conversations * completion unit :=
  match choice_message choice with
  | TypeError w => (store, TypeError w)
  | Normal message =>
      match js_opt_prop "tool_calls" message with
      | Some tool_calls =>
          if truthy tool_calls then
            match iterate tool_calls with
            | Normal toolCalls =>
                (fold_left (extract_tool_call conversationId now) toolCalls store,
                 Normal tt)
            | TypeError w => (store, TypeError w)
            end
          else (store, Normal tt)
      | None => (store, Normal tt)
      end
  end.

(** The outer loop: a throw ends it, what was stored before stays. *)
Fixpoint extract_choices (conversationId : string) (now : Z)
    (choices : list json) (store : conversations)
    : conversations * completion unit :=
  match choices with
  | [] => (store, Normal tt)
  | choice :: rest =>
      match extract_choice conversationId now store choice with
      | (store, Normal _) => extract_choices conversationId now rest store
      | thrown => thrown
      end
  end.

(** [extractThoughtSignatures(responseData, conversationId)] (lines
    202-253), on the text of the body.  [now] is what [Date.now()] returns
    during the call: the loops are synchronous, and the clock is taken not
    to advance within them.  Whatever is thrown inside is caught and
    logged. *)
Definition extractThoughtSignatures (responseData : string)
    (conversationId : string) (now : Z) (store : conversations)
    : conversations :=
  match JSON_parse responseData with
  | Some JNull | None => store
  | Some data =>
      match iterate (or_default (js_prop "choices" data) (JArr [])) with
      | Normal choices => fst (extract_choices conversationId now choices store)
      | TypeError _ => store
      end
  end.

(** The body of the loop of [parseSSEChunks] (lines 333-349): what one line
    adds to [chunks]. *)
Definition sse_line (line : string) : list json :=
  let line := trim line in
  if String.prefix "data: " line then
    let dataStr := substring 6 (String.length line - 6) line in
    if String.eqb dataStr "[DONE]" then []
    else
      match JSON_parse dataStr with
      | Some data => [data]
      | None => []
      end
  else [].

(** [parseSSEChunks(buffer)] (lines 327-353), on the text of the buffer. *)
Definition parseSSEChunks (buffer : string) : list json :=
  flat_map sse_line (split_lines buffer).

(** Lines 718-721: [requestData.tools = sanitizeTools(requestData.tools)]
    when [tools] is an array. *)
Definition sanitize_request_tools (requestData : json) : json :=
  match requestData with
  | JObj o =>
      match obj_get "tools" o with
      | Some (JArr tools) =>
          JObj (obj_set "tools" (sanitizeTools (JArr tools)) o)
      | _ => requestData
      end
  | _ => requestData
  end.

(** Lines 713-724: the statements of the [try] block of the request handler
    between [JSON.parse] and [JSON.stringify]. *)
Definition rewrite_request (store : conversations) (conversationId : string)
    (requestData : json) : completion json :=
  match requestData with
  | JNull => TypeError "Cannot read properties of null (reading 'stream')"
  | _ =>
      injectThoughtSignatures store (sanitize_request_tools requestData)
        conversationId
  end.

(** Lines 705-730: the body that is forwarded upstream.  When [JSON.parse]
    or the injection throws, [body] is what the client sent. *)
Definition rewrite_body (store : conversations) (conversationId : string)
    (body : string) : string :=
  match JSON_parse body with
  | Some requestData =>
      match rewrite_request store conversationId requestData with
      | Normal requestData => JSON_stringify requestData
      | TypeError _ => body
      end
  | None => body
  end.

(** The value [requestData] has after the [try] block: [undefined] when
    the body does not parse, the parsed body with its tools sanitized when
    the injection throws. *)
Definition handler_request_data (store : conversations)
    (conversationId : string) (body : string) : option json :=
  match JSON_parse body with
  | Some requestData =>
      match rewrite_request store conversationId requestData with
      | Normal requestData => Some requestData
      | TypeError _ => Some (sanitize_request_tools requestData)
      end
  | None => None
  end.

End Platform.

(* ================================================================== *)
(** * The earlier single-user version: [makeRequestWithRetry] of
      [src/gemini-proxy.js] (lines 196-293) *)
(* ================================================================== *)

Module GeminiProxyRetry.

(** What one attempt brings: the request errors, or a response arrives and
    ends.  The earlier version sets no timeout and buffers every
    response. *)
Inductive attempt_outcome : Type :=
| Failed (reason : string)
| Answered (r : upstream_response).

(** What the promise resolves to (lines 212-217). *)
Record attempt_result : Type := {
  res_statusCode : Z;
  res_retry_after : option string;
  res_responseData : string;
  res_decompressedData : string
}.

Inductive final : Type :=
| Returned (r : attempt_result)
| Thrown (reason : string)           (* the [throw error] of line 287 *)
| Uncaught (reason : string)         (* an exception inside a callback *)
| ReturnedUndefined.

Definition result_of (r : upstream_response) : attempt_result :=
  let responseData := String.concat "" (body_chunks r) in
  {| res_statusCode := statusCode r;
     res_retry_after := retry_after r;
     res_responseData := responseData;
     res_decompressedData :=
       match decompressedData r with
       | Some data => data
       | None => responseData
       end |}.

(** The loop (lines 197-292) from attempt [attempt] on, with [remaining]
    turns left.  The delay of a 429 (lines 233-238), the decompression
    (lines 207-210) and the two logging statements (lines 273-281) are
    those of the later version. *)
Fixpoint retry_loop (upstream : nat -> attempt_outcome)
    (requestData : option json)
    (maxRetries : nat) (remaining : nat) (attempt : nat) : list event * final :=
  match remaining with
  | O => ([], ReturnedUndefined)
  | S remaining' =>
      let again := fun (ms : option Z) =>
        let (trace, f) :=
          retry_loop upstream requestData maxRetries remaining' (S attempt) in
        (Sleep ms :: trace, f) in
      (* lines 285-291 *)
      let caught := fun (error : string) =>
        if Nat.eqb attempt (maxRetries - 1) then ([], Thrown error)
        else again (Some (1000 * 2 ^ Z.of_nat attempt)%Z) in
      let '(trace, f) :=
        match upstream attempt with
        | Failed error => caught error
        | Answered r =>
            match decompressedData r with
            | None => ([], Uncaught "zlib.gunzipSync")
            | Some _ =>
                let result := result_of r in
                if (res_statusCode result =? 429)%Z
                   && Nat.ltb attempt (maxRetries - 1)
                then again (delay_429 (res_retry_after result) attempt)
                else if (res_statusCode result =? 503)%Z && Nat.ltb attempt 3
                then again (Some (2 ^ Z.of_nat attempt * 1000)%Z)
                else
                  (* lines 262-284 *)
                  match
                    (if (400 <=? res_statusCode result)%Z
                     then log_request_tools requestData
                     else log_success requestData)
                  with
                  | TypeError error => caught error
                  | Normal _ => ([], Returned result)
                  end
            end
        end in
      (Request attempt :: trace, f)
  end.

(** [makeRequestWithRetry(options, body, requestData, maxRetries)]. *)
Definition makeRequestWithRetry (upstream : nat -> attempt_outcome)
    (requestData : option json) (maxRetries : nat) : list event * final :=
  retry_loop upstream requestData maxRetries maxRetries 0.

End GeminiProxyRetry.

(* ================================================================== *)
(** * Specifications: the properties the theorems are about, and the
      concrete inputs they are run on *)
(* ================================================================== *)

(** The claim as it is worded: at a node, the three keys are gone unless
    the type of the result is exactly ["number"] or ["integer"]. *)
Definition numeric_constraints_claim (o : object) : Prop :=
  forall r, sanitizeSchema (JObj o) = JObj r ->
    str_includes ["number"; "integer"] (match obj_get "type" r with
                                         | Some t => t
                                         | None => JNull
                                         end) = true
    \/ Forall (fun k => obj_get k r = None) numeric_keys.

(** The first entry of a [type] array of strings that is not ["null"]. *)
Definition first_non_null (ts : list string) : option string :=
  find (fun t => negb (String.eqb t "null")) ts.

Definition has_null (ts : list string) : bool :=
  existsb (fun t => String.eqb t "null") ts.

(** The collapsing rule as it is worded: ["null"] in the array sets
    [nullable], and the type is the first other entry, or ["string"]. *)
Definition type_collapse_claim (o : object) (ts : list string) : Prop :=
  obj_get "type" o = Some (JArr (map JStr ts)) ->
  forall r, sanitizeSchema (JObj o) = JObj r ->
    (has_null ts = true -> obj_get "nullable" r = Some (JBool true)) /\
    obj_get "type" r
    = Some (JStr (match first_non_null ts with
                  | Some t => t
                  | None => "string"
                  end)).

(** Five attempts that all bring a 429: the trace the loop leaves. *)
Definition rate_limited_trace (resp : nat -> upstream_response) : list event :=
  [ Request 0; Sleep (delay_429 (retry_after (resp 0)) 0);
    Request 1; Sleep (delay_429 (retry_after (resp 1)) 1);
    Request 2; Sleep (delay_429 (retry_after (resp 2)) 2);
    Request 3; Sleep (delay_429 (retry_after (resp 3)) 3);
    Request 4 ].

(** A request the loop can log about.  Its [messages] can be searched
    for a tool result: they are absent, [null], or an array without
    [null].  Its [tools] can be listed: they are absent, falsy, or an
    array of tools none of which is [null] and whose name, where there is
    one, converts to a string. *)
Definition searchable_messages (requestData : option json) : bool :=
  match js_opt_prop "messages" requestData with
  | Some (JArr messages) =>
      forallb (fun m => match m with JNull => false | _ => true end) messages
  | Some JNull | None => true
  | Some _ => false
  end.

Definition named_tool (tool : json) : bool :=
  match tool with
  | JNull => false
  | _ =>
      match js_opt_prop "name" (js_prop "function" tool) with
      | Some name => printable name
      | None => true
      end
  end.

Definition listable_tools (requestData : option json) : bool :=
  match js_opt_prop "tools" requestData with
  | Some (JArr tools) => forallb named_tool tools
  | Some tools => negb (truthy tools)
  | None => true
  end.

Definition loggable (requestData : option json) : bool :=
  searchable_messages requestData && listable_tools requestData.

(** A response whose body can be decompressed: it is not declared gzip,
    or [zlib.gunzipSync] accepts it. *)
Definition decodes (r : upstream_response) : bool :=
  match content_encoding r, gunzipped r with
  | Some encoding, None => negb (String.eqb encoding "gzip")
  | _, _ => true
  end.

(** A [Retry-After] header whose delay is computed without rounding: it
    is absent, or [parseInt] reads no number from it, or it reads a number
    of seconds whose milliseconds are below [2 ^ 53]. *)
Definition exact_retry_after (retryAfter : option string) : bool :=
  match retryAfter with
  | Some s =>
      match parseInt s with
      | Some n => (Z.abs (n * 1000) <? 2 ^ 53)%Z
      | None => true
      end
  | None => true
  end.

(** A request that lists one tool, [null]. *)
Definition null_tool_request : option json :=
  Some (JObj [("tools", JArr [JNull])]).

(** A request that asks for a streamed response. *)
Definition stream_request : option json :=
  Some (JObj [("stream", JBool true)]).

Definition busy_response : upstream_response :=
  {| statusCode := 429; retry_after := None; body_chunks := ["slow down"];
     content_encoding := None; gunzipped := None |}.

Definition ok_response : upstream_response :=
  {| statusCode := 200; retry_after := None; body_chunks := ["done"];
     content_encoding := None; gunzipped := None |}.

(** No effect on the client connection is followed by a new upstream
    attempt: what "never retried once a byte has been forwarded" says of a
    trace. *)
Definition never_retried_after_forwarding (trace : list event) : Prop :=
  forall before data after,
    trace = before ++ Write data :: after ->
    forall attempt, ~ In (Request attempt) after.

(** A streamed response that the 60 s response timeout cuts after its
    first chunk; the next attempt would answer. *)
Definition cut_stream (attempt : nat) : attempt_outcome :=
  match attempt with
  | O => Responded {| statusCode := 200; retry_after := None;
                      body_chunks := ["data: first"];
                      content_encoding := None; gunzipped := None |}
                   (TimedOut "Response timeout after 60s")
  | S _ => Responded ok_response Ended
  end.

(** [data.error] inside the [try]: [undefined] too when [data] is [null]
    (the read throws and the body is returned). *)
Definition error_of (data : json) : option json :=
  js_opt_prop "error" (Some data).

(** [data.error && typeof data.error === 'object']. *)
Definition is_error_object (e : option json) : bool :=
  match e with
  | Some x => truthy x && typeof_object x
  | None => false
  end.

(** The translation as it is worded: the status becomes the type, the
    code is passed through, the message is defaulted when absent. *)
Definition error_translation_claim (JSON_parse : string -> option json)
    (JSON_stringify : json -> string) (body : string) : Prop :=
  forall data e code status,
    JSON_parse body = Some data ->
    js_prop "error" data = Some (JObj e) ->
    obj_get "code" e = Some code ->
    obj_get "status" e = Some status ->
    convertGeminiErrorToOpenAI JSON_parse JSON_stringify body
    = JSON_stringify
        (JObj [("error",
                JObj [("message", match obj_get "message" e with
                                  | Some m => m
                                  | None => JStr "Unknown error"
                                  end);
                      ("type", status);
                      ("code", code)])]).

(** A serializer and a parser to run the translator on concrete bodies: the
    texts below need no escaping, and the parser knows the bodies of a
    table. *)
Definition quote : string := String (ascii_of_nat 34) "".

Fixpoint render (x : json) : string :=
  match x with
  | JNull => "null"
  | JBool true => "true"
  | JBool false => "false"
  | JNum n => NilZero.string_of_int (Z.to_int n)
  | JStr s => quote ++ s ++ quote
  | JArr l => "[" ++ String.concat "," (map render l) ++ "]"
  | JObj o =>
      "{" ++ String.concat ","
               (map (fun kv => quote ++ fst kv ++ quote ++ ":" ++ render (snd kv)) o)
          ++ "}"
  end%string.

Definition parse_known (bodies : list json) (text : string) : option json :=
  find (fun b => String.eqb (render b) text) bodies.

(** The bodies of the examples: the one of the specification, and one
    whose code is 0. *)
Definition gemini_error (code : Z) : json :=
  JObj [("error", JObj [("code", JNum code); ("message", JStr "bad");
                        ("status", JStr "INVALID_ARGUMENT")])].

Definition openai_error_text (code : json) : string :=
  render (JObj [("error", JObj [("message", JStr "bad");
                                ("type", JStr "INVALID_ARGUMENT");
                                ("code", code)])]).

(** What a later state of a slot keeps of an earlier one: the arguments
    only grow, and an [id] or an [extra_content] that was set is still set,
    to the old value or to a non-empty new one. *)
Definition id_kept (s s' : slot) : Prop :=
  forall id, slot_id s = Some id ->
    exists id', slot_id s' = Some id' /\ (id' = id \/ id' <> "").

Definition extra_content_kept (s s' : slot) : Prop :=
  forall ec, slot_extra_content s = Some ec ->
    exists ec', slot_extra_content s' = Some ec'
                /\ (ec' = ec \/ truthy ec' = true).

Definition slot_kept (s s' : slot) : Prop :=
  extends (slot_arguments s) (slot_arguments s')
  /\ id_kept s s' /\ extra_content_kept s s'.

(** The same for the token read out of [extra_content]. *)
Definition token_kept (s s' : slot) : Prop :=
  forall t, slot_token s = Some t ->
    exists t', slot_token s' = Some t' /\ (t' = t \/ truthy t' = true).

(** The invariant as it is worded, token included, over the chunks of one
    response. *)
Definition accumulator_claim (conversationId : string) (now : Z)
    (chunks : list chunk) (st : accumulator * conversations) : Prop :=
  forall key s, assoc_get key (fst st) = Some s ->
    exists s',
      assoc_get key
        (fst (extractSignaturesFromStreamChunks conversationId now chunks st))
      = Some s'
      /\ slot_kept s s' /\ token_kept s s'.

Definition one_event (d : tool_call_delta) : chunk :=
  {| choices := Some [ {| delta_tool_calls := Some [d] |} ] |}.

(** An event that carries the token of call 0, and a later one whose
    [extra_content] has no token. *)
Definition token_event : tool_call_delta :=
  {| tcd_index := Some 0%Z; tcd_id := Some "c1"; tcd_function := None;
     tcd_extra_content :=
       Some (JObj [("google", JObj [("thought_signature", JStr "tok1")])]) |}.

Definition tokenless_event : tool_call_delta :=
  {| tcd_index := Some 0%Z; tcd_id := None; tcd_function := None;
     tcd_extra_content := Some (JObj [("google", JObj [])]) |}.

Definition after_token_event : accumulator * conversations :=
  extractSignaturesFromStreamChunks "conv" 0 [one_event token_event] ([], []).

(** The current slot of an index: the stored one, or the fresh one of
    lines 372-378. *)
Definition current_slot (acc : accumulator) (index : Z) : slot :=
  match assoc_get (number_key index) acc with
  | Some s => s
  | None => empty_slot
  end.

(** [msg.role === 'assistant' && msg.tool_calls]: the messages the
    injection rewrites. *)
Definition carries_tool_calls (msg : json) : bool :=
  is_assistant msg && truthy_opt (js_prop "tool_calls" msg).

Definition is_null (v : json) : bool :=
  match v with
  | JNull => true
  | _ => false
  end.

(** A message sequence on which no property is read from [null] and no
    [map] is called on something that is not an array. *)
Definition injectable (msgs : list json) : bool :=
  forallb
    (fun msg =>
       negb (is_null msg)
       && (if carries_tool_calls msg then
             match js_prop "tool_calls" msg with
             | Some (JArr tool_calls) => forallb (fun tc => negb (is_null tc)) tool_calls
             | _ => false
             end
           else true))
    msgs.

(** Every record of the store holds a truthy token: the write of lines
    235-244 and 402-411 stands under the tests [if (signature && ...)] and
    [if (accumulated.id && signature)]. *)
Definition signatures_truthy (store : conversations) : bool :=
  forallb (fun c => forallb (fun e => truthy (signature (snd e))) (snd c)) store.

Definition conversation_map (store : conversations) (conversationId : string)
    : signatures_map :=
  match assoc_get conversationId store with
  | Some m => m
  | None => []
  end.

(** The token that the lookup of the injection yields on a store of
    truthy tokens. *)
Definition token_for (signaturesMap : signatures_map) (toolCall : json) : json :=
  match lookup_signature signaturesMap toolCall with
  | Some d => signature d
  | None => JStr SKIP_VALIDATOR
  end.

(** The token of a tool-call as the specification names it: the token of
    the record stored in the signature map of the conversation under the
    id of the tool-call, and the fixed sentinel when no record is stored
    there. *)
Definition stored_token (store : conversations) (conversationId : string)
    (toolCall : json) : json :=
  let sentinel := JStr "skip_thought_signature_validator" in
  match toolCall with
  | JObj o =>
      match obj_get "id" o with
      | Some (JStr id) =>
          match assoc_get conversationId store with
          | Some signaturesMap =>
              match assoc_get id signaturesMap with
              | Some record => signature record
              | None => sentinel
              end
          | None => sentinel
          end
      | _ => sentinel
      end
  | _ => sentinel
  end.

(** [toolCall] with the token injected. *)
Definition with_token (sig : json) (toolCall : json) : json :=
  JObj (obj_set "extra_content"
          (JObj [("google", JObj [("thought_signature", sig)])])
          (spread toolCall)).

(** A request of one assistant message with the two tool-calls [A] and [B],
    and a store that holds a token for [A]. *)
Definition call_A : json := JObj [("id", JStr "A"); ("type", JStr "function")].
Definition call_B : json := JObj [("id", JStr "B"); ("type", JStr "function")].

Definition assistant_message : json :=
  JObj [("role", JStr "assistant"); ("tool_calls", JArr [call_A; call_B])].

Definition two_call_request : json :=
  JObj [("model", JStr "gemini"); ("messages", JArr [assistant_message])].

Definition store_with_A : conversations :=
  [("conv", [("A", {| signature := JStr "sigA"; timestamp := 1 |})])].

(** What the injection makes of the messages [msgs] of a request, when it
    returns: the request with the messages [messages], as many, in which
    every assistant message with an array of tool-calls has the first of
    them carry the stored token and the others as they came. *)
Definition injected (store : conversations) (requestData : json)
    (conversationId : string) (msgs messages : list json) : Prop :=
  injectThoughtSignatures store requestData conversationId
  = Normal (JObj (obj_set "messages" (JArr messages) (spread requestData)))
  /\ List.length messages = List.length msgs
  /\ forall i msg tool_calls,
       nth_error msgs i = Some msg ->
       is_assistant msg = true ->
       js_prop "tool_calls" msg = Some (JArr tool_calls) ->
       exists toolCalls,
         nth_error messages i
         = Some (JObj (obj_set "tool_calls" (JArr toolCalls) (spread msg)))
         /\ List.length toolCalls = List.length tool_calls
         /\ (forall first, nth_error tool_calls 0 = Some first ->
               nth_error toolCalls 0
               = Some (with_token (stored_token store conversationId first)
                         first))
         /\ (forall j other, 0 < j -> nth_error tool_calls j = Some other ->
               nth_error toolCalls j = Some other).

(** The claim as it is worded: every request body with a messages array
    is rewritten in this way. *)
Definition injection_claim (store : conversations) (requestData : json)
    (conversationId : string) : Prop :=
  forall msgs,
    js_prop "messages" requestData = Some (JArr msgs) ->
    exists messages, injected store requestData conversationId msgs messages.

(** A conversation whose second message is [null]. *)
Definition null_message_request : json :=
  JObj [("model", JStr "gemini"); ("messages", JArr [assistant_message; JNull])].

(** What the sweep leaves of one conversation whose records within the
    TTL are [live]: all of them when they are at most 100; otherwise 100 of
    them, the ones removed being as many as exceed the cap and none of them
    newer than a record that stays. *)
Definition capped (live kept : signatures_map) : Prop :=
  (List.length live <= MAX_SIGNATURES -> kept = live)
  /\ (MAX_SIGNATURES < List.length live ->
      List.length kept = MAX_SIGNATURES
      /\ exists removed,
           Permutation live (removed ++ kept)
           /\ List.length removed = List.length live - MAX_SIGNATURES
           /\ forall r k, In r removed -> In k kept ->
                (timestamp (snd r) <= timestamp (snd k))%Z).

(** The state of one conversation after [sweep(now)]. *)
Definition swept (now : Z) (before : option signatures_map)
    (after : option signatures_map) : Prop :=
  match before with
  | None => after = None
  | Some m =>
      match within_ttl now m with
      | [] => after = None
      | live => exists kept, after = Some kept /\ kept <> [] /\ capped live kept
      end
  end.

(** What one turn of the outer loop leaves of a conversation. *)
Definition swept_conversation (oneHourAgo : Z) (m : signatures_map)
    : option signatures_map :=
  let signaturesMap := delete_expired oneHourAgo m in
  if Nat.eqb (List.length signaturesMap) 0 then None
  else Some (evict_oldest signaturesMap).

(** A conversation of 101 records, stored one millisecond apart from
    time 5000 on, and one whose only record has expired at time 3603000. *)
Definition numbered_record (i : nat) : string * signature_data :=
  (index_key i, {| signature := JStr "sig"; timestamp := 5000 + Z.of_nat i |}).

Definition full_store : conversations :=
  [ ("busy", map numbered_record (seq 0 101));
    ("idle", [("old", {| signature := JStr "sig"; timestamp := 1 |})]) ].

(** [older e e']: [e] is not newer than [e']. *)
Definition older (e e' : string * signature_data) : Prop :=
  (timestamp (snd e) <= timestamp (snd e'))%Z.

(** [sorted l]: no entry is newer than one that comes after it. *)
Fixpoint sorted (l : list (string * signature_data)) : Prop :=
  match l with
  | [] => True
  | x :: rest => Forall (older x) rest /\ sorted rest
  end.

(** No [type] array at an object node of [x] has an array as its first
    entry other than ["null"]. *)
Definition flat_type (o : object) : bool :=
  match obj_get "type" o with
  | Some (JArr ts) =>
      match find (fun t => negb (is_null_name t)) ts with
      | Some (JArr _) => false
      | _ => true
      end
  | _ => true
  end.

Fixpoint flat_types (x : json) : bool :=
  match x with
  | JArr l => forallb flat_types l
  | JObj o => flat_type o && forallb (fun kv => flat_types (snd kv)) o
  | _ => true
  end.

(** A node whose [type] array holds an array. *)
Definition nested_type_schema : json :=
  JObj [("type", JArr [JArr [JStr "string"]])].

(** A node whose [type] is an array of strings. *)
Definition nullable_integer : object :=
  [("type", JArr (map JStr ["integer"; "null"])); ("minimum", JNum 0)].

(** A schema of the usual shape, for the hypotheses of the theorems. *)
Definition sample_schema : json :=
  JObj [("type", JArr [JStr "object"; JStr "null"]);
        ("$schema", JStr "http://json-schema.org/draft-07/schema#");
        ("properties",
         JObj [("name", JObj [("type", JStr "string"); ("format", JStr "email");
                              ("minimum", JNum 1)]);
               ("tags", JObj [("type", JStr "array");
                              ("items", JObj [("type", JArr [JStr "null"]);
                                              ("const", JStr "x")])])]);
        ("required", JArr []);
        ("additionalProperties", JBool false)].

(** What the loop builds: one entry per key, none under [__proto__], and
    every value a result of the recursive call. *)
Definition rebuilt (rec : json -> json) (props : object) : Prop :=
  NoDup (keys props)
  /\ ~ In "__proto__" (keys props)
  /\ forall k v, In (k, v) props -> rec v = v.

(** The two invariants of the store, as propositions: one entry per key
    in every [Map], and a truthy token in every record. *)
Definition good_map (m : signatures_map) : Prop :=
  NoDup (keys m) /\ forall id d, In (id, d) m -> truthy (signature d) = true.

Definition good_store (store : conversations) : Prop :=
  NoDup (keys store) /\ forall cid m, In (cid, m) store -> good_map m.

(** The attempts a trace issues, in order. *)
Definition requests (trace : list event) : list nat :=
  flat_map (fun e => match e with
                     | Request attempt => [attempt]
                     | _ => []
                     end) trace.

(** The trace of [n + 1] attempts made from attempt [attempt] on when none
    of them but the last is answered: 1 s, 2 s, 4 s, ... in between. *)
Fixpoint backoff_trace (attempt : nat) (n : nat) : list event :=
  match n with
  | O => []
  | S n' =>
      Request attempt :: Sleep (Some (1000 * 2 ^ Z.of_nat attempt)%Z)
        :: backoff_trace (S attempt) n'
  end.

(** What forwarding a whole streamed response writes to the client. *)
Definition forwarded (r : upstream_response) : list event :=
  WriteHead (statusCode r) :: map Write (body_chunks r) ++ [EndResponse].

(** What the loop does once the promise of an attempt has settled: it
    ends with an outcome, or sleeps and goes on to the next attempt.  This
    is the body of the loop read as a function of the settlement. *)
Inductive verdict : Type :=
| Stop (f : final)
| Again (ms : option Z).

Definition caught_verdict (maxRetries attempt : nat) (error : string) : verdict :=
  if Nat.eqb attempt (maxRetries - 1) then Stop (Thrown error)
  else Again (Some (1000 * 2 ^ Z.of_nat attempt)%Z).

Definition verdict_of (requestData : option json) (maxRetries attempt : nat)
    (settled : settlement) : verdict :=
  match settled with
  | Unsettled exception => Stop (Uncaught exception)
  | Rejected error => caught_verdict maxRetries attempt error
  | Resolved result =>
      match
        (if (200 <=? res_statusCode result)%Z
            && (res_statusCode result <? 300)%Z
            && negb (res_streaming result)
         then hasToolResults requestData
         else Normal false)
      with
      | TypeError error => caught_verdict maxRetries attempt error
      | Normal _ =>
          if res_streaming result then Stop (Returned result)
          else if (res_statusCode result =? 429)%Z
                  && Nat.ltb attempt (maxRetries - 1)
          then Again (delay_429 (res_retry_after result) attempt)
          else if (res_statusCode result =? 503)%Z && Nat.ltb attempt 3
          then Again (Some (2 ^ Z.of_nat attempt * 1000)%Z)
          else
            match
              (if (400 <=? res_statusCode result)%Z
               then log_request_tools requestData
               else log_success requestData)
            with
            | TypeError error => caught_verdict maxRetries attempt error
            | Normal _ => Stop (Returned result)
            end
      end
  end.

(** A 503, and a response that is declared gzip and is not. *)
Definition unavailable_response : upstream_response :=
  {| statusCode := 503; retry_after := None; body_chunks := ["overloaded"];
     content_encoding := None; gunzipped := None |}.

Definition broken_gzip_response : upstream_response :=
  {| statusCode := 200; retry_after := None; body_chunks := ["done"];
     content_encoding := Some "gzip"; gunzipped := None |}.

(** The tool-call events of a streamed response, in the order the three
    loops of [extractSignaturesFromStreamChunks] visit them. *)
Definition choice_events (c : choice) : list tool_call_delta :=
  match delta_tool_calls c with
  | Some tool_calls => tool_calls
  | None => []
  end.

Definition chunk_events (c : chunk) : list tool_call_delta :=
  match choices c with
  | Some cs => flat_map choice_events cs
  | None => []
  end.

Definition stream_events (chunks : list chunk) : list tool_call_delta :=
  flat_map chunk_events chunks.

(** The token an event carries in its [extra_content]. *)
Definition delta_token (d : tool_call_delta) : option json :=
  js_opt_prop "thought_signature" (js_opt_prop "google" (tcd_extra_content d)).

(** [for_index index d]: the event updates the tool-call [index]. *)
Definition for_index (index : Z) (d : tool_call_delta) : bool :=
  match tcd_index d with
  | Some i => Z.eqb i index
  | None => false
  end.

(** The fragments of the arguments that the events bring for one
    tool-call. *)
Definition fragments (index : Z) (events : list tool_call_delta) : list string :=
  flat_map
    (fun d =>
       if for_index index d then
         match tcd_function d with
         | Some fn =>
             match fn_arguments fn with
             | Some fragment => [fragment]
             | None => []
             end
         | None => []
         end
       else [])
    events.

(** The record a store holds for a tool-call of a conversation. *)
Definition stored (store : conversations) (conversationId toolCallId : string)
    : option signature_data :=
  assoc_get toolCallId (conversation_map store conversationId).

(** The tool-calls one choice of a buffered response brings, when reading
    them does not throw. *)
Definition choice_tool_calls (choice : json) : completion (list json) :=
  message <- choice_message choice ;;
  match js_opt_prop "tool_calls" message with
  | Some tool_calls => if truthy tool_calls then iterate tool_calls else Normal []
  | None => Normal []
  end.

(** The tool-calls of the choices up to the first one that throws. *)
Fixpoint response_tool_calls (choices : list json) : list json :=
  match choices with
  | [] => []
  | choice :: rest =>
      match choice_tool_calls choice with
      | Normal toolCalls => toolCalls ++ response_tool_calls rest
      | TypeError _ => []
      end
  end.

(** [trim] on a text whose blanks are the ASCII ones. *)
Fixpoint trim_end (s : string) : string :=
  match s with
  | EmptyString => EmptyString
  | String c rest =>
      match trim_end rest with
      | EmptyString => if is_blank c then EmptyString else String c EmptyString
      | kept => String c kept
      end
  end.

Definition ascii_trim (s : string) : string := trim_end (skip_blanks s).

(** A buffered response with two choices: the first brings the tool-call
    [call_1] with its token, the second a tool-call without a function
    name. *)
Definition signed_call (id sig : string) : json :=
  JObj [("id", JStr id);
        ("function", JObj [("name", JStr "read"); ("arguments", JStr "{}")]);
        ("extra_content",
         JObj [("google", JObj [("thought_signature", JStr sig)])])].

Definition nameless_call : json :=
  JObj [("id", JStr "call_2"); ("function", JObj []);
        ("extra_content",
         JObj [("google", JObj [("thought_signature", JStr "tok2")])])].

Definition buffered_response : json :=
  JObj [("choices",
         JArr [JObj [("message",
                      JObj [("tool_calls", JArr [signed_call "call_1" "tok1"])])];
               JObj [("message", JObj [("tool_calls", JArr [nameless_call])])]])].

(** A streamed tool-call as the upstream sends it: the id and the name
    first, the arguments in fragments, the token with the last event. *)
Definition opening_event : tool_call_delta :=
  {| tcd_index := Some 0%Z; tcd_id := Some "call_1";
     tcd_function := Some {| fn_name := Some "read"; fn_arguments := Some "" |};
     tcd_extra_content := None |}.

Definition fragment_event (index : Z) (fragment : string) : tool_call_delta :=
  {| tcd_index := Some index; tcd_id := None;
     tcd_function := Some {| fn_name := None; fn_arguments := Some fragment |};
     tcd_extra_content := None |}.

Definition closing_event : tool_call_delta :=
  {| tcd_index := Some 0%Z; tcd_id := None; tcd_function := None;
     tcd_extra_content :=
       Some (JObj [("google", JObj [("thought_signature", JStr "tok1")])]) |}.

Definition streamed_call : list chunk :=
  [ one_event opening_event;
    {| choices :=
         Some [ {| delta_tool_calls :=
                     Some [fragment_event 0 "{a"; fragment_event 1 "{b"] |} ] |};
    one_event (fragment_event 0 "}");
    one_event closing_event ].

(** The id and the token a tool-call of a buffered response is recorded
    with, when it is recorded. *)
Definition recorded_as (trim : string -> string) (toolCall : json)
    : option (string * json) :=
  match valid_tool_call trim toolCall with
  | Some id =>
      match thought_signature_of toolCall with
      | Some sig => if truthy sig then Some (id, sig) else None
      | None => None
      end
  | None => None
  end.

(** The token of the last tool-call of a list that is recorded under
    [id]. *)
Definition last_signature (trim : string -> string) (id : string)
    (toolCalls : list json) : option json :=
  fold_left
    (fun found toolCall =>
       match recorded_as trim toolCall with
       | Some (id', sig) => if String.eqb id' id then Some sig else found
       | None => found
       end)
    toolCalls None.

(** The tool-calls of a response body that the buffered path visits: none
    when the body does not parse or its [choices] cannot be iterated, and
    otherwise those of the choices before the first one that throws. *)
Definition body_tool_calls (JSON_parse : string -> option json)
    (responseData : string) : list json :=
  match JSON_parse responseData with
  | Some JNull | None => []
  | Some data =>
      match iterate (or_default (js_prop "choices" data) (JArr [])) with
      | Normal choices => response_tool_calls choices
      | TypeError _ => []
      end
  end.

(** A response whose second choice is [null], and the same response cut
    before it. *)
Definition choice_with (toolCalls : list json) : json :=
  JObj [("message", JObj [("tool_calls", JArr toolCalls)])].

Definition broken_response : json :=
  JObj [("choices",
         JArr ([choice_with [signed_call "call_1" "tok1"]]
               ++ JNull :: [choice_with [signed_call "call_3" "tok3"]]))].

Definition cut_response : json :=
  JObj [("choices", JArr [choice_with [signed_call "call_1" "tok1"]])].

(** The line feed that separates the lines of an event stream. *)
Definition line_feed : string := String "010" EmptyString.

(** [ends_line chunk]: the chunk ends with a line feed. *)
Definition ends_line (chunk : string) : Prop :=
  exists text, chunk = (text ++ line_feed)%string.

(** An object node as Gemini takes it, as far as the sanitizer goes: none
    of the unsupported keywords, a [format] that is [enum] or [date-time]
    (or falsy), no [additionalProperties: false], no empty [required], and
    no numeric bound beside a type that is not numeric. *)
Definition absent (o : object) (k : string) : bool :=
  match obj_get k o with
  | Some _ => false
  | None => true
  end.

Definition supported_format (o : object) : bool :=
  match obj_get "format" o with
  | Some f => negb (truthy f) || str_includes ["enum"; "date-time"] f
  | None => true
  end.

Definition closed (o : object) : bool :=
  match obj_get "additionalProperties" o with
  | Some (JBool false) => true
  | _ => false
  end.

Definition empty_required (o : object) : bool :=
  match obj_get "required" o with
  | Some (JArr []) => true
  | _ => false
  end.

Definition gemini_node (o : object) : bool :=
  forallb (absent o) unsupported_keys
  && supported_format o
  && negb (closed o)
  && negb (empty_required o)
  && (negb (non_numeric_type o) || forallb (absent o) numeric_keys).

(** [subschema x y]: [y] is [x] or is reached from [x] through the values
    of [properties], through [items] and through [additionalProperties],
    the places where a schema holds schemas. *)
Inductive subschema : json -> json -> Prop :=
| sub_root (x : json) : subschema x x
| sub_property (o ps : object) (k : string) (v y : json) :
    obj_get "properties" o = Some (JObj ps) -> obj_get k ps = Some v ->
    subschema v y -> subschema (JObj o) y
| sub_items (o : object) (it y : json) :
    obj_get "items" o = Some it -> subschema it y -> subschema (JObj o) y
| sub_additional (o : object) (ap y : json) :
    obj_get "additionalProperties" o = Some ap -> subschema ap y ->
    subschema (JObj o) y.

(** The keywords the sanitizer deletes, rewrites or descends into. *)
Definition rewritten_keys : list string :=
  unsupported_keys
  ++ ["format"; "type"; "nullable"; "additionalProperties"; "required"]
  ++ numeric_keys ++ ["properties"; "items"].

(** One property of a [properties] object, sanitized. *)
Definition sanitized_property (kv : string * json) : string * json :=
  (fst kv, sanitizeSchema (snd kv)).

Definition own_name (kv : string * json) : bool :=
  negb (String.eqb (fst kv) "__proto__").

(** [tool?.function?.parameters]. *)
Definition tool_parameters (tool : json) : option json :=
  js_opt_prop "parameters" (js_opt_prop "function" (Some tool)).

(** A tool of the usual shape, its parameters the sample schema. *)
Definition sample_tool : json :=
  JObj [("type", JStr "function");
        ("function",
         JObj [("name", JStr "read_file"); ("description", JStr "Reads a file");
               ("parameters", sample_schema)])].

(** A conversation of a user message and an assistant message with two
    tool-calls, before and after the injection from [store_with_A]. *)
Definition user_message : json :=
  JObj [("role", JStr "user"); ("content", JStr "read it")].

Definition conversation_request : json :=
  JObj [("model", JStr "gemini");
        ("messages", JArr [user_message; assistant_message])].

Definition conversation_request_injected : json :=
  JObj [("model", JStr "gemini");
        ("messages",
         JArr [user_message;
               JObj [("role", JStr "assistant");
                     ("tool_calls",
                      JArr [with_token (JStr "sigA") call_A; call_B])]])].

(** A chat completion request of the usual shape: a model, the streaming
    flag, one tool and a conversation with one assistant message that
    carries two tool-calls. *)
Definition sample_request : json :=
  JObj [("model", JStr "gemini"); ("stream", JBool true);
        ("tools", JArr [sample_tool]);
        ("messages",
         JArr [user_message; assistant_message]);
        ("temperature", JNum 0)].

(** Two error bodies: one in the format of the Gemini API, and what the
    translator makes of it, which is in the format of the OpenAI API. *)
Definition translated_error : json :=
  openai_error
    (JObj [("code", JNum 400); ("message", JStr "bad");
           ("status", JStr "INVALID_ARGUMENT")]).

(** The same request without the [stream] flag: its response is
    buffered. *)
Definition buffered_request : json :=
  JObj [("model", JStr "gemini");
        ("tools", JArr [sample_tool]);
        ("messages",
         JArr [user_message; assistant_message])].

(** The request objects on which the injection throws: those whose
    [messages] is truthy and is not an array of messages that the
    injection can process. *)
Definition injection_fails (o : object) : bool :=
  match obj_get "messages" o with
  | Some (JArr msgs) => negb (injectable msgs)
  | Some v => truthy v
  | None => false
  end.

(** What the translator makes of its own output for the error [e]: the
    status is gone, the type is the default. *)
Definition retranslated_error (e : json) : json :=
  JObj [("error",
         JObj [("message",
                or_default (js_prop "message" e) (JStr "Unknown error"));
               ("type", JStr "api_error");
               ("code", or_default (js_prop "code" e) JNull)])].

(** The three bodies of the example: the error of the Gemini API, its
    translation, and the translation of the translation. *)
Definition error_bodies : list json :=
  [gemini_error 400; translated_error;
   retranslated_error (JObj [("code", JNum 400); ("message", JStr "bad");
                             ("status", JStr "INVALID_ARGUMENT")])].

(** The outcomes of the earlier version among those of the later one, and
    the outcomes of the later version read as outcomes of the earlier one:
    the result object loses its field [streaming]. *)
Definition as_outcome (o : GeminiProxyRetry.attempt_outcome) : attempt_outcome :=
  match o with
  | GeminiProxyRetry.Failed reason => NoResponse reason
  | GeminiProxyRetry.Answered r => Responded r Ended
  end.

Definition without_mode (f : final) : GeminiProxyRetry.final :=
  match f with
  | Returned r =>
      GeminiProxyRetry.Returned
        {| GeminiProxyRetry.res_statusCode := res_statusCode r;
           GeminiProxyRetry.res_retry_after := res_retry_after r;
           GeminiProxyRetry.res_responseData := res_responseData r;
           GeminiProxyRetry.res_decompressedData := res_decompressedData r |}
  | Thrown reason => GeminiProxyRetry.Thrown reason
  | Uncaught reason => GeminiProxyRetry.Uncaught reason
  | ReturnedUndefined => GeminiProxyRetry.ReturnedUndefined
  end.

(* ================================================================== *)
(** * Association lists *)
(* ================================================================== *)

Section AssocFacts.
Context {V : Type}.
Implicit Types (m : list (string * V)) (k : string) (v : V).

Lemma assoc_get_set_same k v m : assoc_get k (assoc_set k v m) = Some v.
Proof.
  induction m as [|[k' v'] m IH]; simpl.
  - now rewrite String.eqb_refl.
  - destruct (String.eqb k' k) eqn:E; simpl; now rewrite E.
Qed.

Lemma assoc_get_set_other k k' v m :
  String.eqb k' k = false -> assoc_get k (assoc_set k' v m) = assoc_get k m.
Proof.
  intros Hne. induction m as [|[k0 v0] m IH]; simpl.
  - now rewrite Hne.
  - destruct (String.eqb k0 k') eqn:E; simpl.
    + apply String.eqb_eq in E. subst k0. now rewrite Hne.
    + now rewrite IH.
Qed.

Lemma assoc_get_delete_same k m : assoc_get k (assoc_delete k m) = None.
Proof.
  induction m as [|[k' v'] m IH]; simpl; [reflexivity|].
  destruct (String.eqb k' k) eqn:E; simpl; [assumption|now rewrite E].
Qed.

Lemma assoc_get_delete_other k k' m :
  String.eqb k' k = false -> assoc_get k (assoc_delete k' m) = assoc_get k m.
Proof.
  intros Hne. induction m as [|[k0 v0] m IH]; simpl; [reflexivity|].
  destruct (String.eqb k0 k') eqn:E; simpl.
  - apply String.eqb_eq in E. subst k0. now rewrite Hne.
  - now rewrite IH.
Qed.

(** A property a [delete] leaves was there before. *)
Lemma assoc_get_delete_some k k' m v :
  assoc_get k (assoc_delete k' m) = Some v -> assoc_get k m = Some v.
Proof.
  destruct (String.eqb k' k) eqn:E.
  - apply String.eqb_eq in E. subst. now rewrite assoc_get_delete_same.
  - now rewrite assoc_get_delete_other.
Qed.

Lemma assoc_delete_absent k m : assoc_get k m = None -> assoc_delete k m = m.
Proof.
  induction m as [|[k' v'] m IH]; simpl; [reflexivity|].
  destruct (String.eqb k' k); [discriminate|]. intros H. now rewrite IH.
Qed.

Lemma assoc_set_unchanged k v m : assoc_get k m = Some v -> assoc_set k v m = m.
Proof.
  induction m as [|[k' v'] m IH]; simpl; [discriminate|].
  destruct (String.eqb k' k).
  - now intros [= ->].
  - intros H. now rewrite IH.
Qed.

Lemma assoc_set_absent k v m : assoc_get k m = None -> assoc_set k v m = m ++ [(k, v)].
Proof.
  induction m as [|[k' v'] m IH]; simpl; [reflexivity|].
  destruct (String.eqb k' k); [discriminate|]. intros H. now rewrite IH.
Qed.

Lemma assoc_delete_set k k' v m :
  String.eqb k' k = false ->
  assoc_delete k (assoc_set k' v m) = assoc_set k' v (assoc_delete k m).
Proof.
  intros Hne. induction m as [|[k0 v0] m IH]; simpl.
  - now rewrite Hne.
  - destruct (String.eqb k0 k') eqn:E1; simpl.
    + apply String.eqb_eq in E1. subst k0. rewrite Hne. simpl.
      now rewrite String.eqb_refl.
    + destruct (String.eqb k0 k) eqn:E2; simpl; [assumption|].
      now rewrite E1, IH.
Qed.

(** Two assignments to different keys commute when the first key is
    already there. *)
Lemma assoc_set_set k k' v v' w m :
  String.eqb k' k = false -> assoc_get k m = Some w ->
  assoc_set k' v' (assoc_set k v m) = assoc_set k v (assoc_set k' v' m).
Proof.
  intros Hne. induction m as [|[k0 v0] m IH]; simpl; [discriminate|].
  destruct (String.eqb k0 k) eqn:E1; simpl.
  - apply String.eqb_eq in E1. subst k0. intros _.
    rewrite String.eqb_sym, Hne. simpl. now rewrite String.eqb_refl.
  - intros Hg. destruct (String.eqb k0 k') eqn:E2; simpl; rewrite E1.
    + reflexivity.
    + now rewrite IH.
Qed.

Lemma assoc_get_in k v m : assoc_get k m = Some v -> In (k, v) m.
Proof.
  induction m as [|[k' v'] m IH]; simpl; [discriminate|].
  destruct (String.eqb k' k) eqn:E.
  - apply String.eqb_eq in E. intros [= ->]. left. now subst.
  - intros H. right. now apply IH.
Qed.

Lemma assoc_get_none_keys k m : assoc_get k m = None <-> ~ In k (keys m).
Proof.
  induction m as [|[k' v'] m IH]; simpl; [tauto|].
  destruct (String.eqb k' k) eqn:E.
  - apply String.eqb_eq in E. subst. split; [discriminate|tauto].
  - apply String.eqb_neq in E. rewrite IH. tauto.
Qed.

(** With one entry per key, an entry is what [get] finds. *)
Lemma assoc_get_unique k v m :
  NoDup (keys m) -> In (k, v) m -> assoc_get k m = Some v.
Proof.
  induction m as [|[k' v'] m IH]; simpl; [tauto|].
  intros Hnd [H|H].
  - injection H as -> ->. now rewrite String.eqb_refl.
  - inversion Hnd as [|? ? Hnotin Hnd']; subst.
    destruct (String.eqb k' k) eqn:E.
    + apply String.eqb_eq in E. subst. exfalso. apply Hnotin.
      change (In (fst (k, v)) (map fst m)). now apply in_map.
    + now apply IH.
Qed.

Lemma assoc_delete_filter k m :
  assoc_delete k m = filter (fun e => negb (String.eqb (fst e) k)) m.
Proof.
  induction m as [|[k' v'] m IH]; simpl; [reflexivity|].
  destruct (String.eqb k' k); simpl; now rewrite IH.
Qed.

Lemma keys_assoc_set k v m w :
  assoc_get k m = Some w -> keys (assoc_set k v m) = keys m.
Proof.
  induction m as [|[k' v'] m IH]; simpl; [discriminate|].
  destruct (String.eqb k' k); simpl; [reflexivity|].
  intros H. f_equal. now apply IH.
Qed.

End AssocFacts.

Lemma unique_NoDup (l : list string) : unique l = true <-> NoDup l.
Proof.
  induction l as [|k l IH]; simpl.
  - split; [constructor|reflexivity].
  - rewrite andb_true_iff, negb_true_iff, IH. split.
    + intros [Hn Hu]. constructor; [|assumption].
      intros Hin. assert (existsb (String.eqb k) l = true); [|congruence].
      apply existsb_exists. exists k. split; [assumption|apply String.eqb_refl].
    + intros Hnd. inversion Hnd as [|? ? Hnotin Hnd']; subst. split; [|assumption].
      destruct (existsb (String.eqb k) l) eqn:E; [|reflexivity].
      apply existsb_exists in E. destruct E as [x [Hin Hx]].
      apply String.eqb_eq in Hx. now subst.
Qed.

(* ================================================================== *)
(** * The sanitizer: the recursion is well founded *)
(* ================================================================== *)

Lemma depth_in_arr (l : list json) (v : json) :
  In v l -> json_depth v < json_depth (JArr l).
Proof.
  simpl. induction l as [|x l IH]; simpl; [tauto|].
  intros [->|H]; [lia|]. specialize (IH H). lia.
Qed.

Lemma depth_in_obj (o : object) (k : string) (v : json) :
  In (k, v) o -> json_depth v < json_depth (JObj o).
Proof.
  simpl. induction o as [|[k' x] o IH]; simpl; [tauto|].
  intros [H|H]; [injection H as -> ->; lia|]. specialize (IH H). lia.
Qed.

Lemma depth_get (o : object) (k : string) (v : json) :
  obj_get k o = Some v -> json_depth v < json_depth (JObj o).
Proof. intros H. eapply depth_in_obj, assoc_get_in, H. Qed.

Lemma array_entries_in (l : list json) (k : string) (v : json) :
  In (k, v) (array_entries l) -> In v l.
Proof. unfold array_entries. apply in_combine_r. Qed.

(** The values the loop over the properties hands to the recursive call. *)
Lemma rebuild_props_ext (rec1 rec2 : json -> json) (entries : object) :
  (forall k v, In (k, v) entries -> rec1 v = rec2 v) ->
  rebuild_props rec1 entries = rebuild_props rec2 entries.
Proof.
  unfold rebuild_props. generalize (@nil (string * json)).
  induction entries as [|[k v] es IH]; intros acc H; simpl; [reflexivity|].
  rewrite (H k v) by now left.
  apply IH. intros k' v' Hin. apply (H k' v'). now right.
Qed.

(** The recursive calls of one level reach only the values under
    [properties], [items] and [additionalProperties]. *)
Lemma sanitize_children_ext (rec1 rec2 : json -> json) (clean : object) (n : nat) :
  (forall v, obj_get "properties" clean = Some v -> json_depth v <= n) ->
  (forall v, obj_get "items" clean = Some v -> json_depth v <= n) ->
  (forall v, obj_get "additionalProperties" clean = Some v -> json_depth v <= n) ->
  (forall v, json_depth v <= n -> rec1 v = rec2 v) ->
  sanitize_children rec1 clean = sanitize_children rec2 clean.
Proof.
  intros Hp Hi Ha Hrec. unfold sanitize_children.
  assert (E1 : sanitize_properties rec1 clean = sanitize_properties rec2 clean).
  { unfold sanitize_properties.
    destruct (obj_get "properties" clean) as [[| | | |l|ps]|] eqn:E; try reflexivity.
    - rewrite (rebuild_props_ext rec1 rec2); [reflexivity|].
      intros k v Hin. apply Hrec. apply array_entries_in in Hin.
      apply depth_in_arr in Hin. specialize (Hp _ eq_refl). lia.
    - rewrite (rebuild_props_ext rec1 rec2); [reflexivity|].
      intros k v Hin. apply Hrec.
      apply depth_in_obj in Hin. specialize (Hp _ eq_refl). lia. }
  rewrite E1. set (c1 := sanitize_properties rec2 clean).
  assert (G1 : forall k, String.eqb "properties" k = false ->
                         obj_get k c1 = obj_get k clean).
  { intros k Hk. unfold c1, sanitize_properties.
    destruct (obj_get "properties" clean) as [[| | | |l|ps]|]; try reflexivity;
      now rewrite assoc_get_set_other. }
  assert (E2 : sanitize_items rec1 c1 = sanitize_items rec2 c1).
  { unfold sanitize_items. rewrite G1 by reflexivity.
    destruct (obj_get "items" clean) as [it|] eqn:E; [|reflexivity].
    destruct (truthy it); [|reflexivity].
    now rewrite (Hrec it (Hi _ eq_refl)). }
  rewrite E2. set (c2 := sanitize_items rec2 c1).
  assert (G2 : obj_get "additionalProperties" c2
               = obj_get "additionalProperties" clean).
  { unfold c2, sanitize_items. rewrite G1 by reflexivity.
    destruct (obj_get "items" clean) as [it|]; [|now apply G1].
    destruct (truthy it); [|now apply G1].
    rewrite assoc_get_set_other by reflexivity. now apply G1. }
  unfold sanitize_additional. rewrite G2.
  destruct (obj_get "additionalProperties" clean) as [ap|] eqn:E; [|reflexivity].
  destruct (truthy ap && typeof_object ap); [|reflexivity].
  now rewrite (Hrec ap (Ha _ eq_refl)).
Qed.

Lemma delete_keys_get_some (ks : list string) (k : string) (o : object) (v : json) :
  obj_get k (delete_keys ks o) = Some v -> obj_get k o = Some v.
Proof.
  unfold delete_keys. revert o.
  induction ks as [|k' ks IH]; intros o; simpl; [tauto|].
  intros H. apply IH in H. eapply assoc_get_delete_some, H.
Qed.

Lemma delete_keys_get_other (ks : list string) (k : string) (o : object) :
  forallb (fun k' => negb (String.eqb k' k)) ks = true ->
  obj_get k (delete_keys ks o) = obj_get k o.
Proof.
  unfold delete_keys. revert o.
  induction ks as [|k' ks IH]; intros o; simpl; [reflexivity|].
  rewrite andb_true_iff, negb_true_iff. intros [H1 H2].
  rewrite IH by assumption. now apply assoc_get_delete_other.
Qed.

Lemma delete_keys_get_deleted (ks : list string) (k : string) (o : object) :
  In k ks -> obj_get k (delete_keys ks o) = None.
Proof.
  unfold delete_keys. revert o.
  induction ks as [|k' ks IH]; intros o; simpl; [tauto|].
  intros [->|H]; [|now apply IH].
  destruct (obj_get k (fold_left (fun c k0 => obj_delete k0 c) ks (obj_delete k o)))
    as [v|] eqn:E; [|reflexivity].
  apply (delete_keys_get_some ks) in E. now rewrite assoc_get_delete_same in E.
Qed.

Lemma drop_format_get_some (k : string) (o : object) (v : json) :
  obj_get k (drop_format o) = Some v -> obj_get k o = Some v.
Proof.
  unfold drop_format. destruct (obj_get "format" o) as [f|]; [|tauto].
  destruct (truthy f && negb (str_includes ["enum"; "date-time"] f)); [|tauto].
  apply assoc_get_delete_some.
Qed.

Lemma collapse_type_get_some (k : string) (o : object) (v : json) :
  String.eqb "type" k = false -> String.eqb "nullable" k = false ->
  obj_get k (collapse_type o) = Some v -> obj_get k o = Some v.
Proof.
  intros Ht Hn. unfold collapse_type.
  destruct (obj_get "type" o) as [[| | | |ts|]|]; try tauto.
  destruct (find (fun t => negb (is_null_name t)) ts) as [t|].
  - destruct (truthy t); [destruct (existsb is_null_name ts)|];
      now rewrite ?assoc_get_set_other by assumption.
  - now rewrite assoc_get_set_other.
Qed.

Lemma drop_closed_get_some (k : string) (o : object) (v : json) :
  obj_get k (drop_closed o) = Some v -> obj_get k o = Some v.
Proof.
  unfold drop_closed.
  destruct (obj_get "additionalProperties" o) as [[|[|]| | | |]|]; try tauto.
  apply assoc_get_delete_some.
Qed.

Lemma drop_empty_required_get_some (k : string) (o : object) (v : json) :
  obj_get k (drop_empty_required o) = Some v -> obj_get k o = Some v.
Proof.
  unfold drop_empty_required.
  destruct (obj_get "required" o) as [[| | | |[|]|]|]; try tauto.
  apply assoc_get_delete_some.
Qed.

Lemma drop_numeric_get_some (k : string) (o : object) (v : json) :
  obj_get k (drop_numeric o) = Some v -> obj_get k o = Some v.
Proof.
  unfold drop_numeric. destruct (non_numeric_type o); [|tauto].
  apply delete_keys_get_some.
Qed.

(** What the steps before the recursion leave under a key they never
    assign ([type] and [nullable] are the two they assign). *)
Lemma sanitize_node_get_some (k : string) (o : object) (v : json) :
  String.eqb "type" k = false -> String.eqb "nullable" k = false ->
  obj_get k (sanitize_node o) = Some v -> obj_get k o = Some v.
Proof.
  intros Ht Hn H. unfold sanitize_node in H.
  apply drop_numeric_get_some, drop_empty_required_get_some,
    drop_closed_get_some, collapse_type_get_some, drop_format_get_some,
    delete_keys_get_some in H; assumption.
Qed.

Lemma sanitize_fuel_stable (n m : nat) (x : json) :
  json_depth x <= n -> json_depth x <= m ->
  sanitize_fuel n x = sanitize_fuel m x.
Proof.
  revert m x. induction n as [|n IH]; intros m x Hn Hm.
  - destruct x; simpl in Hn; try lia; destruct m; reflexivity.
  - destruct m as [|m].
    + destruct x; simpl in Hm; try lia; reflexivity.
    + destruct x as [| | | |l|o];
        [reflexivity|reflexivity|reflexivity|reflexivity|reflexivity|].
      cbn [sanitize_fuel sanitize_body]. apply (f_equal JObj).
      apply (sanitize_children_ext _ _ _ (Nat.min n m)).
      * intros v Hv. apply sanitize_node_get_some in Hv; [|reflexivity..].
        apply depth_get in Hv. lia.
      * intros v Hv. apply sanitize_node_get_some in Hv; [|reflexivity..].
        apply depth_get in Hv. lia.
      * intros v Hv. apply sanitize_node_get_some in Hv; [|reflexivity..].
        apply depth_get in Hv. lia.
      * intros v Hv. apply IH; lia.
Qed.

(** [sanitizeSchema] satisfies the equation of the source function: the
    fuel never runs out. *)
Lemma sanitizeSchema_unfold (schema : json) :
  sanitizeSchema schema = sanitize_body sanitizeSchema schema.
Proof.
  unfold sanitizeSchema.
  destruct schema as [| | | |l|o];
    [reflexivity|reflexivity|reflexivity|reflexivity|reflexivity|].
  change (json_depth (JObj o))
    with (S (fold_right (fun kv n => Nat.max (json_depth (snd kv)) n) 0 o)).
  set (d := fold_right (fun kv n => Nat.max (json_depth (snd kv)) n) 0 o).
  assert (Hd : json_depth (JObj o) = S d) by reflexivity.
  cbn [sanitize_fuel sanitize_body]. apply (f_equal JObj).
  apply (sanitize_children_ext _ _ _ d).
  - intros v Hv. apply sanitize_node_get_some in Hv; [|reflexivity..].
    apply depth_get in Hv. lia.
  - intros v Hv. apply sanitize_node_get_some in Hv; [|reflexivity..].
    apply depth_get in Hv. lia.
  - intros v Hv. apply sanitize_node_get_some in Hv; [|reflexivity..].
    apply depth_get in Hv. lia.
  - intros v Hv. apply sanitize_fuel_stable; lia.
Qed.

Lemma sanitizeSchema_object (o : object) :
  sanitizeSchema (JObj o)
  = JObj (sanitize_children sanitizeSchema (sanitize_node o)).
Proof. now rewrite sanitizeSchema_unfold. Qed.

(* ================================================================== *)
(** * The two versions of the sanitizer *)
(* ================================================================== *)

Lemma sanitize_children_pointwise (rec1 rec2 : json -> json) (clean : object) :
  (forall v, rec1 v = rec2 v) ->
  sanitize_children rec1 clean = sanitize_children rec2 clean.
Proof.
  intros H. apply (sanitize_children_ext _ _ _ (json_depth (JObj clean)));
    try (intros v Hv; apply depth_get in Hv; lia).
  intros v _. apply H.
Qed.

Lemma strip_format_drop_format (c : object) :
  GeminiProxy.strip_format c = drop_format c.
Proof.
  unfold GeminiProxy.strip_format, drop_format.
  destruct (obj_get "format" c) as [[| | |f| |]|]; try reflexivity.
  cbn [truthy_opt str_includes existsb]. now rewrite orb_false_r.
Qed.

Lemma scalar_type_collapse_type (c : object) :
  GeminiProxy.scalar_type c = collapse_type c.
Proof.
  unfold GeminiProxy.scalar_type, collapse_type.
  destruct (obj_get "type" c) as [[| | | |ts|]|]; reflexivity.
Qed.

Lemma strip_bounds_drop_numeric (c : object) :
  GeminiProxy.strip_bounds c = drop_numeric c.
Proof.
  unfold GeminiProxy.strip_bounds, drop_numeric, non_numeric_type.
  destruct (obj_get "type" c) as [t|]; reflexivity.
Qed.

Lemma clean_node_sanitize_node (o : object) :
  GeminiProxy.clean_node o = sanitize_node o.
Proof.
  unfold GeminiProxy.clean_node, sanitize_node.
  now rewrite strip_bounds_drop_numeric, scalar_type_collapse_type,
    strip_format_drop_format.
Qed.

Lemma clean_children_sanitize_children (rec : json -> json) (clean : object) :
  GeminiProxy.clean_children rec clean = sanitize_children rec clean.
Proof.
  unfold GeminiProxy.clean_children, sanitize_children, sanitize_additional,
    sanitize_items, sanitize_properties, rebuild_props.
  destruct (obj_get "properties" clean) as [[| | | |l|ps]|]; reflexivity.
Qed.

Lemma sanitize_fuel_agree (fuel : nat) (schema : json) :
  GeminiProxy.sanitize_fuel fuel schema = sanitize_fuel fuel schema.
Proof.
  revert schema. induction fuel as [|fuel IH]; intros schema; [reflexivity|].
  destruct schema as [| | | |l|o];
    [reflexivity|reflexivity|reflexivity|reflexivity|reflexivity|].
  cbn [GeminiProxy.sanitize_fuel sanitize_fuel sanitize_body].
  rewrite clean_children_sanitize_children, clean_node_sanitize_node.
  apply (f_equal JObj). now apply sanitize_children_pointwise.
Qed.

(** C10.  The schema sanitizer of the earlier single-user proxy
    ([src/gemini-proxy.js]) and the one of the per-conversation proxy
    ([src/unnamed/part_000]) return the same value on every JSON value. *)
Theorem sanitizers_agree (x : json) :
  GeminiProxy.sanitizeSchema x = sanitizeSchema x.
Proof.
  unfold GeminiProxy.sanitizeSchema, sanitizeSchema. apply sanitize_fuel_agree.
Qed.

(* ================================================================== *)
(** * The sanitizer: which keys each step leaves alone *)
(* ================================================================== *)

Lemma drop_format_get_other (k : string) (o : object) :
  String.eqb "format" k = false -> obj_get k (drop_format o) = obj_get k o.
Proof.
  intros H. unfold drop_format. destruct (obj_get "format" o) as [f|]; [|reflexivity].
  destruct (truthy f && negb (str_includes ["enum"; "date-time"] f)); [|reflexivity].
  now apply assoc_get_delete_other.
Qed.

Lemma collapse_type_get_other (k : string) (o : object) :
  String.eqb "type" k = false -> String.eqb "nullable" k = false ->
  obj_get k (collapse_type o) = obj_get k o.
Proof.
  intros Ht Hn. unfold collapse_type.
  destruct (obj_get "type" o) as [[| | | |ts|]|]; try reflexivity.
  destruct (find (fun t => negb (is_null_name t)) ts) as [t|].
  - destruct (truthy t); [destruct (existsb is_null_name ts)|];
      now rewrite ?assoc_get_set_other by assumption.
  - now rewrite assoc_get_set_other.
Qed.

Lemma drop_closed_get_other (k : string) (o : object) :
  String.eqb "additionalProperties" k = false ->
  obj_get k (drop_closed o) = obj_get k o.
Proof.
  intros H. unfold drop_closed.
  destruct (obj_get "additionalProperties" o) as [[|[|]| | | |]|]; try reflexivity.
  now apply assoc_get_delete_other.
Qed.

Lemma drop_empty_required_get_other (k : string) (o : object) :
  String.eqb "required" k = false ->
  obj_get k (drop_empty_required o) = obj_get k o.
Proof.
  intros H. unfold drop_empty_required.
  destruct (obj_get "required" o) as [[| | | |[|]|]|]; try reflexivity.
  now apply assoc_get_delete_other.
Qed.

Lemma drop_numeric_get_other (k : string) (o : object) :
  forallb (fun k' => negb (String.eqb k' k)) numeric_keys = true ->
  obj_get k (drop_numeric o) = obj_get k o.
Proof.
  intros H. unfold drop_numeric. destruct (non_numeric_type o); [|reflexivity].
  now apply delete_keys_get_other.
Qed.

Lemma sanitize_properties_get_other (rec : json -> json) (k : string) (o : object) :
  String.eqb "properties" k = false ->
  obj_get k (sanitize_properties rec o) = obj_get k o.
Proof.
  intros H. unfold sanitize_properties.
  destruct (obj_get "properties" o) as [[| | | |l|ps]|]; try reflexivity;
    now apply assoc_get_set_other.
Qed.

Lemma sanitize_items_get_other (rec : json -> json) (k : string) (o : object) :
  String.eqb "items" k = false ->
  obj_get k (sanitize_items rec o) = obj_get k o.
Proof.
  intros H. unfold sanitize_items.
  destruct (obj_get "items" o) as [it|]; [|reflexivity].
  destruct (truthy it); [|reflexivity]. now apply assoc_get_set_other.
Qed.

Lemma sanitize_additional_get_other (rec : json -> json) (k : string) (o : object) :
  String.eqb "additionalProperties" k = false ->
  obj_get k (sanitize_additional rec o) = obj_get k o.
Proof.
  intros H. unfold sanitize_additional.
  destruct (obj_get "additionalProperties" o) as [ap|]; [|reflexivity].
  destruct (truthy ap && typeof_object ap); [|reflexivity].
  now apply assoc_get_set_other.
Qed.

(** Reads of a literal key through the steps that do not write it. *)
Ltac frame :=
  repeat first
    [ rewrite sanitize_additional_get_other by reflexivity
    | rewrite sanitize_items_get_other by reflexivity
    | rewrite sanitize_properties_get_other by reflexivity
    | rewrite drop_numeric_get_other by reflexivity
    | rewrite drop_empty_required_get_other by reflexivity
    | rewrite drop_closed_get_other by reflexivity
    | rewrite collapse_type_get_other by reflexivity
    | rewrite drop_format_get_other by reflexivity
    | rewrite delete_keys_get_other by reflexivity
    | rewrite assoc_get_set_other by reflexivity
    | rewrite assoc_get_delete_other by reflexivity ].

Lemma sanitize_children_get_other (rec : json -> json) (k : string) (o : object) :
  String.eqb "properties" k = false -> String.eqb "items" k = false ->
  String.eqb "additionalProperties" k = false ->
  obj_get k (sanitize_children rec o) = obj_get k o.
Proof.
  intros Hp Hi Ha. unfold sanitize_children.
  now rewrite sanitize_additional_get_other, sanitize_items_get_other,
    sanitize_properties_get_other.
Qed.

(** The [type] the later steps see is the one [collapse_type] leaves. *)
Lemma sanitized_type (rec : json -> json) (o : object) :
  obj_get "type" (sanitize_children rec (sanitize_node o))
  = obj_get "type" (collapse_type (drop_format (delete_keys unsupported_keys o))).
Proof. unfold sanitize_children, sanitize_node. now frame. Qed.

(* ================================================================== *)
(** * C8: the numeric constraints *)
(* ================================================================== *)

(** A node without a type keeps its [minimum]. *)
Lemma numeric_constraints_counterexample :
  ~ numeric_constraints_claim [("minimum", JNum 1)].
Proof.
  intros H. destruct (H [("minimum", JNum 1)] eq_refl) as [H1|H1].
  - discriminate H1.
  - inversion H1 as [|? ? Hmin _]. discriminate Hmin.
Qed.

(** C8, amended.  At every object node the sanitizer removes [minimum],
    [maximum] and [multipleOf] when the type left after the collapse is
    truthy and is neither ["number"] nor ["integer"]; in every other case,
    a node without a type included, the three keys keep the values they
    had. *)
Theorem numeric_constraints_dropped (o : object) :
  exists r, sanitizeSchema (JObj o) = JObj r /\
    Forall (fun k => obj_get k r
                     = if non_numeric_type r then None else obj_get k o)
           numeric_keys.
Proof.
  eexists. split; [apply sanitizeSchema_object|].
  set (r := sanitize_children sanitizeSchema (sanitize_node o)).
  set (c := drop_empty_required
              (drop_closed
                 (collapse_type (drop_format (delete_keys unsupported_keys o))))).
  assert (Hn : non_numeric_type r = non_numeric_type c).
  { unfold non_numeric_type, r, c, sanitize_children, sanitize_node. now frame. }
  rewrite Hn.
  assert (Hk : forall k, In k numeric_keys ->
             obj_get k r = if non_numeric_type c then None else obj_get k c).
  { intros k Hin. unfold r, sanitize_children, sanitize_node. fold c.
    assert (E : obj_get k (sanitize_additional sanitizeSchema
                  (sanitize_items sanitizeSchema
                     (sanitize_properties sanitizeSchema (drop_numeric c))))
                = obj_get k (drop_numeric c)).
    { simpl in Hin. destruct Hin as [<-|[<-|[<-|[]]]]; now frame. }
    rewrite E. unfold drop_numeric. destruct (non_numeric_type c); [|reflexivity].
    now apply delete_keys_get_deleted. }
  repeat constructor.
  - rewrite Hk by (simpl; tauto). destruct (non_numeric_type c); [reflexivity|].
    unfold c. now frame.
  - rewrite Hk by (simpl; tauto). destruct (non_numeric_type c); [reflexivity|].
    unfold c. now frame.
  - rewrite Hk by (simpl; tauto). destruct (non_numeric_type c); [reflexivity|].
    unfold c. now frame.
Qed.

(* ================================================================== *)
(** * C7: a [type] that is an array of strings *)
(* ================================================================== *)

Lemma find_non_null_strings (ts : list string) :
  find (fun t => negb (is_null_name t)) (map JStr ts)
  = option_map JStr (first_non_null ts).
Proof.
  unfold first_non_null. induction ts as [|t ts IH]; simpl; [reflexivity|].
  destruct (String.eqb t "null"); simpl; [assumption|reflexivity].
Qed.

Lemma has_null_strings (ts : list string) :
  existsb is_null_name (map JStr ts) = has_null ts.
Proof.
  unfold has_null. induction ts as [|t ts IH]; simpl; [reflexivity|].
  now rewrite IH.
Qed.

(** [{type: ["null"]}] contains ["null"] and comes out without
    [nullable]; [{type: ["", "null"]}] comes out as [{type: "string"}],
    not with its first entry other than ["null"] as the type. *)
Lemma type_collapse_counterexample :
  ~ type_collapse_claim [("type", JArr [JStr "null"])] ["null"]
  /\ ~ type_collapse_claim [("type", JArr [JStr ""; JStr "null"])] [""; "null"].
Proof.
  split; intros H.
  - destruct (H eq_refl [("type", JStr "string")] eq_refl) as [H1 _].
    specialize (H1 eq_refl). discriminate H1.
  - destruct (H eq_refl [("type", JStr "string")] eq_refl) as [_ H2].
    discriminate H2.
Qed.

(** C7, amended.  At an object node whose [type] is an array of strings:
    when the first entry other than ["null"] exists and is not the empty
    string it becomes the type, and [nullable] is set to [true] if the
    array contains ["null"] (and is left as it was otherwise); when there
    is no such entry, or it is the empty string, the type is ["string"] and
    [nullable] is left as it was.  In particular
    [{type: ["string", "null"]}] becomes [{type: "string", nullable: true}]
    and [{type: ["null"]}] becomes [{type: "string"}]. *)
Theorem type_array_collapsed :
  (forall (o : object) (ts : list string),
      obj_get "type" o = Some (JArr (map JStr ts)) ->
      exists r, sanitizeSchema (JObj o) = JObj r /\
        match first_non_null ts with
        | Some t =>
            if String.eqb t ""
            then obj_get "type" r = Some (JStr "string")
                 /\ obj_get "nullable" r = obj_get "nullable" o
            else obj_get "type" r = Some (JStr t)
                 /\ obj_get "nullable" r
                    = if has_null ts then Some (JBool true)
                      else obj_get "nullable" o
        | None =>
            obj_get "type" r = Some (JStr "string")
            /\ obj_get "nullable" r = obj_get "nullable" o
        end)
  /\ sanitizeSchema (JObj [("type", JArr [JStr "string"; JStr "null"])])
     = JObj [("type", JStr "string"); ("nullable", JBool true)]
  /\ sanitizeSchema (JObj [("type", JArr [JStr "null"])])
     = JObj [("type", JStr "string")].
Proof.
  split; [|split; reflexivity].
  intros o ts Ht. eexists. split; [apply sanitizeSchema_object|].
  set (c := drop_format (delete_keys unsupported_keys o)).
  assert (Hc : obj_get "type" c = Some (JArr (map JStr ts))).
  { unfold c. now frame. }
  assert (Hn : obj_get "nullable" c = obj_get "nullable" o).
  { unfold c. now frame. }
  assert (E1 : obj_get "type" (sanitize_children sanitizeSchema (sanitize_node o))
               = obj_get "type" (collapse_type c)).
  { apply sanitized_type. }
  assert (E2 : obj_get "nullable" (sanitize_children sanitizeSchema (sanitize_node o))
               = obj_get "nullable" (collapse_type c)).
  { unfold sanitize_children, sanitize_node. fold c. now frame. }
  rewrite E1, E2. unfold collapse_type.
  rewrite Hc, find_non_null_strings, has_null_strings.
  destruct (first_non_null ts) as [t|]; cbn [option_map truthy].
  - destruct (String.eqb t ""); cbn [negb].
    + rewrite assoc_get_set_same. split; [reflexivity|]. now frame.
    + destruct (has_null ts).
      * rewrite assoc_get_set_same. split; [|reflexivity].
        rewrite assoc_get_set_other by reflexivity. apply assoc_get_set_same.
      * rewrite assoc_get_set_same. split; [reflexivity|]. now frame.
  - rewrite assoc_get_set_same. split; [reflexivity|]. now frame.
Qed.

Lemma type_array_collapsed_witness :
  exists r, sanitizeSchema (JObj nullable_integer) = JObj r
    /\ obj_get "type" r = Some (JStr "integer")
    /\ obj_get "nullable" r = Some (JBool true).
Proof.
  destruct type_array_collapsed as [H _].
  destruct (H nullable_integer ["integer"; "null"] eq_refl) as (r & Hr & Ht & Hn).
  exists r. split; [exact Hr|]. split; [exact Ht|exact Hn].
Defined.

(* ================================================================== *)
(** * C9: the error envelope *)
(* ================================================================== *)

(** [{"error":{"code":0,...}}]: the code that comes out is [null]. *)
Lemma error_translation_counterexample :
  ~ error_translation_claim (parse_known [gemini_error 0]) render
      (render (gemini_error 0)).
Proof.
  intros H.
  specialize (H (gemini_error 0)
                [("code", JNum 0); ("message", JStr "bad");
                 ("status", JStr "INVALID_ARGUMENT")]
                (JNum 0) (JStr "INVALID_ARGUMENT")
                eq_refl eq_refl eq_refl eq_refl).
  vm_compute in H. discriminate H.
Qed.

(** C9, amended.  A body that does not parse, that parses to [null] or to a
    value whose [error] is absent, falsy or not an object, is returned as
    it is.  A body that parses with an [error] object is replaced by the
    text of [{error: {message, type, code}}], where the message is the
    upstream message when that is truthy and ["Unknown error"] otherwise,
    the type is the upstream status when truthy and ["api_error"]
    otherwise, and the code is the upstream code when truthy (not 0) and
    [null] otherwise.  In particular the body
    [{error: {code: 400, message: "bad", status: "INVALID_ARGUMENT"}}]
    becomes [{error: {message: "bad", type: "INVALID_ARGUMENT",
    code: 400}}]. *)
Theorem error_translated (JSON_parse : string -> option json)
    (JSON_stringify : json -> string) (body : string) :
  (JSON_parse body = None ->
   convertGeminiErrorToOpenAI JSON_parse JSON_stringify body = body)
  /\ (forall data,
        JSON_parse body = Some data ->
        is_error_object (error_of data) = false ->
        convertGeminiErrorToOpenAI JSON_parse JSON_stringify body = body)
  /\ (forall data e,
        JSON_parse body = Some data ->
        error_of data = Some e ->
        is_error_object (Some e) = true ->
        convertGeminiErrorToOpenAI JSON_parse JSON_stringify body
        = JSON_stringify
            (JObj [("error",
                    JObj [("message",
                           or_default (js_prop "message" e) (JStr "Unknown error"));
                          ("type",
                           or_default (js_prop "status" e) (JStr "api_error"));
                          ("code", or_default (js_prop "code" e) JNull)])]))
  /\ (JSON_parse body = Some (gemini_error 400) ->
      convertGeminiErrorToOpenAI JSON_parse JSON_stringify body
      = JSON_stringify
          (JObj [("error", JObj [("message", JStr "bad");
                                 ("type", JStr "INVALID_ARGUMENT");
                                 ("code", JNum 400)])])).
Proof.
  unfold convertGeminiErrorToOpenAI, error_of, is_error_object.
  repeat split.
  - now intros ->.
  - intros data -> H. destruct data as [| | | | |o]; try reflexivity.
    cbn [js_opt_prop js_prop] in *.
    destruct (obj_get "error" o) as [e|]; [|reflexivity]. now rewrite H.
  - intros data e -> He H. destruct data as [| | | | |o]; try discriminate He.
    cbn [js_opt_prop js_prop] in *. now rewrite He, H.
  - now intros ->.
Qed.

Lemma error_translated_witness :
  convertGeminiErrorToOpenAI (parse_known [gemini_error 400]) render
    (render (gemini_error 400))
  = openai_error_text (JNum 400).
Proof.
  destruct (error_translated (parse_known [gemini_error 400]) render
              (render (gemini_error 400))) as (_ & _ & _ & H).
  exact (H eq_refl).
Defined.

(* ================================================================== *)
(** * C6: the streaming accumulator *)
(* ================================================================== *)

Lemma extends_refl (a : string) : extends a a.
Proof.
  exists "". induction a as [|c a IH]; simpl; [reflexivity|]. now rewrite <- IH.
Qed.

Lemma string_app_assoc (a b c : string) :
  ((a ++ b) ++ c = a ++ (b ++ c))%string.
Proof. induction a as [|x a IH]; simpl; [reflexivity|]. now rewrite IH. Qed.

Lemma extends_trans (a b c : string) : extends a b -> extends b c -> extends a c.
Proof.
  intros [m1 ->] [m2 ->]. exists (m1 ++ m2)%string. apply string_app_assoc.
Qed.

Lemma slot_kept_refl (s : slot) : slot_kept s s.
Proof.
  split; [apply extends_refl|]. split.
  - intros id H. exists id. auto.
  - intros ec H. exists ec. auto.
Qed.

Lemma slot_kept_trans (s1 s2 s3 : slot) :
  slot_kept s1 s2 -> slot_kept s2 s3 -> slot_kept s1 s3.
Proof.
  intros (A1 & I1 & E1) (A2 & I2 & E2). split; [eapply extends_trans; eauto|].
  split.
  - intros id H. destruct (I1 id H) as (id2 & H2 & D2).
    destruct (I2 id2 H2) as (id3 & H3 & D3). exists id3. split; [assumption|].
    destruct D3 as [->|D3]; [assumption|now right].
  - intros ec H. destruct (E1 ec H) as (ec2 & H2 & D2).
    destruct (E2 ec2 H2) as (ec3 & H3 & D3). exists ec3. split; [assumption|].
    destruct D3 as [->|D3]; [assumption|now right].
Qed.

(** One event against its slot. *)
Lemma merge_delta_kept (s : slot) (d : tool_call_delta) :
  slot_kept s (merge_delta s d).
Proof.
  unfold merge_delta.
  set (s1 := if nonempty (tcd_id d) then _ else s).
  assert (K1 : slot_kept s s1).
  { unfold s1. destruct (nonempty (tcd_id d)) eqn:E; [|apply slot_kept_refl].
    split; [apply extends_refl|]. split.
    - intros id _. cbn [slot_id]. unfold nonempty in E.
      destruct (tcd_id d) as [id'|]; [|discriminate].
      exists id'. split; [reflexivity|]. right.
      apply String.eqb_neq. now apply negb_true_iff.
    - intros ec H. exists ec. auto. }
  set (s2 := match tcd_function d with Some fn => _ | None => s1 end).
  assert (K2 : slot_kept s1 s2).
  { unfold s2. destruct (tcd_function d) as [fn|]; [|apply slot_kept_refl].
    set (s1' := if nonempty (fn_name fn) then _ else s1).
    assert (K : slot_kept s1 s1').
    { unfold s1'. destruct (nonempty (fn_name fn)); [|apply slot_kept_refl].
      split; [apply extends_refl|]. split.
      - intros id H. exists id. auto.
      - intros ec H. exists ec. auto. }
    apply (slot_kept_trans _ _ _ K).
    destruct (fn_arguments fn) as [fragment|]; [|apply slot_kept_refl].
    destruct (negb (String.eqb fragment "")); [|apply slot_kept_refl].
    split; [now exists fragment|]. split.
    - intros id H. exists id. auto.
    - intros ec H. exists ec. auto. }
  apply (slot_kept_trans _ _ _ K1), (slot_kept_trans _ _ _ K2).
  destruct (truthy_opt (tcd_extra_content d)) eqn:E; [|apply slot_kept_refl].
  split; [apply extends_refl|]. split.
  - intros id H. exists id. auto.
  - intros ec _. cbn [slot_extra_content]. unfold truthy_opt in E.
    destruct (tcd_extra_content d) as [ec'|]; [|discriminate].
    exists ec'. auto.
Qed.

(** Every event with an arguments fragment appends it. *)
Lemma merge_delta_appends (s : slot) (d : tool_call_delta)
    (fn : function_delta) (fragment : string) :
  tcd_function d = Some fn -> fn_arguments fn = Some fragment ->
  slot_arguments (merge_delta s d) = (slot_arguments s ++ fragment)%string.
Proof.
  intros Hf Ha. unfold merge_delta. rewrite Hf, Ha.
  assert (E : forall a : string, (a ++ "")%string = a).
  { intros a. induction a as [|c a IH]; simpl; [reflexivity|]. now rewrite IH. }
  destruct (truthy_opt (tcd_extra_content d)), (String.eqb fragment "") eqn:Ef,
    (nonempty (fn_name fn)), (nonempty (tcd_id d)); cbn [negb slot_arguments];
    try reflexivity; apply String.eqb_eq in Ef; subst fragment; now rewrite E.
Qed.

Lemma accumulate_tool_call_slots (conversationId : string) (now : Z)
    (st : accumulator * conversations) (d : tool_call_delta) :
  fst (accumulate_tool_call conversationId now st d)
  = match tcd_index d with
    | Some index =>
        assoc_set (number_key index)
          (merge_delta (current_slot (fst st) index) d) (fst st)
    | None => fst st
    end.
Proof.
  destruct st as [acc store]. unfold accumulate_tool_call, current_slot.
  destruct (tcd_index d) as [index|]; [|reflexivity]. cbn [fst].
  destruct (slot_token _) as [sig|]; [|reflexivity].
  destruct (nonempty _ && truthy sig); [|reflexivity].
  destruct (slot_id _); reflexivity.
Qed.

Lemma accumulate_tool_call_kept (conversationId : string) (now : Z)
    (st : accumulator * conversations) (d : tool_call_delta)
    (key : string) (s : slot) :
  assoc_get key (fst st) = Some s ->
  exists s', assoc_get key (fst (accumulate_tool_call conversationId now st d))
             = Some s' /\ slot_kept s s'.
Proof.
  intros H. rewrite accumulate_tool_call_slots.
  destruct (tcd_index d) as [index|]; [|exists s; split; [assumption|apply slot_kept_refl]].
  destruct (String.eqb (number_key index) key) eqn:E.
  - apply String.eqb_eq in E. subst key. rewrite assoc_get_set_same.
    eexists. split; [reflexivity|]. unfold current_slot. rewrite H.
    apply merge_delta_kept.
  - rewrite assoc_get_set_other by assumption.
    exists s. split; [assumption|apply slot_kept_refl].
Qed.

(** A fold of steps that keep the slots keeps them. *)
Lemma fold_kept {A : Type}
    (step : accumulator * conversations -> A -> accumulator * conversations)
    (l : list A) :
  (forall st x key s, assoc_get key (fst st) = Some s ->
     exists s', assoc_get key (fst (step st x)) = Some s' /\ slot_kept s s') ->
  forall st key s, assoc_get key (fst st) = Some s ->
    exists s', assoc_get key (fst (fold_left step l st)) = Some s'
               /\ slot_kept s s'.
Proof.
  intros Hstep. induction l as [|x l IH]; intros st key s H; simpl.
  - exists s. split; [assumption|apply slot_kept_refl].
  - destruct (Hstep st x key s H) as (s1 & H1 & K1).
    destruct (IH (step st x) key s1 H1) as (s2 & H2 & K2).
    exists s2. split; [assumption|]. eapply slot_kept_trans; eauto.
Qed.

Lemma extract_kept (conversationId : string) (now : Z) (chunks : list chunk)
    (st : accumulator * conversations) (key : string) (s : slot) :
  assoc_get key (fst st) = Some s ->
  exists s',
    assoc_get key
      (fst (extractSignaturesFromStreamChunks conversationId now chunks st))
    = Some s' /\ slot_kept s s'.
Proof.
  unfold extractSignaturesFromStreamChunks. apply fold_kept.
  clear. intros st c. unfold accumulate_chunk.
  destruct (choices c) as [cs|];
    [|intros key s H; exists s; split; [assumption|apply slot_kept_refl]].
  apply fold_kept. clear. intros st c. unfold accumulate_choice.
  destruct (delta_tool_calls c) as [tcs|];
    [|intros key s H; exists s; split; [assumption|apply slot_kept_refl]].
  apply fold_kept. clear. intros st d key s.
  apply accumulate_tool_call_kept.
Qed.

(** After [token_event] the slot of call 0 holds the token ["tok1"];
    [tokenless_event] replaces its [extra_content], and the token is
    gone. *)
Lemma accumulator_counterexample :
  ~ accumulator_claim "conv" 1 [one_event tokenless_event] after_token_event.
Proof.
  intros H.
  destruct (H "0" {| slot_id := Some "c1"; slot_name := None;
                     slot_arguments := "";
                     slot_extra_content := tcd_extra_content token_event |}
              eq_refl) as (s' & Hs' & _ & Ht).
  vm_compute in Hs'. injection Hs' as <-.
  destruct (Ht (JStr "tok1") eq_refl) as (t' & Ht' & _).
  discriminate Ht'.
Qed.

(** C6, amended.  Over the events of one response, for every slot of the
    accumulator: the arguments string only grows, every event that carries
    an arguments fragment appending it; the [id], once set, stays set, to
    its old value or to a non-empty new one; and the [extra_content] that
    carries the token, once set, stays set, to its old value or to a truthy
    new one.  (The token itself is not kept: a later [extra_content]
    without a token replaces the one that had it.) *)
Theorem accumulator_slots_kept (conversationId : string) (now : Z) :
  (forall (chunks : list chunk) (st : accumulator * conversations)
          (key : string) (s : slot),
      assoc_get key (fst st) = Some s ->
      exists s',
        assoc_get key
          (fst (extractSignaturesFromStreamChunks conversationId now chunks st))
        = Some s' /\ slot_kept s s')
  /\ (forall (st : accumulator * conversations) (d : tool_call_delta)
             (index : Z) (fn : function_delta) (fragment : string),
        tcd_index d = Some index ->
        tcd_function d = Some fn ->
        fn_arguments fn = Some fragment ->
        exists s',
          assoc_get (number_key index)
            (fst (accumulate_tool_call conversationId now st d)) = Some s'
          /\ slot_arguments s'
             = (slot_arguments (current_slot (fst st) index) ++ fragment)%string).
Proof.
  split.
  - intros chunks st key s. apply extract_kept.
  - intros st d index fn fragment Hi Hf Ha.
    rewrite accumulate_tool_call_slots, Hi, assoc_get_set_same.
    eexists. split; [reflexivity|]. now apply merge_delta_appends with fn.
Qed.

Lemma accumulator_slots_kept_witness :
  exists s',
    assoc_get "0"
      (fst (extractSignaturesFromStreamChunks "conv" 1
              [one_event tokenless_event] after_token_event)) = Some s'
    /\ slot_kept {| slot_id := Some "c1"; slot_name := None;
                    slot_arguments := "";
                    slot_extra_content := tcd_extra_content token_event |} s'.
Proof.
  destruct (accumulator_slots_kept "conv" 1) as [H _].
  apply (H [one_event tokenless_event] after_token_event "0").
  reflexivity.
Defined.

(* ================================================================== *)
(** * C1: token injection *)
(* ================================================================== *)

Lemma map_indexed_normal {A B : Type} (f : nat -> A -> completion B)
    (l : list A) (idx : nat) :
  (forall j x, nth_error l j = Some x -> exists y, f (idx + j) x = Normal y) ->
  exists l', map_indexed f idx l = Normal l'
    /\ List.length l' = List.length l
    /\ forall j x, nth_error l j = Some x ->
         exists y, f (idx + j) x = Normal y /\ nth_error l' j = Some y.
Proof.
  revert idx. induction l as [|a l IH]; intros idx H.
  - exists []. repeat split; intros j x Hj; now destruct j.
  - destruct (H 0 a eq_refl) as [y Hy]. rewrite Nat.add_0_r in Hy.
    destruct (IH (S idx)) as (l' & El & Hlen & Hnth).
    { intros j x Hj. destruct (H (S j) x Hj) as [z Hz].
      exists z. now replace (S idx + j) with (idx + S j) by lia. }
    exists (y :: l'). cbn [map_indexed bind]. rewrite Hy, El. cbn [bind].
    split; [reflexivity|]. split; [simpl; now rewrite Hlen|].
    intros [|j] x Hj.
    + injection Hj as <-. exists y. now rewrite Nat.add_0_r.
    + destruct (Hnth j x Hj) as (z & Hz & Hz'). exists z.
      now replace (idx + S j) with (S idx + j) by lia.
Qed.

Lemma signature_or_skip_stored (store : conversations) (conversationId : string)
    (toolCall : json) :
  signatures_truthy store = true ->
  signature_or_skip (lookup_signature (conversation_map store conversationId) toolCall)
  = token_for (conversation_map store conversationId) toolCall.
Proof.
  intros Hs. unfold signature_or_skip, token_for.
  destruct (lookup_signature _ toolCall) as [d|] eqn:E; [|reflexivity].
  assert (Ht : truthy (signature d) = true); [|now rewrite Ht].
  unfold lookup_signature in E.
  destruct (js_prop "id" toolCall) as [[| | |id| |]|]; try discriminate E.
  unfold conversation_map in E.
  destruct (assoc_get conversationId store) as [m|] eqn:Em; [|discriminate E].
  apply assoc_get_in in Em. apply assoc_get_in in E.
  unfold signatures_truthy in Hs. rewrite forallb_forall in Hs.
  specialize (Hs _ Em). cbn [snd] in Hs. rewrite forallb_forall in Hs.
  apply (Hs _ E).
Qed.

Lemma inject_tool_call_normal (signaturesMap : signatures_map) (idx : nat)
    (toolCall : json) :
  is_null toolCall = false ->
  inject_tool_call signaturesMap idx toolCall
  = Normal (if Nat.eqb idx 0
            then with_token
                   (signature_or_skip (lookup_signature signaturesMap toolCall))
                   toolCall
            else toolCall).
Proof.
  intros H. unfold inject_tool_call, with_token, thought_signature_content.
  destruct toolCall; try discriminate H; now destruct (Nat.eqb idx 0).
Qed.

(** The tool-calls of one message. *)
Lemma inject_tool_calls (store : conversations) (conversationId : string)
    (tool_calls : list json) :
  signatures_truthy store = true ->
  forallb (fun tc => negb (is_null tc)) tool_calls = true ->
  exists toolCalls,
    map_indexed (inject_tool_call (conversation_map store conversationId)) 0
      tool_calls = Normal toolCalls
    /\ List.length toolCalls = List.length tool_calls
    /\ (forall first, nth_error tool_calls 0 = Some first ->
          nth_error toolCalls 0
          = Some (with_token
                    (token_for (conversation_map store conversationId) first)
                    first))
    /\ (forall j other, 0 < j -> nth_error tool_calls j = Some other ->
          nth_error toolCalls j = Some other).
Proof.
  intros Hs Hn. rewrite forallb_forall in Hn.
  assert (Hnn : forall j x, nth_error tool_calls j = Some x -> is_null x = false).
  { intros j x Hj. apply nth_error_In in Hj. apply Hn in Hj.
    now apply negb_true_iff. }
  destruct (map_indexed_normal
              (inject_tool_call (conversation_map store conversationId))
              tool_calls 0) as (toolCalls & E & Hlen & Hnth).
  { intros j x Hj. rewrite inject_tool_call_normal by eauto. eauto. }
  exists toolCalls. split; [assumption|]. split; [assumption|]. split.
  - intros first H0. destruct (Hnth 0 first H0) as (y & Hy & Hy').
    rewrite inject_tool_call_normal in Hy by eauto. cbn [Nat.add Nat.eqb] in Hy.
    injection Hy as <-. now rewrite <- signature_or_skip_stored.
  - intros j other Hj Hnj. destruct (Hnth j other Hnj) as (y & Hy & Hy').
    rewrite inject_tool_call_normal in Hy by eauto.
    destruct j as [|j]; [lia|]. cbn [Nat.add Nat.eqb] in Hy.
    now injection Hy as <-.
Qed.

(** On every other messages array the function throws: the exception is
    the [catch] of the server's (line 727), which forwards the body as it
    came. *)
Lemma map_indexed_throws {A B : Type} (f : nat -> A -> completion B)
    (l : list A) (idx : nat) :
  (exists j x w, nth_error l j = Some x /\ f (idx + j) x = TypeError w) ->
  exists w, map_indexed f idx l = TypeError w.
Proof.
  revert idx. induction l as [|a l IH]; intros idx (j & x & w & Hj & Hf).
  - now destruct j.
  - cbn [map_indexed]. destruct (f idx a) as [y|w'] eqn:Ea; [|now exists w'].
    destruct j as [|j].
    + injection Hj as <-. rewrite Nat.add_0_r in Hf. congruence.
    + destruct (IH (S idx)) as [w'' Hw''].
      { exists j, x, w. split; [assumption|].
        now replace (S idx + j) with (idx + S j) by lia. }
      cbn [bind]. rewrite Hw''. now exists w''.
Qed.

Lemma some_null (l : list json) :
  forallb (fun tc => negb (is_null tc)) l = false ->
  exists j, nth_error l j = Some JNull.
Proof.
  induction l as [|x l IH]; [discriminate|]. cbn [forallb].
  destruct x; cbn [is_null negb andb]; try (intros H; destruct (IH H) as [j Hj];
    now exists (S j)).
  intros _. now exists 0.
Qed.

Lemma inject_message_throws (signaturesMap : signatures_map) (idx : nat)
    (msg : json) :
  injectable [msg] = false ->
  exists w, inject_message signaturesMap idx msg = TypeError w.
Proof.
  unfold injectable. cbn [forallb]. rewrite andb_true_r. intros H.
  destruct msg as [| | | | |o]; try (eexists; reflexivity);
    cbn [is_null negb andb] in H; unfold carries_tool_calls in H;
    cbn [is_assistant js_prop andb] in H; try discriminate H.
  unfold inject_message. cbn [js_prop] in *.
  destruct (is_assistant (JObj o)); [|discriminate H].
  destruct (truthy_opt (obj_get "tool_calls" o)); [|discriminate H].
  cbn [negb orb andb] in *.
  destruct (obj_get "tool_calls" o) as [[| | | |tcs|]|];
    try (eexists; reflexivity).
  destruct (some_null tcs H) as [j Hj].
  destruct (map_indexed_throws (inject_tool_call signaturesMap) tcs 0)
    as [w Hw]; [|rewrite Hw; now exists w].
  exists j, JNull. eexists. split; [exact Hj|reflexivity].
Qed.

Lemma injection_throws (store : conversations) (requestData : json)
    (conversationId : string) (msgs : list json) :
  js_prop "messages" requestData = Some (JArr msgs) ->
  injectable msgs = false ->
  exists w, injectThoughtSignatures store requestData conversationId = TypeError w.
Proof.
  intros Hm Hinj.
  assert (Ereq : truthy_opt (js_opt_prop "messages" (Some requestData)) = true
                 /\ js_opt_prop "messages" (Some requestData) = Some (JArr msgs)).
  { destruct requestData; try discriminate Hm. cbn [js_opt_prop].
    rewrite Hm. now split. }
  destruct Ereq as [Et Eo].
  unfold injectThoughtSignatures. rewrite Et, Eo. cbn [negb].
  fold (conversation_map store conversationId).
  destruct (map_indexed_throws
              (inject_message (conversation_map store conversationId)) msgs 0)
    as [w Hw]; [|rewrite Hw; now exists w].
  clear -Hinj. unfold injectable in Hinj.
  induction msgs as [|msg msgs IH]; [discriminate Hinj|].
  cbn [forallb] in Hinj. apply andb_false_iff in Hinj.
  destruct Hinj as [Hmsg|Hrest].
  - destruct (inject_message_throws (conversation_map store conversationId) 0 msg)
      as [w Hw].
    { unfold injectable. cbn [forallb]. now rewrite Hmsg. }
    exists 0, msg, w. now split.
  - destruct (IH Hrest) as (j & x & w & Hj & Hf).
    exists (S j), x, w. split; [exact Hj|].
    unfold inject_message in *. exact Hf.
Qed.

(** What the function returns where it does not throw, the token being
    the one its lookup yields. *)
Lemma injection_returns (store : conversations)
    (requestData : json) (conversationId : string) (msgs : list json) :
  js_prop "messages" requestData = Some (JArr msgs) ->
  injectable msgs = true ->
  signatures_truthy store = true ->
  exists messages,
    injectThoughtSignatures store requestData conversationId
    = Normal (JObj (obj_set "messages" (JArr messages) (spread requestData)))
    /\ List.length messages = List.length msgs
    /\ forall i msg tool_calls,
         nth_error msgs i = Some msg ->
         is_assistant msg = true ->
         js_prop "tool_calls" msg = Some (JArr tool_calls) ->
         exists toolCalls,
           nth_error messages i
           = Some (JObj (obj_set "tool_calls" (JArr toolCalls) (spread msg)))
           /\ List.length toolCalls = List.length tool_calls
           /\ (forall first, nth_error tool_calls 0 = Some first ->
                 nth_error toolCalls 0
                 = Some (with_token
                           (token_for (conversation_map store conversationId) first)
                           first))
           /\ (forall j other, 0 < j -> nth_error tool_calls j = Some other ->
                 nth_error toolCalls j = Some other).
Proof.
  intros Hm Hinj Hs.
  unfold injectable in Hinj. rewrite forallb_forall in Hinj.
  assert (Hmsg : forall j msg, nth_error msgs j = Some msg ->
            exists y, inject_message (conversation_map store conversationId) j msg
                      = Normal y
              /\ forall tool_calls,
                   is_assistant msg = true ->
                   js_prop "tool_calls" msg = Some (JArr tool_calls) ->
                   exists toolCalls,
                     y = JObj (obj_set "tool_calls" (JArr toolCalls) (spread msg))
                     /\ List.length toolCalls = List.length tool_calls
                     /\ (forall first, nth_error tool_calls 0 = Some first ->
                           nth_error toolCalls 0
                           = Some (with_token
                                     (token_for (conversation_map store conversationId)
                                        first) first))
                     /\ (forall j other, 0 < j ->
                           nth_error tool_calls j = Some other ->
                           nth_error toolCalls j = Some other)).
  { intros j msg Hj. apply nth_error_In in Hj. apply Hinj in Hj.
    apply andb_true_iff in Hj. destruct Hj as [Hnull Hcalls].
    apply negb_true_iff in Hnull. unfold carries_tool_calls in Hcalls.
    assert (Em : inject_message (conversation_map store conversationId) j msg
                 = if negb (is_assistant msg)
                      || negb (truthy_opt (js_prop "tool_calls" msg))
                   then Normal msg
                   else match js_prop "tool_calls" msg with
                        | Some (JArr tool_calls) =>
                            toolCalls <- map_indexed
                              (inject_tool_call (conversation_map store conversationId))
                              0 tool_calls ;;
                            Normal (JObj (obj_set "tool_calls" (JArr toolCalls)
                                            (spread msg)))
                        | _ => TypeError "msg.tool_calls.map is not a function"
                        end).
    { unfold inject_message. destruct msg; try discriminate Hnull; reflexivity. }
    rewrite Em. clear Em.
    destruct (is_assistant msg) eqn:Ea; cbn [negb orb andb] in *.
    - destruct (js_prop "tool_calls" msg) as [tc|] eqn:Etc; cbn [truthy_opt] in *.
      + destruct (truthy tc) eqn:Ett; cbn [negb] in *.
        * destruct tc as [| | | |tool_calls|]; try discriminate Hcalls.
          destruct (inject_tool_calls store conversationId tool_calls Hs Hcalls)
            as (toolCalls & E & Hlen & H0 & Hrest).
          rewrite E. cbn [bind]. eexists. split; [reflexivity|].
          intros tool_calls' _ [= <-]. exists toolCalls. auto.
        * exists msg. split; [reflexivity|]. intros tool_calls _ [= ->].
          discriminate Ett.
      + exists msg. split; [reflexivity|]. discriminate.
    - exists msg. split; [reflexivity|]. discriminate. }
  destruct (map_indexed_normal
              (inject_message (conversation_map store conversationId)) msgs 0)
    as (messages & E & Hlen & Hnth).
  { intros j x Hj. destruct (Hmsg j x Hj) as (y & Hy & _). eauto. }
  exists messages.
  assert (Ereq : truthy_opt (js_opt_prop "messages" (Some requestData)) = true
                 /\ js_opt_prop "messages" (Some requestData) = Some (JArr msgs)).
  { destruct requestData; try discriminate Hm. cbn [js_opt_prop].
    rewrite Hm. now split. }
  destruct Ereq as [Et Eo].
  split.
  - unfold injectThoughtSignatures. rewrite Et, Eo. cbn [negb].
    fold (conversation_map store conversationId). rewrite E. reflexivity.
  - split; [assumption|].
    intros i msg tool_calls Hi Ha Htc.
    destruct (Hnth i msg Hi) as (y & Hy & Hy').
    destruct (Hmsg i msg Hi) as (y' & Hy'' & Hspec).
    cbn [Nat.add] in Hy. rewrite Hy in Hy''. injection Hy'' as <-.
    destruct (Hspec tool_calls Ha Htc) as (toolCalls & -> & Hrest).
    exists toolCalls. auto.
Qed.

Lemma token_for_stored (store : conversations) (conversationId : string)
    (toolCall : json) :
  token_for (conversation_map store conversationId) toolCall
  = stored_token store conversationId toolCall.
Proof.
  unfold token_for, stored_token, lookup_signature, conversation_map,
    SKIP_VALIDATOR.
  destruct toolCall as [| | | | |o]; try reflexivity.
  cbn [js_prop].
  destruct (obj_get "id" o) as [[| | |id| |]|]; try reflexivity.
  now destruct (assoc_get conversationId store).
Qed.

(** C1.  The claim holds of the request bodies on whose
    messages the function does not throw (no message is [null], and the
    tool-calls of every assistant message that carries some are an array
    without [null]), the store holding a truthy token in every record:
    the function returns the body with a messages array of the same length
    in which every assistant message that carries tool-calls has its
    tool-calls replaced as follows: the tool-call at index 0 carries the
    token stored in the signature map of the conversation under its id, or
    the sentinel [skip_thought_signature_validator] when no record is
    stored; every other tool-call is returned unchanged.  On every other
    messages array the function throws, and rewrites nothing. *)
Theorem first_tool_call_injected (store : conversations)
    (requestData : json) (conversationId : string) (msgs : list json) :
  js_prop "messages" requestData = Some (JArr msgs) ->
  signatures_truthy store = true ->
  (injectable msgs = true ->
   exists messages, injected store requestData conversationId msgs messages)
  /\ (injectable msgs = false ->
      exists w,
        injectThoughtSignatures store requestData conversationId = TypeError w).
Proof.
  intros Hm Hs. split.
  - intros Hinj.
    destruct (injection_returns store requestData conversationId msgs Hm Hinj Hs)
      as (messages & E & Hlen & Hcalls).
    exists messages. split; [exact E|]. split; [exact Hlen|].
    intros i msg tool_calls Hi Ha Htc.
    destruct (Hcalls i msg tool_calls Hi Ha Htc)
      as (toolCalls & Hnth & Hl & Hfirst & Hrest).
    exists toolCalls. split; [exact Hnth|]. split; [exact Hl|].
    split; [|exact Hrest].
    intros first Hf. rewrite <- token_for_stored. now apply Hfirst.
  - now apply injection_throws.
Qed.

Lemma first_tool_call_injected_witness :
  (injectable [assistant_message] = true ->
   exists messages,
     injected store_with_A two_call_request "conv" [assistant_message] messages)
  /\ (injectable [assistant_message] = false ->
      exists w,
        injectThoughtSignatures store_with_A two_call_request "conv"
        = TypeError w).
Proof.
  apply (first_tool_call_injected store_with_A two_call_request "conv"
           [assistant_message]); reflexivity.
Defined.

(** The claim as it is worded fails on a conversation that holds [null]:
    the function throws at the read of [msg.role]. *)
Lemma first_tool_call_injected_counterexample :
  ~ injection_claim store_with_A null_message_request "conv".
Proof.
  intros H.
  destruct (H [assistant_message; JNull] eq_refl) as (messages & E & _).
  discriminate E.
Qed.

(** The example of the specification: of the two tool-calls [A] and [B],
    [A] leaves with the stored token and [B] as it came; without a record
    for [A], [A] leaves with the sentinel. *)
Example inject_two_calls :
  injectThoughtSignatures store_with_A two_call_request "conv"
  = Normal
      (JObj [("model", JStr "gemini");
             ("messages",
              JArr [JObj [("role", JStr "assistant");
                          ("tool_calls",
                           JArr [with_token (JStr "sigA") call_A; call_B])]])])
  /\ injectThoughtSignatures [] two_call_request "conv"
     = Normal
         (JObj [("model", JStr "gemini");
                ("messages",
                 JArr [JObj [("role", JStr "assistant");
                             ("tool_calls",
                              JArr [with_token (JStr SKIP_VALIDATOR) call_A;
                                    call_B])]])]).
Proof. split; reflexivity. Qed.

(* ================================================================== *)
(** * C3: the sweep *)
(* ================================================================== *)


Lemma filter_filter {A : Type} (f g : A -> bool) (l : list A) :
  filter f (filter g l) = filter (fun x => g x && f x) l.
Proof.
  induction l as [|x l IH]; simpl; [reflexivity|].
  destruct (g x); simpl; [destruct (f x)|]; now rewrite IH.
Qed.

Lemma perm_filter {A : Type} (f : A -> bool) (l l' : list A) :
  Permutation l l' -> Permutation (filter f l) (filter f l').
Proof.
  induction 1 as [|x l l' H IH|x y l|l l' l'' H1 IH1 H2 IH2]; simpl.
  - constructor.
  - destruct (f x); [now constructor|assumption].
  - destruct (f x), (f y); try reflexivity. constructor.
  - now transitivity (filter f l').
Qed.

Lemma filter_none {A : Type} (f : A -> bool) (l : list A) :
  (forall x, In x l -> f x = false) -> filter f l = [].
Proof.
  induction l as [|x l IH]; intros H; simpl; [reflexivity|].
  rewrite (H x) by now left. apply IH. intros y Hy. apply H. now right.
Qed.

Lemma nodup_app_disjoint {A : Type} (a b : list A) :
  NoDup (a ++ b) -> forall x, In x a -> In x b -> False.
Proof.
  induction a as [|y a IH]; simpl; [tauto|].
  intros Hnd x [<-|Hx] Hb; inversion Hnd as [|? ? Hnotin Hnd']; subst.
  - apply Hnotin, in_or_app. now right.
  - now apply (IH Hnd' x).
Qed.

(** Two entries of a map under one key are one entry. *)
Lemma unique_entry {V : Type} (l : list (string * V)) (a b : string * V) :
  NoDup (keys l) -> In a l -> In b l -> fst a = fst b -> a = b.
Proof.
  intros Hnd Ha Hb Hk. destruct a as [k v], b as [k' v']. simpl in Hk. subst k'.
  apply (assoc_get_unique _ _ _ Hnd) in Ha, Hb. congruence.
Qed.

(** Deleting the keys of [l] one after the other. *)
Lemma fold_delete_filter {V : Type} (l : list (string * V))
    (sel : string * V -> bool) (acc : list (string * V)) :
  fold_left (fun m e => if sel e then assoc_delete (fst e) m else m) l acc
  = filter (fun x => negb (existsb (fun e => sel e && String.eqb (fst x) (fst e)) l))
           acc.
Proof.
  revert acc. induction l as [|e l IH]; intros acc; simpl.
  - now rewrite filter_true.
  - rewrite IH. destruct (sel e); simpl.
    + rewrite assoc_delete_filter, filter_filter. apply filter_ext.
      intros x. now rewrite negb_orb.
    + reflexivity.
Qed.

(** Lines 67-71 leave the records that are not older than one hour. *)
Lemma delete_expired_within_ttl (now : Z) (m : signatures_map) :
  NoDup (keys m) ->
  delete_expired (now - 60 * 60 * 1000) m = within_ttl now m.
Proof.
  intros Hnd. unfold delete_expired, within_ttl.
  rewrite (fold_delete_filter m
             (fun e => (timestamp (snd e) <? now - 60 * 60 * 1000)%Z)).
  apply filter_ext_in. intros x Hx.
  destruct (now - 60 * 60 * 1000 <=? timestamp (snd x))%Z eqn:E.
  - apply negb_true_iff.
    destruct (existsb _ m) eqn:Ex; [|reflexivity].
    apply existsb_exists in Ex. destruct Ex as (e & He & Hc).
    apply andb_true_iff in Hc. destruct Hc as [Hold Hk].
    apply String.eqb_eq in Hk.
    assert (x = e) by (eapply unique_entry; eauto). subst e.
    apply Z.leb_le in E. apply Z.ltb_lt in Hold. lia.
  - apply negb_false_iff. apply existsb_exists. exists x. split; [assumption|].
    rewrite String.eqb_refl, andb_true_r. apply Z.leb_gt in E. now apply Z.ltb_lt.
Qed.

Lemma insert_by_timestamp_perm (e : string * signature_data)
    (l : list (string * signature_data)) :
  Permutation (insert_by_timestamp e l) (e :: l).
Proof.
  induction l as [|x l IH]; simpl; [reflexivity|].
  destruct (timestamp (snd e) <=? timestamp (snd x))%Z; [reflexivity|].
  rewrite IH. apply perm_swap.
Qed.

Lemma sort_by_timestamp_perm (l : list (string * signature_data)) :
  Permutation (sort_by_timestamp l) l.
Proof.
  induction l as [|x l IH]; simpl; [reflexivity|].
  rewrite insert_by_timestamp_perm. now constructor.
Qed.

Lemma insert_by_timestamp_sorted (e : string * signature_data)
    (l : list (string * signature_data)) :
  sorted l -> sorted (insert_by_timestamp e l).
Proof.
  induction l as [|x l IH]; simpl; [auto|]. intros [Hx Hl].
  destruct (timestamp (snd e) <=? timestamp (snd x))%Z eqn:E.
  - apply Z.leb_le in E. simpl. repeat split; try assumption.
    constructor; [exact E|].
    eapply Forall_impl; [|exact Hx]. unfold older. intros a Ha. lia.
  - apply Z.leb_gt in E. simpl. split; [|now apply IH].
    rewrite insert_by_timestamp_perm.
    constructor; [unfold older; lia|assumption].
Qed.

Lemma sort_by_timestamp_sorted (l : list (string * signature_data)) :
  sorted (sort_by_timestamp l).
Proof.
  induction l as [|x l IH]; simpl; [exact I|].
  now apply insert_by_timestamp_sorted.
Qed.

Lemma sorted_app (a b : list (string * signature_data)) :
  sorted (a ++ b) -> forall x y, In x a -> In y b -> older x y.
Proof.
  induction a as [|z a IH]; simpl; [tauto|].
  intros [Hz Hs] x y [<-|Hx] Hy.
  - rewrite Forall_forall in Hz. apply Hz, in_or_app. now right.
  - now apply IH.
Qed.

(** Lines 80-85 on a map of more than 100 records. *)
Lemma evict_oldest_capped (m : signatures_map) :
  NoDup (keys m) -> capped m (evict_oldest m).
Proof.
  intros Hnd. unfold capped, evict_oldest.
  destruct (Nat.ltb MAX_SIGNATURES (List.length m)) eqn:E.
  - apply Nat.ltb_lt in E. split; [lia|]. intros _.
    set (n := List.length m - MAX_SIGNATURES).
    set (entries := sort_by_timestamp m).
    assert (Hperm : Permutation entries m) by apply sort_by_timestamp_perm.
    assert (Hsplit : firstn n entries ++ skipn n entries = entries)
      by apply firstn_skipn.
    set (removed := firstn n entries) in *.
    set (rest := skipn n entries) in *.
    assert (Hlen : List.length removed = n).
    { unfold removed. rewrite length_firstn.
      rewrite (Permutation_length Hperm). unfold n. lia. }
    assert (Hnd' : NoDup (keys (removed ++ rest))).
    { rewrite Hsplit. unfold keys.
      eapply Permutation_NoDup; [|exact Hnd].
      apply Permutation_map, Permutation_sym, Hperm. }
    set (stays := fun x : string * signature_data =>
                    negb (existsb (fun e => true && String.eqb (fst x) (fst e))
                            removed)).
    assert (Hfold : fold_left (fun m0 entry => assoc_delete (fst entry) m0)
                      removed m = filter stays m).
    { apply (fold_delete_filter removed (fun _ => true) m). }
    rewrite Hfold.
    assert (Hin_split : forall x, In x (removed ++ rest) -> In x m).
    { intros x Hx. rewrite Hsplit in Hx. eapply Permutation_in; eauto. }
    assert (Hrem : filter stays removed = []).
    { apply filter_none. intros x Hx. unfold stays.
      apply negb_false_iff, existsb_exists.
      exists x. split; [assumption|]. cbn [andb]. apply String.eqb_refl. }
    assert (Hrest : filter stays rest = rest).
    { apply forallb_filter_id, forallb_forall. intros x Hx. unfold stays.
      apply negb_true_iff. destruct (existsb _ removed) eqn:Ex; [|reflexivity].
      apply existsb_exists in Ex. destruct Ex as (e & He & Hk).
      cbn [andb] in Hk. apply String.eqb_eq in Hk. exfalso.
      unfold keys in Hnd'. rewrite map_app in Hnd'.
      apply (nodup_app_disjoint _ _ Hnd' (fst x)); [rewrite Hk|]; now apply in_map. }
    assert (Hkept : Permutation (filter stays m) rest).
    { rewrite <- (perm_filter stays _ _ Hperm), <- Hsplit, filter_app, Hrem, Hrest.
      reflexivity. }
    split.
    + rewrite (Permutation_length Hkept). unfold rest.
      rewrite length_skipn, (Permutation_length Hperm). unfold n. lia.
    + exists removed. split; [|split].
      * transitivity (removed ++ rest).
        -- rewrite Hsplit. now apply Permutation_sym.
        -- apply Permutation_app_head. now apply Permutation_sym.
      * exact Hlen.
      * intros r k Hr Hk. apply (sorted_app removed rest).
        -- rewrite Hsplit. apply sort_by_timestamp_sorted.
        -- assumption.
        -- eapply Permutation_in; eauto.
  - apply Nat.ltb_ge in E. split; [reflexivity|lia].
Qed.


Lemma keys_filter_NoDup {V : Type} (f : string * V -> bool) (l : list (string * V)) :
  NoDup (keys l) -> NoDup (keys (filter f l)).
Proof.
  unfold keys. induction l as [|x l IH]; simpl; [auto|].
  intros Hnd. inversion Hnd as [|? ? Hnotin Hnd']; subst.
  destruct (f x); simpl; [|now apply IH].
  constructor; [|now apply IH].
  intros Hin. apply Hnotin. apply in_map_iff in Hin.
  destruct Hin as (y & Hy & Hin). apply filter_In in Hin.
  rewrite <- Hy. now apply in_map.
Qed.

(** The outer loop treats every conversation on its own. *)
Lemma cleanup_fold (oneHourAgo : Z) (l acc : conversations) (cid : string) :
  NoDup (keys l) ->
  assoc_get cid (fold_left (cleanup_conversation oneHourAgo) l acc)
  = match assoc_get cid l with
    | Some m => swept_conversation oneHourAgo m
    | None => assoc_get cid acc
    end.
Proof.
  revert acc. induction l as [|[c0 m0] l IH]; intros acc Hnd; [reflexivity|].
  inversion Hnd as [|? ? Hnotin Hnd']; subst.
  cbn [fold_left]. rewrite IH by assumption. cbn [assoc_get].
  assert (Estep : forall k,
            assoc_get k (cleanup_conversation oneHourAgo acc (c0, m0))
            = if String.eqb c0 k then swept_conversation oneHourAgo m0
              else assoc_get k acc).
  { intros k. unfold cleanup_conversation, swept_conversation. cbn [fst snd].
    destruct (String.eqb c0 k) eqn:E.
    - apply String.eqb_eq in E. subst k.
      destruct (Nat.eqb _ 0);
        [apply assoc_get_delete_same|apply assoc_get_set_same].
    - destruct (Nat.eqb _ 0);
        [now apply assoc_get_delete_other|now apply assoc_get_set_other]. }
  rewrite Estep. destruct (String.eqb c0 cid) eqn:E.
  - apply String.eqb_eq in E. subst cid.
    apply assoc_get_none_keys in Hnotin. now rewrite Hnotin.
  - reflexivity.
Qed.

Lemma store_ok_maps (store : conversations) (cid : string) (m : signatures_map) :
  store_ok store = true -> assoc_get cid store = Some m ->
  NoDup (keys store) /\ NoDup (keys m).
Proof.
  unfold store_ok. rewrite andb_true_iff, forallb_forall. intros [Hu Hall] Hm.
  split; [now apply unique_NoDup|].
  apply unique_NoDup. apply (Hall (cid, m)). now apply assoc_get_in.
Qed.

(** C3.  After [sweep(now)], for every conversation: a conversation none
    of whose records is within one hour of [now] is gone from the store;
    otherwise its map is not empty and holds exactly the records within
    one hour of [now] when these are at most 100, and when they are more,
    exactly 100 of them, the removed ones being as many as exceed 100 and
    none of them newer than a record that stays (with 101 records, the one
    removed is an oldest one). *)
Theorem sweep_keeps_recent (now : Z) (store : conversations) (cid : string) :
  store_ok store = true ->
  swept now (assoc_get cid store)
        (assoc_get cid (cleanupSignatures now store)).
Proof.
  intros Hok. unfold cleanupSignatures.
  destruct (assoc_get cid store) as [m|] eqn:Em.
  - destruct (store_ok_maps store cid m Hok Em) as [Hnd Hm].
    rewrite cleanup_fold, Em by assumption.
    unfold swept, swept_conversation.
    rewrite delete_expired_within_ttl by assumption.
    assert (Hlive : NoDup (keys (within_ttl now m)))
      by now apply keys_filter_NoDup.
    destruct (within_ttl now m) as [|e live] eqn:El; [reflexivity|].
    cbn [List.length Nat.eqb]. eexists. split; [reflexivity|].
    pose proof (evict_oldest_capped (e :: live) Hlive) as Hc.
    split; [|exact Hc].
    destruct Hc as [Hle Hgt].
    destruct (Nat.le_gt_cases (List.length (e :: live)) MAX_SIGNATURES) as [H|H].
    + rewrite (Hle H). discriminate.
    + destruct (Hgt H) as [Hlen _]. intros Hnil. rewrite Hnil in Hlen.
      discriminate Hlen.
  - assert (Hnd : NoDup (keys store)).
    { unfold store_ok in Hok. apply andb_true_iff in Hok.
      now apply unique_NoDup. }
    rewrite cleanup_fold, Em by assumption. reflexivity.
Qed.

Lemma sweep_keeps_recent_witness :
  swept 3603000 (assoc_get "busy" full_store)
        (assoc_get "busy" (cleanupSignatures 3603000 full_store)).
Proof.
  apply (sweep_keeps_recent 3603000 full_store "busy"). vm_compute. reflexivity.
Defined.

(** The example of the specification: with 101 records in one
    conversation the sweep removes the oldest one, and the conversation
    whose only record has expired is gone. *)
Example sweep_full_store :
  cleanupSignatures 3603000 full_store
  = [("busy", map numbered_record (seq 1 100))].
Proof. vm_compute. reflexivity. Qed.

(* ================================================================== *)
(** * C2: a second pass of the sanitizer *)
(* ================================================================== *)

(** ** Each step before the recursion commutes with an assignment to a key
       it neither reads nor writes *)

Lemma delete_keys_set (ks : list string) (k : string) (v : json) (c : object) :
  forallb (fun k' => negb (String.eqb k k')) ks = true ->
  delete_keys ks (obj_set k v c) = obj_set k v (delete_keys ks c).
Proof.
  unfold delete_keys. revert c.
  induction ks as [|k' ks IH]; intros c; simpl; [reflexivity|].
  rewrite andb_true_iff, negb_true_iff. intros [H1 H2].
  rewrite assoc_delete_set by assumption. now apply IH.
Qed.

Lemma drop_format_set (k : string) (v : json) (c : object) :
  String.eqb k "format" = false ->
  drop_format (obj_set k v c) = obj_set k v (drop_format c).
Proof.
  intros H. unfold drop_format. rewrite assoc_get_set_other by assumption.
  destruct (obj_get "format" c) as [f|]; [|reflexivity].
  destruct (truthy f && negb (str_includes ["enum"; "date-time"] f));
    [|reflexivity].
  now apply assoc_delete_set.
Qed.

Lemma collapse_type_set (k : string) (v w : json) (c : object) :
  String.eqb k "type" = false -> String.eqb k "nullable" = false ->
  obj_get k c = Some w ->
  collapse_type (obj_set k v c) = obj_set k v (collapse_type c).
Proof.
  intros Ht Hn Hk. unfold collapse_type. rewrite assoc_get_set_other by assumption.
  assert (St : forall t, obj_set "type" t (obj_set k v c)
                         = obj_set k v (obj_set "type" t c)).
  { intros t. rewrite String.eqb_sym in Ht. now apply assoc_set_set with w. }
  destruct (obj_get "type" c) as [[| | | |ts|]|]; try reflexivity.
  destruct (find (fun t => negb (is_null_name t)) ts) as [t|]; [|apply St].
  destruct (truthy t); [|apply St].
  destruct (existsb is_null_name ts); [|apply St].
  rewrite St. rewrite String.eqb_sym in Hn. apply assoc_set_set with w.
  - assumption.
  - rewrite assoc_get_set_other; [assumption|]. now rewrite String.eqb_sym.
Qed.

Lemma drop_closed_set (k : string) (v : json) (c : object) :
  String.eqb k "additionalProperties" = false ->
  drop_closed (obj_set k v c) = obj_set k v (drop_closed c).
Proof.
  intros H. unfold drop_closed. rewrite assoc_get_set_other by assumption.
  destruct (obj_get "additionalProperties" c) as [[|[|]| | | |]|];
    try reflexivity.
  now apply assoc_delete_set.
Qed.

Lemma drop_empty_required_set (k : string) (v : json) (c : object) :
  String.eqb k "required" = false ->
  drop_empty_required (obj_set k v c) = obj_set k v (drop_empty_required c).
Proof.
  intros H. unfold drop_empty_required. rewrite assoc_get_set_other by assumption.
  destruct (obj_get "required" c) as [[| | | |[|]|]|]; try reflexivity.
  now apply assoc_delete_set.
Qed.

Lemma drop_numeric_set (k : string) (v : json) (c : object) :
  String.eqb k "type" = false ->
  forallb (fun k' => negb (String.eqb k k')) numeric_keys = true ->
  drop_numeric (obj_set k v c) = obj_set k v (drop_numeric c).
Proof.
  intros Ht Hk. unfold drop_numeric, non_numeric_type.
  rewrite assoc_get_set_other by assumption.
  destruct (obj_get "type" c) as [t|]; [|reflexivity].
  destruct (truthy t && negb (str_includes ["number"; "integer"] t));
    [|reflexivity].
  now apply delete_keys_set.
Qed.

(** An assignment to [properties] or [items] passes through the steps. *)
Lemma sanitize_node_set (k : string) (v w : json) (c : object) :
  k = "properties" \/ k = "items" ->
  obj_get k c = Some w ->
  sanitize_node (obj_set k v c) = obj_set k v (sanitize_node c).
Proof.
  intros Hk Hw. unfold sanitize_node.
  assert (H1 : obj_get k (drop_format (delete_keys unsupported_keys c)) = Some w).
  { destruct Hk as [-> | ->]; now frame. }
  destruct Hk as [-> | ->].
  - rewrite delete_keys_set, drop_format_set, (collapse_type_set _ _ w),
      drop_closed_set, drop_empty_required_set, drop_numeric_set
      by (reflexivity || assumption). reflexivity.
  - rewrite delete_keys_set, drop_format_set, (collapse_type_set _ _ w),
      drop_closed_set, drop_empty_required_set, drop_numeric_set
      by (reflexivity || assumption). reflexivity.
Qed.

(** So does one to [additionalProperties], unless [false] is involved. *)
Lemma sanitize_node_set_additional (v w : json) (c : object) :
  obj_get "additionalProperties" c = Some w ->
  w <> JBool false -> v <> JBool false ->
  sanitize_node (obj_set "additionalProperties" v c)
  = obj_set "additionalProperties" v (sanitize_node c).
Proof.
  intros Hw Hwf Hvf. unfold sanitize_node.
  set (c2 := collapse_type (drop_format (delete_keys unsupported_keys c))).
  assert (H1 : obj_get "additionalProperties"
                 (drop_format (delete_keys unsupported_keys c)) = Some w).
  { now frame. }
  assert (H2 : obj_get "additionalProperties" c2 = Some w).
  { unfold c2. now frame. }
  rewrite delete_keys_set, drop_format_set, (collapse_type_set _ _ w)
    by (reflexivity || assumption).
  fold c2.
  assert (E : drop_closed (obj_set "additionalProperties" v c2)
              = obj_set "additionalProperties" v (drop_closed c2)).
  { unfold drop_closed. rewrite assoc_get_set_same, H2.
    destruct v as [|[|]| | | |]; try reflexivity; try congruence;
      destruct w as [|[|]| | | |]; try reflexivity; congruence. }
  rewrite E, drop_empty_required_set, drop_numeric_set by reflexivity.
  reflexivity.
Qed.

(** ** What a first pass leaves, each step leaves alone *)

Lemma delete_keys_absent (ks : list string) (c : object) :
  (forall k, In k ks -> obj_get k c = None) -> delete_keys ks c = c.
Proof.
  unfold delete_keys. induction ks as [|k ks IH]; intros H; simpl; [reflexivity|].
  rewrite assoc_delete_absent by (apply H; now left).
  apply IH. intros k' Hk'. apply H. now right.
Qed.

Lemma unsupported_not_assigned (k : string) :
  In k unsupported_keys ->
  String.eqb "type" k = false /\ String.eqb "nullable" k = false.
Proof.
  unfold unsupported_keys. simpl.
  intros H. repeat (destruct H as [<-|H]; [split; reflexivity|]). destruct H.
Qed.

Lemma sanitize_node_unsupported (k : string) (o : object) :
  In k unsupported_keys -> obj_get k (sanitize_node o) = None.
Proof.
  intros Hin. destruct (unsupported_not_assigned k Hin) as [Ht Hn].
  destruct (obj_get k (sanitize_node o)) as [v|] eqn:E; [|reflexivity].
  unfold sanitize_node in E.
  apply drop_numeric_get_some, drop_empty_required_get_some,
    drop_closed_get_some, collapse_type_get_some, drop_format_get_some in E;
    try assumption.
  now rewrite delete_keys_get_deleted in E.
Qed.

Lemma drop_format_settled (y c : object) :
  obj_get "format" y = obj_get "format" (drop_format c) -> drop_format y = y.
Proof.
  intros H. unfold drop_format at 1. rewrite H. unfold drop_format.
  destruct (obj_get "format" c) as [f|] eqn:E.
  - destruct (truthy f && negb (str_includes ["enum"; "date-time"] f)) eqn:Ec.
    + now rewrite assoc_get_delete_same.
    + now rewrite E, Ec.
  - now rewrite E.
Qed.

Lemma collapse_type_settled (y c : object) :
  flat_type c = true ->
  obj_get "type" y = obj_get "type" (collapse_type c) -> collapse_type y = y.
Proof.
  intros Hflat H. unfold collapse_type at 1. rewrite H. clear H.
  unfold collapse_type, flat_type in *.
  destruct (obj_get "type" c) as [t|] eqn:E; [|now rewrite E].
  destruct t as [| | | |ts|]; try now rewrite E.
  destruct (find (fun t => negb (is_null_name t)) ts) as [t|].
  - destruct (truthy t) eqn:Et.
    + destruct (existsb is_null_name ts).
      * rewrite assoc_get_set_other by reflexivity. rewrite assoc_get_set_same.
        destruct t; try reflexivity. discriminate Hflat.
      * rewrite assoc_get_set_same. destruct t; try reflexivity.
        discriminate Hflat.
    + now rewrite assoc_get_set_same.
  - now rewrite assoc_get_set_same.
Qed.

Lemma drop_closed_settled (y c : object) :
  obj_get "additionalProperties" y
  = obj_get "additionalProperties" (drop_closed c) ->
  drop_closed y = y.
Proof.
  intros H. unfold drop_closed at 1. rewrite H. unfold drop_closed.
  destruct (obj_get "additionalProperties" c) as [[|[|]| | | |]|] eqn:E;
    rewrite ?assoc_get_delete_same, ?E; reflexivity.
Qed.

Lemma drop_empty_required_settled (y c : object) :
  obj_get "required" y = obj_get "required" (drop_empty_required c) ->
  drop_empty_required y = y.
Proof.
  intros H. unfold drop_empty_required at 1. rewrite H. unfold drop_empty_required.
  destruct (obj_get "required" c) as [[| | | |[|]|]|] eqn:E;
    rewrite ?assoc_get_delete_same, ?E; reflexivity.
Qed.

Lemma drop_numeric_settled (c : object) :
  drop_numeric (drop_numeric c) = drop_numeric c.
Proof.
  unfold drop_numeric at 1.
  assert (E : non_numeric_type (drop_numeric c) = non_numeric_type c).
  { unfold non_numeric_type. now frame. }
  rewrite E. unfold drop_numeric.
  destruct (non_numeric_type c); [|reflexivity].
  apply delete_keys_absent. intros k Hk. now apply delete_keys_get_deleted.
Qed.

(** The steps before the recursion change nothing the second time. *)
Lemma sanitize_node_settled (o : object) :
  flat_type o = true -> sanitize_node (sanitize_node o) = sanitize_node o.
Proof.
  intros Hflat.
  set (y := sanitize_node o).
  set (c1 := delete_keys unsupported_keys o).
  set (c2 := drop_format c1).
  set (c3 := collapse_type c2).
  set (c4 := drop_closed c3).
  set (c5 := drop_empty_required c4).
  assert (Ey : y = drop_numeric c5) by reflexivity.
  assert (F2 : flat_type c2 = true).
  { unfold flat_type, c2, c1 in *. revert Hflat. now frame. }
  assert (S1 : delete_keys unsupported_keys y = y).
  { apply delete_keys_absent. intros k Hk. now apply sanitize_node_unsupported. }
  assert (S2 : drop_format y = y).
  { apply (drop_format_settled y c1). rewrite Ey. unfold c5, c4, c3. fold c2.
    now frame. }
  assert (S3 : collapse_type y = y).
  { apply (collapse_type_settled y c2 F2). rewrite Ey. unfold c5, c4. fold c3.
    now frame. }
  assert (S4 : drop_closed y = y).
  { apply (drop_closed_settled y c3). rewrite Ey. unfold c5. fold c4.
    now frame. }
  assert (S5 : drop_empty_required y = y).
  { apply (drop_empty_required_settled y c4). rewrite Ey. fold c5. now frame. }
  assert (S6 : drop_numeric y = y).
  { rewrite Ey. apply drop_numeric_settled. }
  unfold sanitize_node at 1. fold y. now rewrite S1, S2, S3, S4, S5, S6.
Qed.

(** ** The loop over the properties, run on its own result *)

Lemma assoc_set_in {V : Type} (k k' : string) (v v' : V) (m : list (string * V)) :
  In (k', v') (assoc_set k v m) -> In (k', v') m \/ (k', v') = (k, v).
Proof.
  induction m as [|[k0 v0] m IH]; simpl.
  - intros [H|[]]. right. now symmetry.
  - destruct (String.eqb k0 k) eqn:E; simpl.
    + apply String.eqb_eq in E. subst k0. intros [H|H]; [now right|left; now right].
    + intros [H|H]; [left; now left|]. destruct (IH H); [left; now right|now right].
Qed.

Lemma keys_assoc_set_absent {V : Type} (k : string) (v : V) (m : list (string * V)) :
  assoc_get k m = None -> keys (assoc_set k v m) = keys m ++ [k].
Proof.
  intros H. rewrite assoc_set_absent by assumption.
  unfold keys. now rewrite map_app.
Qed.

Lemma NoDup_snoc {A : Type} (l : list A) (x : A) :
  NoDup l -> ~ In x l -> NoDup (l ++ [x]).
Proof.
  intros Hl Hx. apply NoDup_app; [assumption|repeat constructor; auto|].
  intros a Ha [<-|[]]. contradiction.
Qed.

Lemma props_assign_rebuilt (rec : json -> json) (props : object)
    (key : string) (v : json) :
  rec (rec v) = rec v -> rebuilt rec props ->
  rebuilt rec (props_assign props key (rec v)).
Proof.
  intros Hv (Hnd & Hproto & Hvals). unfold props_assign.
  destruct (String.eqb key "__proto__") eqn:E; [now repeat split|].
  apply String.eqb_neq in E. unfold rebuilt.
  destruct (obj_get key props) as [w|] eqn:Eg.
  - rewrite (keys_assoc_set _ _ _ w Eg). repeat split; try assumption.
    intros k' v' Hin. apply assoc_set_in in Hin.
    destruct Hin as [Hin|[= -> ->]]; [now apply (Hvals k')|assumption].
  - rewrite (keys_assoc_set_absent _ _ _ Eg). repeat split.
    + apply NoDup_snoc; [assumption|]. now apply assoc_get_none_keys.
    + intros Hin. apply in_app_or in Hin.
      destruct Hin as [Hin|[Heq|[]]]; [auto|congruence].
    + intros k' v' Hin. apply assoc_set_in in Hin.
      destruct Hin as [Hin|[= -> ->]]; [now apply (Hvals k')|assumption].
Qed.

Lemma rebuild_props_rebuilt (rec : json -> json) (entries : object) :
  (forall k v, In (k, v) entries -> rec (rec v) = rec v) ->
  rebuilt rec (rebuild_props rec entries).
Proof.
  unfold rebuild_props.
  assert (H0 : rebuilt rec []).
  { repeat split; [constructor|intros []|intros k v []]. }
  revert H0. generalize (@nil (string * json)).
  induction entries as [|[k v] es IH]; intros acc Hacc H; simpl; [assumption|].
  apply IH.
  - apply props_assign_rebuilt; [apply (H k); now left|assumption].
  - intros k' v' Hin. apply (H k'). now right.
Qed.

Lemma rebuild_props_append (rec : json -> json) (props acc : object) :
  rebuilt rec props ->
  (forall k, In k (keys props) -> ~ In k (keys acc)) ->
  fold_left (fun ps kv => props_assign ps (fst kv) (rec (snd kv))) props acc
  = acc ++ props.
Proof.
  revert acc. induction props as [|[k v] ps IH]; intros acc (Hnd & Hproto & Hvals) Hdis;
    simpl; [now rewrite app_nil_r|].
  inversion Hnd as [|? ? Hnotin Hnd']; subst.
  assert (Ek : String.eqb k "__proto__" = false).
  { apply String.eqb_neq. intros ->. apply Hproto. now left. }
  assert (Eacc : obj_get k acc = None).
  { apply assoc_get_none_keys. apply Hdis. now left. }
  unfold props_assign at 2. rewrite Ek.
  rewrite (Hvals k v) by now left.
  rewrite assoc_set_absent by assumption.
  rewrite IH.
  - now rewrite <- app_assoc.
  - repeat split; [assumption| |].
    + intros Hin. apply Hproto. now right.
    + intros k' v' Hin. apply (Hvals k'). now right.
  - intros k' Hk' Hin. unfold keys in Hin. rewrite map_app in Hin.
    apply in_app_or in Hin. destruct Hin as [Hin|[<-|[]]].
    + apply (Hdis k'); [now right|assumption].
    + now apply Hnotin.
Qed.

Lemma rebuild_props_settled (rec : json -> json) (entries : object) :
  (forall k v, In (k, v) entries -> rec (rec v) = rec v) ->
  rebuild_props rec (rebuild_props rec entries) = rebuild_props rec entries.
Proof.
  intros H. unfold rebuild_props at 1.
  rewrite rebuild_props_append; [reflexivity| |intros k _ []].
  now apply rebuild_props_rebuilt.
Qed.

(** ** The recursive steps, run on their own result *)

Lemma sanitize_properties_settled (rec : json -> json) (y c : object) :
  (forall ps, obj_get "properties" c = Some (JObj ps) ->
     forall k v, In (k, v) ps -> rec (rec v) = rec v) ->
  (forall l, obj_get "properties" c = Some (JArr l) ->
     forall v, In v l -> rec (rec v) = rec v) ->
  obj_get "properties" y = obj_get "properties" (sanitize_properties rec c) ->
  sanitize_properties rec y = y.
Proof.
  intros Hps Hl H. unfold sanitize_properties at 1. rewrite H.
  unfold sanitize_properties.
  destruct (obj_get "properties" c) as [p|] eqn:E; [|now rewrite E].
  destruct p as [| | | |l|ps]; try now rewrite E.
  - rewrite assoc_get_set_same.
    rewrite rebuild_props_settled.
    + apply assoc_set_unchanged. rewrite H. unfold sanitize_properties.
      now rewrite E, assoc_get_set_same.
    + intros k v Hin. apply (Hl l eq_refl). eapply array_entries_in, Hin.
  - rewrite assoc_get_set_same.
    rewrite rebuild_props_settled.
    + apply assoc_set_unchanged. rewrite H. unfold sanitize_properties.
      now rewrite E, assoc_get_set_same.
    + intros k v Hin. now apply (Hps ps eq_refl k).
Qed.

Lemma sanitize_items_settled (rec : json -> json) (y c : object) :
  (forall it, obj_get "items" c = Some it -> rec (rec it) = rec it) ->
  obj_get "items" y = obj_get "items" (sanitize_items rec c) ->
  sanitize_items rec y = y.
Proof.
  intros Hit H. unfold sanitize_items at 1. rewrite H. unfold sanitize_items.
  destruct (obj_get "items" c) as [it|] eqn:E; [|now rewrite E].
  destruct (truthy it) eqn:Et; [|now rewrite E, Et].
  rewrite assoc_get_set_same. destruct (truthy (rec it)); [|reflexivity].
  rewrite (Hit it eq_refl). apply assoc_set_unchanged. rewrite H.
  unfold sanitize_items. now rewrite E, Et, assoc_get_set_same.
Qed.

Lemma sanitize_additional_settled (rec : json -> json) (y c : object) :
  (forall ap, obj_get "additionalProperties" c = Some ap -> rec (rec ap) = rec ap) ->
  obj_get "additionalProperties" y
  = obj_get "additionalProperties" (sanitize_additional rec c) ->
  sanitize_additional rec y = y.
Proof.
  intros Hap H. unfold sanitize_additional at 1. rewrite H.
  unfold sanitize_additional.
  destruct (obj_get "additionalProperties" c) as [ap|] eqn:E; [|now rewrite E].
  destruct (truthy ap && typeof_object ap) eqn:Et; [|now rewrite E, Et].
  rewrite assoc_get_set_same.
  destruct (truthy (rec ap) && typeof_object (rec ap)); [|reflexivity].
  rewrite (Hap ap eq_refl). apply assoc_set_unchanged. rewrite H.
  unfold sanitize_additional. now rewrite E, Et, assoc_get_set_same.
Qed.

Lemma sanitize_children_settled (rec : json -> json) (c : object) :
  (forall ps, obj_get "properties" c = Some (JObj ps) ->
     forall k v, In (k, v) ps -> rec (rec v) = rec v) ->
  (forall l, obj_get "properties" c = Some (JArr l) ->
     forall v, In v l -> rec (rec v) = rec v) ->
  (forall it, obj_get "items" c = Some it -> rec (rec it) = rec it) ->
  (forall ap, obj_get "additionalProperties" c = Some ap -> rec (rec ap) = rec ap) ->
  sanitize_children rec (sanitize_children rec c) = sanitize_children rec c.
Proof.
  intros Hps Hl Hit Hap.
  set (y := sanitize_children rec c).
  set (c1 := sanitize_properties rec c).
  set (c2 := sanitize_items rec c1).
  assert (Ey : y = sanitize_additional rec c2) by reflexivity.
  assert (S1 : sanitize_properties rec y = y).
  { apply (sanitize_properties_settled rec y c Hps Hl).
    rewrite Ey. unfold c2. fold c1. now frame. }
  assert (S2 : sanitize_items rec y = y).
  { apply (sanitize_items_settled rec y c1).
    - intros it Hi. apply Hit. unfold c1 in Hi. revert Hi. now frame.
    - rewrite Ey. fold c2. now frame. }
  assert (S3 : sanitize_additional rec y = y).
  { apply (sanitize_additional_settled rec y c2).
    - intros ap Ha. apply Hap. unfold c2, c1 in Ha. revert Ha. now frame.
    - now rewrite Ey. }
  unfold sanitize_children at 1. fold y. now rewrite S1, S2, S3.
Qed.

(** ** The second pass *)

Lemma sanitizeSchema_keeps_objects (v : json) :
  truthy v && typeof_object v = true -> sanitizeSchema v <> JBool false.
Proof.
  intros H. apply andb_true_iff in H. destruct H as [Ht Ho].
  destruct v; try discriminate Ho; try discriminate Ht;
    rewrite sanitizeSchema_unfold; discriminate.
Qed.

(** The recursive steps do not undo what the steps before them did. *)
Lemma sanitize_node_children (rec : json -> json) (c : object) :
  (forall v, truthy v && typeof_object v = true -> rec v <> JBool false) ->
  sanitize_node c = c ->
  sanitize_node (sanitize_children rec c) = sanitize_children rec c.
Proof.
  intros Hrec Hc. unfold sanitize_children.
  set (c1 := sanitize_properties rec c).
  assert (H1 : sanitize_node c1 = c1).
  { unfold c1, sanitize_properties.
    destruct (obj_get "properties" c) as [[| | | |l|ps]|] eqn:E; try assumption.
    - rewrite (sanitize_node_set _ _ (JArr l)) by auto. now rewrite Hc.
    - rewrite (sanitize_node_set _ _ (JObj ps)) by auto. now rewrite Hc. }
  set (c2 := sanitize_items rec c1).
  assert (H2 : sanitize_node c2 = c2).
  { unfold c2, sanitize_items.
    destruct (obj_get "items" c1) as [it|] eqn:E; [|assumption].
    destruct (truthy it); [|assumption].
    rewrite (sanitize_node_set _ _ it) by auto. now rewrite H1. }
  unfold sanitize_additional.
  destruct (obj_get "additionalProperties" c2) as [ap|] eqn:E; [|assumption].
  destruct (truthy ap && typeof_object ap) eqn:Et; [|assumption].
  rewrite (sanitize_node_set_additional _ ap).
  - now rewrite H2.
  - assumption.
  - intros ->. discriminate Et.
  - now apply Hrec.
Qed.

Lemma flat_types_in_obj (o : object) (k : string) (v : json) :
  flat_types (JObj o) = true -> In (k, v) o -> flat_types v = true.
Proof.
  cbn [flat_types]. rewrite andb_true_iff, forallb_forall. intros [_ H] Hin.
  apply (H (k, v) Hin).
Qed.

Lemma flat_types_in_arr (l : list json) (v : json) :
  flat_types (JArr l) = true -> In v l -> flat_types v = true.
Proof. cbn [flat_types]. rewrite forallb_forall. intros H Hin. now apply H. Qed.

Lemma sanitize_settled_depth (n : nat) (x : json) :
  json_depth x <= n -> flat_types x = true ->
  sanitizeSchema (sanitizeSchema x) = sanitizeSchema x.
Proof.
  revert x. induction n as [|n IH]; intros x Hd Hflat.
  - destruct x; simpl in Hd; try lia; now rewrite !sanitizeSchema_unfold.
  - destruct x as [| | | |l|o]; try now rewrite !sanitizeSchema_unfold.
    rewrite !sanitizeSchema_object. apply (f_equal JObj).
    assert (Hchild : forall k v, obj_get k (sanitize_node o) = Some v ->
              String.eqb "type" k = false -> String.eqb "nullable" k = false ->
              In (k, v) o).
    { intros k v Hv Ht Hn. now apply assoc_get_in, sanitize_node_get_some. }
    assert (Hflat_o : flat_type o = true).
    { cbn [flat_types] in Hflat. now apply andb_true_iff in Hflat. }
    rewrite sanitize_node_children.
    + apply sanitize_children_settled.
      * intros ps Hps k v Hin.
        apply Hchild in Hps; [|reflexivity..].
        pose proof (flat_types_in_obj _ _ _ Hflat Hps) as Fps.
        pose proof (depth_in_obj _ _ _ Hps) as Dps.
        pose proof (depth_in_obj _ _ _ Hin) as Dv.
        apply IH; [lia|]. eapply flat_types_in_obj; eauto.
      * intros l Hl v Hin.
        apply Hchild in Hl; [|reflexivity..].
        pose proof (flat_types_in_obj _ _ _ Hflat Hl) as Fl.
        pose proof (depth_in_obj _ _ _ Hl) as Dl.
        pose proof (depth_in_arr _ _ Hin) as Dv.
        apply IH; [lia|]. eapply flat_types_in_arr; eauto.
      * intros it Hit. apply Hchild in Hit; [|reflexivity..].
        pose proof (depth_in_obj _ _ _ Hit) as Dv.
        apply IH; [lia|]. eapply flat_types_in_obj; eauto.
      * intros ap Hap. apply Hchild in Hap; [|reflexivity..].
        pose proof (depth_in_obj _ _ _ Hap) as Dv.
        apply IH; [lia|]. eapply flat_types_in_obj; eauto.
    + apply sanitizeSchema_keeps_objects.
    + now apply sanitize_node_settled.
Qed.

(** The first pass turns [{type: [["string"]]}] into [{type: ["string"]}],
    the second into [{type: "string"}]. *)
Lemma sanitize_twice_counterexample :
  sanitizeSchema (sanitizeSchema nested_type_schema)
  <> sanitizeSchema nested_type_schema.
Proof. vm_compute. discriminate. Qed.

(** C2, amended.  For every JSON value in which no [type] array of an
    object node has an array as its first entry other than ["null"], a
    second pass of the sanitizer changes nothing. *)
Theorem sanitize_idempotent (x : json) :
  flat_types x = true ->
  sanitizeSchema (sanitizeSchema x) = sanitizeSchema x.
Proof. apply (sanitize_settled_depth (json_depth x)). apply Nat.le_refl. Qed.

Lemma sanitize_idempotent_witness :
  sanitizeSchema (sanitizeSchema sample_schema) = sanitizeSchema sample_schema.
Proof. apply (sanitize_idempotent sample_schema). reflexivity. Defined.

Example sanitize_sample :
  sanitizeSchema sample_schema
  = JObj [("type", JStr "object");
          ("properties",
           JObj [("name", JObj [("type", JStr "string")]);
                 ("tags", JObj [("type", JStr "array");
                                ("items", JObj [("type", JStr "string")])])]);
          ("nullable", JBool true)].
Proof. reflexivity. Qed.

(* ================================================================== *)
(** * The invariants of the store are kept by every writer *)
(* ================================================================== *)

Lemma good_store_checks (store : conversations) :
  good_store store <-> store_ok store = true /\ signatures_truthy store = true.
Proof.
  unfold good_store, good_map, store_ok, signatures_truthy.
  rewrite andb_true_iff, !forallb_forall, unique_NoDup. split.
  - intros [Hnd H]. repeat split; [assumption| |].
    + intros [cid m] Hin. apply unique_NoDup. now apply (H cid m).
    + intros [cid m] Hin. apply forallb_forall. intros [id d] Hd.
      destruct (H cid m Hin) as [_ Ht]. now apply (Ht id).
  - intros [[Hnd Hu] Ht]. split; [assumption|]. intros cid m Hin. split.
    + apply unique_NoDup. apply (Hu (cid, m) Hin).
    + intros id d Hd. specialize (Ht (cid, m) Hin). cbn [snd] in Ht.
      rewrite forallb_forall in Ht. apply (Ht (id, d) Hd).
Qed.

Lemma assoc_set_NoDup {V : Type} (k : string) (v : V) (m : list (string * V)) :
  NoDup (keys m) -> NoDup (keys (assoc_set k v m)).
Proof.
  intros H. destruct (assoc_get k m) as [w|] eqn:E.
  - now rewrite (keys_assoc_set _ _ _ w E).
  - rewrite (keys_assoc_set_absent _ _ _ E).
    apply NoDup_snoc; [assumption|]. now apply assoc_get_none_keys.
Qed.

Lemma good_map_filter (f : string * signature_data -> bool) (m : signatures_map) :
  good_map m -> good_map (filter f m).
Proof.
  intros [Hnd Ht]. split; [now apply keys_filter_NoDup|].
  intros id d Hin. apply filter_In in Hin. now apply (Ht id).
Qed.

Lemma good_store_set (store : conversations) (cid : string) (m : signatures_map) :
  good_store store -> good_map m -> good_store (assoc_set cid m store).
Proof.
  intros [Hnd H] Hm. split; [now apply assoc_set_NoDup|].
  intros cid' m' Hin. apply assoc_set_in in Hin.
  destruct Hin as [Hin|[= -> ->]]; [now apply (H cid')|assumption].
Qed.

Lemma good_store_delete (store : conversations) (cid : string) :
  good_store store -> good_store (assoc_delete cid store).
Proof.
  intros [Hnd H]. rewrite assoc_delete_filter. split.
  - now apply keys_filter_NoDup.
  - intros cid' m' Hin. apply filter_In in Hin. now apply (H cid').
Qed.

(** Lines 402-411 with a truthy token. *)
Lemma store_signature_good (store : conversations) (cid id : string)
    (sig : json) (now : Z) :
  truthy sig = true -> good_store store ->
  good_store (store_signature cid id sig now store).
Proof.
  intros Hsig Hgood. unfold store_signature.
  assert (Hset : forall m, good_map m ->
            good_map (assoc_set id {| signature := sig; timestamp := now |} m)).
  { intros m [Hnd Ht]. split; [now apply assoc_set_NoDup|].
    intros id' d Hin. apply assoc_set_in in Hin.
    destruct Hin as [Hin|[= -> ->]]; [now apply (Ht id')|assumption]. }
  destruct (assoc_get cid store) as [m|] eqn:E.
  - rewrite E. apply good_store_set; [assumption|]. apply Hset.
    destruct Hgood as [_ H]. apply (H cid). now apply assoc_get_in.
  - rewrite assoc_get_set_same. apply good_store_set.
    + apply good_store_set; [assumption|]. split; [constructor|intros ? ? []].
    + apply Hset. split; [constructor|intros ? ? []].
Qed.

Lemma accumulate_tool_call_good (cid : string) (now : Z)
    (st : accumulator * conversations) (d : tool_call_delta) :
  good_store (snd st) ->
  good_store (snd (accumulate_tool_call cid now st d)).
Proof.
  destruct st as [acc store]. unfold accumulate_tool_call. cbn [snd].
  intros H. destruct (tcd_index d) as [index|]; [|assumption].
  destruct (slot_token _) as [sig|]; [|assumption].
  destruct (nonempty _ && truthy sig) eqn:E; [|assumption].
  apply andb_true_iff in E. destruct E as [_ Hsig].
  destruct (slot_id _) as [id|]; [|assumption].
  now apply store_signature_good.
Qed.

Lemma fold_good {A : Type}
    (step : accumulator * conversations -> A -> accumulator * conversations)
    (l : list A) :
  (forall st x, good_store (snd st) -> good_store (snd (step st x))) ->
  forall st, good_store (snd st) -> good_store (snd (fold_left step l st)).
Proof.
  intros Hstep. induction l as [|x l IH]; intros st H; simpl; [assumption|].
  apply IH. now apply Hstep.
Qed.

(** The streaming path keeps the store good. *)
Lemma extract_stream_good (cid : string) (now : Z) (chunks : list chunk)
    (st : accumulator * conversations) :
  good_store (snd st) ->
  good_store (snd (extractSignaturesFromStreamChunks cid now chunks st)).
Proof.
  unfold extractSignaturesFromStreamChunks. apply fold_good.
  clear. intros st c. unfold accumulate_chunk.
  destruct (choices c) as [cs|]; [|tauto].
  apply fold_good. clear. intros st c. unfold accumulate_choice.
  destruct (delta_tool_calls c) as [tcs|]; [|tauto].
  apply fold_good. clear. intros st d. apply accumulate_tool_call_good.
Qed.

Lemma delete_expired_good (oneHourAgo : Z) (m : signatures_map) :
  good_map m -> good_map (delete_expired oneHourAgo m).
Proof.
  intros H. unfold delete_expired.
  rewrite (fold_delete_filter m
             (fun e => (timestamp (snd e) <? oneHourAgo)%Z)).
  now apply good_map_filter.
Qed.

Lemma evict_oldest_good (m : signatures_map) :
  good_map m -> good_map (evict_oldest m).
Proof.
  intros H. unfold evict_oldest.
  destruct (Nat.ltb MAX_SIGNATURES (List.length m)); [|assumption].
  rewrite (fold_delete_filter _ (fun _ => true)). now apply good_map_filter.
Qed.

Lemma cleanup_fold_good (oneHourAgo : Z) (l acc : conversations) :
  good_store acc -> (forall cid m, In (cid, m) l -> good_map m) ->
  good_store (fold_left (cleanup_conversation oneHourAgo) l acc).
Proof.
  revert acc. induction l as [|[cid m] l IH]; intros acc Hacc Hl; simpl;
    [assumption|].
  apply IH.
  - unfold cleanup_conversation. cbn [fst snd].
    destruct (Nat.eqb _ 0); [now apply good_store_delete|].
    apply good_store_set; [assumption|].
    apply evict_oldest_good, delete_expired_good, (Hl cid). now left.
  - intros cid' m' Hin. apply (Hl cid'). now right.
Qed.

(** So does the sweep. *)
Lemma cleanupSignatures_good (now : Z) (store : conversations) :
  good_store store -> good_store (cleanupSignatures now store).
Proof.
  intros Hgood. unfold cleanupSignatures.
  apply cleanup_fold_good; [assumption|apply Hgood].
Qed.

(* ================================================================== *)
(** * The retry loop: one turn *)
(* ================================================================== *)

Lemma retry_loop_S (upstream : nat -> attempt_outcome)
    (requestData : option json) (streaming : bool)
    (maxRetries remaining attempt : nat) (headersSent : bool) :
  retry_loop upstream requestData streaming maxRetries (S remaining) attempt
    headersSent
  = let run := run_attempt streaming headersSent (upstream attempt) in
    match verdict_of requestData maxRetries attempt (snd run) with
    | Stop f => (Request attempt :: fst (fst run), f)
    | Again ms =>
        let next :=
          retry_loop upstream requestData streaming maxRetries remaining
            (S attempt) (snd (fst run)) in
        (Request attempt :: fst (fst run) ++ Sleep ms :: fst next, snd next)
    end.
Proof.
  cbn [retry_loop]. cbv zeta.
  destruct (run_attempt streaming headersSent (upstream attempt))
    as [[effects sent] settled].
  cbn [fst snd]. unfold verdict_of, caught_verdict.
  destruct (retry_loop upstream requestData streaming maxRetries remaining
              (S attempt) sent) as [trace f].
  cbn [fst snd].
  destruct settled as [result|error|exception].
  - destruct (if (200 <=? res_statusCode result)%Z
                 && (res_statusCode result <? 300)%Z
                 && negb (res_streaming result)
              then hasToolResults requestData else Normal false) as [b|error].
    + destruct (res_streaming result); [now rewrite app_nil_r|].
      destruct ((res_statusCode result =? 429)%Z
                && Nat.ltb attempt (maxRetries - 1)); [reflexivity|].
      destruct ((res_statusCode result =? 503)%Z && Nat.ltb attempt 3);
        [reflexivity|].
      destruct (if (400 <=? res_statusCode result)%Z
                then log_request_tools requestData
                else log_success requestData) as [u|error].
      * now rewrite app_nil_r.
      * destruct (Nat.eqb attempt (maxRetries - 1));
          [now rewrite app_nil_r|reflexivity].
    + destruct (Nat.eqb attempt (maxRetries - 1));
        [now rewrite app_nil_r|reflexivity].
  - destruct (Nat.eqb attempt (maxRetries - 1));
      [now rewrite app_nil_r|reflexivity].
  - now rewrite app_nil_r.
Qed.

Lemma decodes_decompressed (r : upstream_response) :
  decodes r = true -> exists data, decompressedData r = Some data.
Proof.
  unfold decodes, decompressedData.
  destruct (content_encoding r) as [encoding|]; [|now eexists].
  destruct (String.eqb encoding "gzip"); [|now eexists].
  destruct (gunzipped r); [now eexists|discriminate].
Qed.

Lemma run_attempt_buffered (headersSent : bool) (r : upstream_response) :
  decodes r = true ->
  run_attempt false headersSent (Responded r Ended)
  = ([], headersSent, Resolved (result_of r false)).
Proof.
  intros H. destruct (decodes_decompressed r H) as [data E].
  cbn [run_attempt]. now rewrite E.
Qed.

Lemma searchable_hasToolResults (requestData : option json) :
  searchable_messages requestData = true ->
  exists b, hasToolResults requestData = Normal b.
Proof.
  unfold searchable_messages, hasToolResults.
  destruct (js_opt_prop "messages" requestData) as [[| | | |messages|]|];
    try discriminate; try (now eexists).
  induction messages as [|m messages IH]; [now eexists|].
  cbn [forallb some_tool_role].
  destruct m; try discriminate; cbn [andb]; intros H;
    (destruct (js_prop "role" _) as [[| | |role| |]|]; try (now apply IH));
    (destruct (String.eqb role "tool"); [now eexists|now apply IH]).
Qed.

Lemma named_tool_logged (tool : json) :
  named_tool tool = true -> log_tool tool = Normal tt.
Proof.
  unfold named_tool, log_tool, or_default.
  destruct tool; try discriminate;
    (destruct (js_opt_prop "name" _) as [name|]; [|reflexivity]);
    intros H;
    (destruct (truthy name); [now rewrite H|reflexivity]).
Qed.

Lemma listable_log_request_tools (requestData : option json) :
  listable_tools requestData = true ->
  log_request_tools requestData = Normal tt.
Proof.
  unfold listable_tools, log_request_tools.
  destruct (js_opt_prop "tools" requestData) as [tools|]; [|reflexivity].
  destruct tools as [|b|n|s|l|o];
    try (intros H; apply negb_true_iff in H; now rewrite H).
  cbn [truthy].
  induction l as [|tool l IH]; [reflexivity|].
  cbn [forallb for_each]. intros H. apply andb_true_iff in H.
  destruct H as [Ht Hl].
  rewrite (named_tool_logged tool Ht). cbn [bind]. now apply IH.
Qed.

Lemma listable_log_success (requestData : option json) :
  listable_tools requestData = true -> log_success requestData = Normal tt.
Proof.
  unfold listable_tools, log_success.
  destruct (js_opt_prop "tools" requestData) as [[| | | | |o]|];
    try reflexivity.
  discriminate.
Qed.

Lemma verdict_429_retry (requestData : option json) (maxRetries attempt : nat)
    (r : upstream_response) :
  statusCode r = 429%Z -> attempt < maxRetries - 1 ->
  verdict_of requestData maxRetries attempt (Resolved (result_of r false))
  = Again (delay_429 (retry_after r) attempt).
Proof.
  intros Hs Hlt. apply Nat.ltb_lt in Hlt.
  unfold verdict_of.
  cbn [result_of res_statusCode res_streaming res_retry_after].
  rewrite Hs, Hlt. reflexivity.
Qed.

Lemma verdict_503_retry (requestData : option json) (maxRetries attempt : nat)
    (r : upstream_response) :
  statusCode r = 503%Z -> attempt < 3 ->
  verdict_of requestData maxRetries attempt (Resolved (result_of r false))
  = Again (Some (2 ^ Z.of_nat attempt * 1000)%Z).
Proof.
  intros Hs Hlt. apply Nat.ltb_lt in Hlt.
  unfold verdict_of.
  cbn [result_of res_statusCode res_streaming res_retry_after].
  rewrite Hs, Hlt. reflexivity.
Qed.

Lemma verdict_stream (requestData : option json) (maxRetries attempt : nat)
    (r : upstream_response) :
  verdict_of requestData maxRetries attempt (Resolved (result_of r true))
  = Stop (Returned (result_of r true)).
Proof.
  unfold verdict_of. cbn [result_of res_statusCode res_streaming negb].
  now rewrite andb_false_r.
Qed.

(** The last statements of a turn on a buffered response that is not
    retried, when the logging statements it reaches do not throw. *)
Lemma verdict_final (requestData : option json) (maxRetries attempt : nat)
    (r : upstream_response) :
  (statusCode r = 429%Z -> maxRetries - 1 <= attempt) ->
  (statusCode r = 503%Z -> 3 <= attempt) ->
  ((statusCode r < 400)%Z -> searchable_messages requestData = true) ->
  listable_tools requestData = true ->
  verdict_of requestData maxRetries attempt (Resolved (result_of r false))
  = Stop (Returned (result_of r false)).
Proof.
  intros H429 H503 Hm Ht.
  unfold verdict_of.
  cbn [result_of res_statusCode res_streaming res_retry_after negb].
  rewrite (listable_log_request_tools requestData Ht),
    (listable_log_success requestData Ht).
  replace ((statusCode r =? 429)%Z && Nat.ltb attempt (maxRetries - 1))
    with false.
  2:{ symmetry. apply andb_false_iff.
      destruct (Z.eqb_spec (statusCode r) 429); [right|now left].
      apply Nat.ltb_ge. now apply H429. }
  replace ((statusCode r =? 503)%Z && Nat.ltb attempt 3) with false.
  2:{ symmetry. apply andb_false_iff.
      destruct (Z.eqb_spec (statusCode r) 503); [right|now left].
      apply Nat.ltb_ge. now apply H503. }
  destruct ((200 <=? statusCode r)%Z && (statusCode r <? 300)%Z && true) eqn:E.
  - apply andb_true_iff in E. destruct E as [E _].
    apply andb_true_iff in E. destruct E as [_ E]. apply Z.ltb_lt in E.
    destruct (searchable_hasToolResults requestData (Hm ltac:(lia))) as [b Hb].
    rewrite Hb. now destruct (400 <=? statusCode r)%Z.
  - now destruct (400 <=? statusCode r)%Z.
Qed.

Lemma verdict_returned (requestData : option json) (maxRetries attempt : nat)
    (settled : settlement) (res : attempt_result) :
  verdict_of requestData maxRetries attempt settled = Stop (Returned res) ->
  settled = Resolved res
  /\ (res_streaming res = false -> res_statusCode res = 429%Z ->
      maxRetries - 1 <= attempt)
  /\ (res_streaming res = false -> res_statusCode res = 503%Z -> 3 <= attempt).
Proof.
  unfold verdict_of, caught_verdict.
  destruct settled as [result|error|exception]; [| |discriminate].
  - destruct (if (200 <=? res_statusCode result)%Z
                 && (res_statusCode result <? 300)%Z
                 && negb (res_streaming result)
              then hasToolResults requestData else Normal false) as [b|error].
    + destruct (res_streaming result) eqn:Es.
      * intros [= <-]. rewrite Es. repeat split; discriminate.
      * destruct ((res_statusCode result =? 429)%Z
                  && Nat.ltb attempt (maxRetries - 1)) eqn:E429; [discriminate|].
        destruct ((res_statusCode result =? 503)%Z && Nat.ltb attempt 3)
          eqn:E503; [discriminate|].
        destruct (if (400 <=? res_statusCode result)%Z
                  then log_request_tools requestData
                  else log_success requestData) as [u|error].
        -- intros [= <-]. split; [reflexivity|]. split; intros _ Hs.
           ++ rewrite Hs in E429. cbn [Z.eqb Pos.eqb andb] in E429.
              now apply Nat.ltb_ge in E429.
           ++ rewrite Hs in E503. cbn [Z.eqb Pos.eqb andb] in E503.
              now apply Nat.ltb_ge in E503.
        -- destruct (Nat.eqb attempt (maxRetries - 1)); discriminate.
    + destruct (Nat.eqb attempt (maxRetries - 1)); discriminate.
  - destruct (Nat.eqb attempt (maxRetries - 1)); discriminate.
Qed.

(* ================================================================== *)
(** * C4: HTTP 429 *)
(* ================================================================== *)

Lemma delay_429_table (attempt : nat) :
  delay_429 None attempt = Some (nth attempt delays 40000%Z).
Proof.
  unfold delay_429, delays. cbn [nonempty].
  do 5 (destruct attempt as [|attempt]; [reflexivity|]).
  cbn [nth_error nth]. now destruct attempt.
Qed.

Lemma delay_429_retry_after (s : string) (n : Z) (attempt : nat) :
  s <> "" -> parseInt s = Some n ->
  delay_429 (Some s) attempt = Some (n * 1000)%Z.
Proof.
  intros Hs Hn. unfold delay_429. cbn [nonempty].
  apply String.eqb_neq in Hs. now rewrite Hs, Hn.
Qed.

(** Five 429 responses in a row to a buffered request: the first four are
    retried, and the turn of the fifth ends as its last statements
    decide. *)
Lemma retry_loop_rate_limited (resp : nat -> upstream_response)
    (requestData : option json) :
  (forall i, statusCode (resp i) = 429%Z) ->
  (forall i, decodes (resp i) = true) ->
  retry_loop (fun i => Responded (resp i) Ended) requestData false
    DEFAULT_MAX_RETRIES DEFAULT_MAX_RETRIES 0 false
  = match verdict_of requestData DEFAULT_MAX_RETRIES 4
            (Resolved (result_of (resp 4) false)) with
    | Stop f => (rate_limited_trace resp, f)
    | Again ms => (rate_limited_trace resp ++ [Sleep ms], ReturnedUndefined)
    end.
Proof.
  intros Hresp Hdec. unfold DEFAULT_MAX_RETRIES, rate_limited_trace.
  do 4 (rewrite retry_loop_S; cbv zeta;
        rewrite (run_attempt_buffered _ _ (Hdec _));
        cbn [fst snd];
        rewrite (verdict_429_retry _ _ _ _ (Hresp _)) by (cbn; lia);
        cbn [app]).
  rewrite retry_loop_S. cbv zeta.
  rewrite (run_attempt_buffered _ _ (Hdec _)). cbn [fst snd].
  destruct (verdict_of requestData 5 4 (Resolved (result_of (resp 4) false)));
    reflexivity.
Qed.

Lemma retry_loop_null_tool (resp : nat -> upstream_response) :
  (forall i, statusCode (resp i) = 429%Z) ->
  verdict_of null_tool_request DEFAULT_MAX_RETRIES 4
    (Resolved (result_of (resp 4) false))
  = Stop (Thrown "Cannot read properties of null (reading 'function')").
Proof.
  intros Hresp. unfold verdict_of.
  cbn [result_of res_statusCode res_streaming res_retry_after].
  rewrite Hresp. reflexivity.
Qed.

(** C4 does not hold of the code.  For a request that is not streamed, a
    429 is retried after the delay chosen by the attempt index from 2 s,
    5 s, 10 s, 20 s, 40 s (40 s beyond the table) when there is no
    [Retry-After] header, and after the [Retry-After] number of seconds
    when there is one (a number whose milliseconds a timer takes as they
    are); a 429 without [Retry-After] followed by a 200 costs one delay of
    2 s and returns the 200.  Five 429 responses in a row use up the
    attempts, and for a request that the loop can log about the function
    then returns the fifth response, status and body.  But the fifth 429
    is logged with the tools of the request before it is returned (lines
    668-672), and on a request whose [tools] hold [null] this statement
    throws: the [catch] of the loop throws the [TypeError] on, and no
    response is returned. *)
Theorem rate_limit_retry (resp : nat -> upstream_response)
    (ok : upstream_response) (requestData : option json) (clientRes : bool)
    (s : string) (n : Z) (attempt : nat) :
  (forall i, statusCode (resp i) = 429%Z) ->
  (forall i, decodes (resp i) = true) ->
  (forall i, exact_retry_after (retry_after (resp i)) = true) ->
  statusCode ok = 200%Z -> decodes ok = true ->
  isStreaming requestData && clientRes = false ->
  s <> "" -> parseInt s = Some n -> (0 <= n * 1000 < 2 ^ 31)%Z ->
  delay_429 None attempt = Some (nth attempt delays 40000%Z)
  /\ delay_429 (Some s) attempt = Some (n * 1000)%Z
  /\ (loggable requestData = true ->
      makeRequestWithRetry (fun i => Responded (resp i) Ended) requestData
        clientRes DEFAULT_MAX_RETRIES
      = (rate_limited_trace resp, Returned (result_of (resp 4) false)))
  /\ (loggable requestData = true -> retry_after (resp 0) = None ->
      makeRequestWithRetry
        (fun i => match i with
                  | O => Responded (resp 0) Ended
                  | S _ => Responded ok Ended
                  end) requestData clientRes DEFAULT_MAX_RETRIES
      = ([Request 0; Sleep (Some 2000%Z); Request 1],
         Returned (result_of ok false)))
  /\ makeRequestWithRetry (fun i => Responded (resp i) Ended)
       null_tool_request clientRes DEFAULT_MAX_RETRIES
     = (rate_limited_trace resp,
        Thrown "Cannot read properties of null (reading 'function')").
Proof.
  intros Hresp Hdec _ Hok Hokdec Hmode Hs Hn _.
  split; [apply delay_429_table|].
  split; [now apply delay_429_retry_after|].
  split; [|split].
  - intros Hlog. apply andb_true_iff in Hlog. destruct Hlog as [Hm Ht].
    unfold makeRequestWithRetry. rewrite Hmode.
    rewrite (retry_loop_rate_limited resp requestData Hresp Hdec).
    rewrite verdict_final; [reflexivity| | | |assumption].
    + intros _. unfold DEFAULT_MAX_RETRIES. lia.
    + rewrite Hresp. discriminate.
    + rewrite Hresp. lia.
  - intros Hlog Hra. apply andb_true_iff in Hlog. destruct Hlog as [Hm Ht].
    unfold makeRequestWithRetry, DEFAULT_MAX_RETRIES. rewrite Hmode.
    rewrite retry_loop_S. cbv zeta.
    rewrite (run_attempt_buffered _ _ (Hdec 0)). cbn [fst snd].
    rewrite (verdict_429_retry _ _ _ _ (Hresp 0)) by lia.
    rewrite retry_loop_S. cbv zeta.
    rewrite (run_attempt_buffered _ _ Hokdec). cbn [fst snd app].
    rewrite verdict_final; [|..|assumption].
    + rewrite Hra. reflexivity.
    + rewrite Hok. discriminate.
    + rewrite Hok. discriminate.
    + intros _. exact Hm.
  - unfold makeRequestWithRetry. cbn [isStreaming null_tool_request andb].
    change (isStreaming null_tool_request) with false. cbn [andb].
    rewrite (retry_loop_rate_limited resp null_tool_request Hresp Hdec).
    now rewrite (retry_loop_null_tool resp Hresp).
Qed.

Lemma rate_limit_retry_witness :
  delay_429 None 7 = Some 40000%Z
  /\ delay_429 (Some "7") 7 = Some 7000%Z
  /\ makeRequestWithRetry (fun _ => Responded busy_response Ended)
       (Some buffered_request) true DEFAULT_MAX_RETRIES
     = ([ Request 0; Sleep (Some 2000%Z); Request 1; Sleep (Some 5000%Z);
          Request 2; Sleep (Some 10000%Z); Request 3; Sleep (Some 20000%Z);
          Request 4 ],
        Returned (result_of busy_response false))
  /\ makeRequestWithRetry (fun _ => Responded busy_response Ended)
       null_tool_request true DEFAULT_MAX_RETRIES
     = ([ Request 0; Sleep (Some 2000%Z); Request 1; Sleep (Some 5000%Z);
          Request 2; Sleep (Some 10000%Z); Request 3; Sleep (Some 20000%Z);
          Request 4 ],
        Thrown "Cannot read properties of null (reading 'function')").
Proof.
  destruct (rate_limit_retry (fun _ => busy_response) ok_response
              (Some buffered_request) true "7" 7 7)
    as (H1 & H2 & H3 & _ & H5);
    [reflexivity | reflexivity | reflexivity | reflexivity | reflexivity
     | reflexivity | discriminate | reflexivity | cbn; lia |].
  split; [exact H1|]. split; [exact H2|].
  split; [exact (H3 eq_refl)|exact H5].
Defined.

(* ================================================================== *)
(** * C5: a stream that fails after bytes were forwarded *)
(* ================================================================== *)

(** C5 does not hold of the code.  A streamed response is cut by the
    response timeout after its first chunk went to the client: the promise
    rejects, the [catch] of the loop sleeps one second and issues a second
    upstream request. *)
Theorem stream_retried_after_forwarding (requestData : option json) :
  isStreaming requestData = true ->
  fst (makeRequestWithRetry cut_stream requestData true DEFAULT_MAX_RETRIES)
  = [Request 0; WriteHead 200; Write "data: first"; Sleep (Some 1000%Z);
     Request 1]
  /\ ~ never_retried_after_forwarding
         (fst (makeRequestWithRetry cut_stream requestData true
                 DEFAULT_MAX_RETRIES)).
Proof.
  intros Hmode.
  assert (E : fst (makeRequestWithRetry cut_stream requestData true
                     DEFAULT_MAX_RETRIES)
              = [Request 0; WriteHead 200; Write "data: first";
                 Sleep (Some 1000%Z); Request 1]).
  { unfold makeRequestWithRetry. rewrite Hmode. reflexivity. }
  split; [exact E|].
  rewrite E. intros H.
  apply (H [Request 0; WriteHead 200%Z] "data: first"
           [Sleep (Some 1000%Z); Request 1] eq_refl 1).
  right. left. reflexivity.
Qed.

Lemma stream_retried_after_forwarding_witness :
  fst (makeRequestWithRetry cut_stream stream_request true DEFAULT_MAX_RETRIES)
  = [Request 0; WriteHead 200; Write "data: first"; Sleep (Some 1000%Z);
     Request 1]
  /\ ~ never_retried_after_forwarding
         (fst (makeRequestWithRetry cut_stream stream_request true
                 DEFAULT_MAX_RETRIES)).
Proof.
  apply (stream_retried_after_forwarding stream_request). reflexivity.
Defined.

(* ================================================================== *)
(** * The retry loop on arbitrary upstreams *)
(* ================================================================== *)

Lemma requests_app (a b : list event) : requests (a ++ b) = requests a ++ requests b.
Proof. apply flat_map_app. Qed.

Lemma requests_writes (l : list string) (tail : list event) :
  requests (map Write l ++ tail) = requests tail.
Proof. induction l as [|x l IH]; [reflexivity|exact IH]. Qed.

Lemma run_attempt_requests (streaming headersSent : bool) (o : attempt_outcome) :
  requests (fst (fst (run_attempt streaming headersSent o))) = [].
Proof.
  destruct o as [reason|r fin]; [reflexivity|].
  unfold run_attempt.
  destruct streaming.
  - destruct headersSent; [reflexivity|].
    destruct fin; cbn [fst].
    + exact (requests_writes (body_chunks r) [EndResponse]).
    + rewrite <- (app_nil_r (map Write (body_chunks r))).
      exact (requests_writes (body_chunks r) []).
  - destruct fin; [|reflexivity]. now destruct (decompressedData r).
Qed.

Lemma requests_turn (streaming headersSent : bool) (o : attempt_outcome)
    (attempt : nat) (trace : list event) :
  requests (Request attempt :: fst (fst (run_attempt streaming headersSent o))
              ++ trace)
  = attempt :: requests trace.
Proof.
  change (Request attempt :: ?l) with ([Request attempt] ++ l).
  rewrite !requests_app. now rewrite run_attempt_requests.
Qed.

Lemma retry_loop_requests (upstream : nat -> attempt_outcome)
    (requestData : option json) (streaming : bool)
    (maxRetries remaining attempt : nat) (headersSent : bool) :
  exists n, n <= remaining
    /\ requests (fst (retry_loop upstream requestData streaming maxRetries
                        remaining attempt headersSent))
       = seq attempt n.
Proof.
  revert attempt headersSent.
  induction remaining as [|remaining IH]; intros attempt headersSent.
  - exists 0. split; [lia|reflexivity].
  - rewrite retry_loop_S. cbv zeta.
    set (run := run_attempt streaming headersSent (upstream attempt)).
    destruct (verdict_of requestData maxRetries attempt (snd run)) as [f|ms].
    + exists 1. split; [lia|]. cbn [fst].
      rewrite <- (app_nil_r (fst (fst run))). unfold run.
      now rewrite requests_turn.
    + destruct (IH (S attempt) (snd (fst run))) as (n & Hn & Hreq).
      exists (S n). split; [lia|]. cbn [fst]. unfold run at 1.
      rewrite requests_turn.
      change (Sleep ms :: ?l) with ([Sleep ms] ++ l).
      rewrite requests_app, Hreq. reflexivity.
Qed.

(** X1.  Whatever the upstream does and whatever the request,
    [makeRequestWithRetry] issues at most [maxRetries] upstream requests,
    and they are the attempts 0, 1, 2, ... in this order. *)
Theorem retry_budget (upstream : nat -> attempt_outcome)
    (requestData : option json) (clientRes : bool) (maxRetries : nat) :
  exists n, n <= maxRetries
    /\ requests (fst (makeRequestWithRetry upstream requestData clientRes
                        maxRetries))
       = seq 0 n.
Proof. apply retry_loop_requests. Qed.

Lemma run_attempt_resolved (streaming headersSent : bool) (o : attempt_outcome)
    (result : attempt_result) :
  snd (run_attempt streaming headersSent o) = Resolved result ->
  exists r, o = Responded r Ended /\ result = result_of r streaming.
Proof.
  destruct o as [reason|r fin]; [discriminate|].
  unfold run_attempt.
  destruct streaming.
  - destruct headersSent; [discriminate|].
    destruct fin; [|discriminate].
    intros [= <-]. now exists r.
  - destruct fin; [|discriminate].
    destruct (decompressedData r); [|discriminate].
    intros [= <-]. now exists r.
Qed.

Lemma retry_loop_returned (upstream : nat -> attempt_outcome)
    (requestData : option json) (streaming : bool)
    (maxRetries remaining attempt : nat) (headersSent : bool)
    (res : attempt_result) :
  attempt + remaining = maxRetries ->
  snd (retry_loop upstream requestData streaming maxRetries remaining attempt
         headersSent)
  = Returned res ->
  exists i r,
    attempt <= i < maxRetries
    /\ upstream i = Responded r Ended
    /\ res = result_of r streaming
    /\ requests (fst (retry_loop upstream requestData streaming maxRetries
                        remaining attempt headersSent))
       = seq attempt (S (i - attempt))
    /\ (streaming = false -> statusCode r = 429%Z -> i = maxRetries - 1)
    /\ (streaming = false -> statusCode r = 503%Z -> 3 <= i).
Proof.
  revert attempt headersSent.
  induction remaining as [|remaining IH]; intros attempt headersSent Hsum.
  - discriminate.
  - rewrite retry_loop_S. cbv zeta.
    set (run := run_attempt streaming headersSent (upstream attempt)).
    destruct (verdict_of requestData maxRetries attempt (snd run))
      as [f|ms] eqn:V; cbn [fst snd].
    + intros ->.
      destruct (verdict_returned _ _ _ _ _ V) as (Hset & H429 & H503).
      destruct (run_attempt_resolved streaming headersSent (upstream attempt)
                  res Hset) as (r & Hup & Hres).
      exists attempt, r. rewrite Hres in H429, H503.
      cbn [result_of res_streaming res_statusCode] in H429, H503.
      repeat split; try assumption; try lia.
      * rewrite <- (app_nil_r (fst (fst run))). unfold run.
        rewrite requests_turn. now rewrite Nat.sub_diag.
      * intros Hs Hc. specialize (H429 Hs Hc). lia.
    + intros Hret.
      destruct (IH (S attempt) (snd (fst run)) ltac:(lia) Hret)
        as (i & r & Hi & Hup & Hres & Hreq & H429 & H503).
      exists i, r. repeat split; try assumption; try lia.
      unfold run at 1. rewrite requests_turn.
      change (Sleep ms :: ?l) with ([Sleep ms] ++ l).
      rewrite requests_app, Hreq.
      replace (S (i - attempt)) with (S (S (i - S attempt))) by lia.
      reflexivity.
Qed.

(** X2.  A response that [makeRequestWithRetry] returns is the complete
    response of the last attempt it made.  Outside streaming mode a 429 is
    returned only from the last attempt the budget allows, and a 503 only
    from the fourth attempt or a later one. *)
Theorem returned_response_provenance (upstream : nat -> attempt_outcome)
    (requestData : option json) (clientRes : bool) (maxRetries : nat)
    (res : attempt_result) :
  snd (makeRequestWithRetry upstream requestData clientRes maxRetries)
  = Returned res ->
  exists i r,
    i < maxRetries
    /\ upstream i = Responded r Ended
    /\ res = result_of r (isStreaming requestData && clientRes)
    /\ requests (fst (makeRequestWithRetry upstream requestData clientRes
                        maxRetries))
       = seq 0 (S i)
    /\ (isStreaming requestData && clientRes = false ->
        statusCode r = 429%Z -> i = maxRetries - 1)
    /\ (isStreaming requestData && clientRes = false ->
        statusCode r = 503%Z -> 3 <= i).
Proof.
  intros Hret.
  destruct (retry_loop_returned upstream requestData
              (isStreaming requestData && clientRes) maxRetries maxRetries 0
              false res eq_refl Hret)
    as (i & r & Hi & Hup & Hres & Hreq & H429 & H503).
  exists i, r. rewrite Nat.sub_0_r in Hreq.
  repeat split; try assumption; lia.
Qed.

Lemma returned_response_provenance_witness :
  exists i r,
    i < DEFAULT_MAX_RETRIES
    /\ (fun _ : nat => Responded busy_response Ended) i = Responded r Ended
    /\ result_of busy_response false
       = result_of r (isStreaming (Some buffered_request) && true)
    /\ requests
         (fst (makeRequestWithRetry (fun _ => Responded busy_response Ended)
                 (Some buffered_request) true DEFAULT_MAX_RETRIES))
       = seq 0 (S i)
    /\ (isStreaming (Some buffered_request) && true = false ->
        statusCode r = 429%Z -> i = DEFAULT_MAX_RETRIES - 1)
    /\ (isStreaming (Some buffered_request) && true = false ->
        statusCode r = 503%Z -> 3 <= i).
Proof.
  apply (returned_response_provenance
           (fun _ => Responded busy_response Ended) (Some buffered_request)
           true DEFAULT_MAX_RETRIES (result_of busy_response false)).
  reflexivity.
Defined.

(** X3.  When every attempt of a request that is not streamed is answered
    by a 503, a budget of four attempts or more is used up to the fourth:
    the retries wait 1 s, 2 s and 4 s, and the fourth 503 is returned,
    provided the tools of the request can be listed when it is logged.
    With a budget of one to three attempts every 503 is retried and the
    loop runs out: the function returns [undefined]. *)
Theorem unavailable_retry_policy (resp : nat -> upstream_response)
    (requestData : option json) (clientRes : bool) (maxRetries : nat) :
  (forall i, statusCode (resp i) = 503%Z) ->
  (forall i, decodes (resp i) = true) ->
  isStreaming requestData && clientRes = false ->
  (4 <= maxRetries -> listable_tools requestData = true ->
   makeRequestWithRetry (fun i => Responded (resp i) Ended) requestData
     clientRes maxRetries
   = ([ Request 0; Sleep (Some 1000%Z); Request 1; Sleep (Some 2000%Z);
        Request 2; Sleep (Some 4000%Z); Request 3 ],
      Returned (result_of (resp 3) false)))
  /\ (1 <= maxRetries <= 3 ->
      snd (makeRequestWithRetry (fun i => Responded (resp i) Ended)
             requestData clientRes maxRetries)
      = ReturnedUndefined).
Proof.
  intros Hresp Hdec Hmode.
  assert (Hturn : forall maxRetries remaining attempt headersSent,
             attempt < 3 ->
             retry_loop (fun i => Responded (resp i) Ended) requestData false
               maxRetries (S remaining) attempt headersSent
             = (Request attempt :: Sleep (Some (2 ^ Z.of_nat attempt * 1000)%Z)
                  :: fst (retry_loop (fun i => Responded (resp i) Ended)
                            requestData false maxRetries remaining (S attempt)
                            headersSent),
                snd (retry_loop (fun i => Responded (resp i) Ended)
                       requestData false maxRetries remaining (S attempt)
                       headersSent))).
  { intros m remaining attempt headersSent Hlt.
    rewrite retry_loop_S. cbv zeta.
    rewrite (run_attempt_buffered _ _ (Hdec _)). cbn [fst snd].
    now rewrite (verdict_503_retry _ _ _ _ (Hresp _) Hlt). }
  unfold makeRequestWithRetry. rewrite Hmode. split.
  - intros Hmax Ht.
    destruct maxRetries as [|[|[|[|k]]]]; try lia.
    rewrite !Hturn by lia. cbn [fst snd].
    rewrite retry_loop_S. cbv zeta.
    rewrite (run_attempt_buffered _ _ (Hdec _)). cbn [fst snd].
    rewrite verdict_final; [reflexivity| | | |exact Ht].
    + rewrite Hresp. discriminate.
    + intros _. lia.
    + rewrite Hresp. lia.
  - intros Hmax.
    destruct maxRetries as [|[|[|[|k]]]]; try lia;
      rewrite !Hturn by lia; reflexivity.
Qed.

Lemma unavailable_retry_policy_witness :
  (4 <= DEFAULT_MAX_RETRIES -> listable_tools (Some buffered_request) = true ->
   makeRequestWithRetry (fun _ => Responded unavailable_response Ended)
     (Some buffered_request) true DEFAULT_MAX_RETRIES
   = ([ Request 0; Sleep (Some 1000%Z); Request 1; Sleep (Some 2000%Z);
        Request 2; Sleep (Some 4000%Z); Request 3 ],
      Returned (result_of unavailable_response false)))
  /\ (1 <= DEFAULT_MAX_RETRIES <= 3 ->
      snd (makeRequestWithRetry (fun _ => Responded unavailable_response Ended)
             (Some buffered_request) true DEFAULT_MAX_RETRIES)
      = ReturnedUndefined).
Proof.
  apply (unavailable_retry_policy (fun _ => unavailable_response)
           (Some buffered_request) true DEFAULT_MAX_RETRIES);
    reflexivity.
Defined.

(** What the logging statements throw is retried as a failed request is.
    On a request whose tools hold [null] the fourth 503 is not returned:
    the loop sleeps 8 s, makes a fifth request and throws.  On a request
    whose messages hold [null] every 200 is retried, and the fifth
    throws. *)
Example null_tool_unavailable :
  makeRequestWithRetry (fun _ => Responded unavailable_response Ended)
    null_tool_request true DEFAULT_MAX_RETRIES
  = ([ Request 0; Sleep (Some 1000%Z); Request 1; Sleep (Some 2000%Z);
       Request 2; Sleep (Some 4000%Z); Request 3; Sleep (Some 8000%Z);
       Request 4 ],
     Thrown "Cannot read properties of null (reading 'function')").
Proof. reflexivity. Qed.

Example null_message_answered :
  makeRequestWithRetry (fun _ => Responded ok_response Ended)
    (Some null_message_request) true DEFAULT_MAX_RETRIES
  = ([ Request 0; Sleep (Some 1000%Z); Request 1; Sleep (Some 2000%Z);
       Request 2; Sleep (Some 4000%Z); Request 3; Sleep (Some 8000%Z);
       Request 4 ],
     Thrown "Cannot read properties of null (reading 'role')").
Proof. reflexivity. Qed.

(** A buffered response that is declared gzip and is not: the exception
    of [zlib.gunzipSync] is thrown inside the callback and ends the
    loop. *)
Example broken_gzip_uncaught :
  makeRequestWithRetry (fun _ => Responded broken_gzip_response Ended)
    (Some buffered_request) true DEFAULT_MAX_RETRIES
  = ([Request 0], Uncaught "zlib.gunzipSync")
  /\ makeRequestWithRetry (fun _ => Responded broken_gzip_response Ended)
       (Some sample_request) true DEFAULT_MAX_RETRIES
     = ([Request 0; WriteHead 200; Write "done"; EndResponse],
        Returned (result_of broken_gzip_response true)).
Proof. split; reflexivity. Qed.

Lemma retry_loop_no_response (reason : nat -> string)
    (requestData : option json) (streaming : bool)
    (maxRetries remaining attempt : nat) (headersSent : bool) :
  attempt + S remaining = maxRetries ->
  retry_loop (fun i => NoResponse (reason i)) requestData streaming maxRetries
    (S remaining) attempt headersSent
  = (backoff_trace attempt remaining ++ [Request (attempt + remaining)],
     Thrown (reason (attempt + remaining))).
Proof.
  revert attempt.
  induction remaining as [|remaining IH]; intros attempt Hsum.
  - rewrite retry_loop_S. cbv zeta.
    cbn [run_attempt fst snd app verdict_of]. unfold caught_verdict.
    replace (Nat.eqb attempt (maxRetries - 1)) with true
      by (symmetry; apply Nat.eqb_eq; lia).
    now rewrite Nat.add_0_r.
  - rewrite retry_loop_S. cbv zeta.
    cbn [run_attempt fst snd app verdict_of]. unfold caught_verdict.
    replace (Nat.eqb attempt (maxRetries - 1)) with false
      by (symmetry; apply Nat.eqb_neq; lia).
    rewrite (IH (S attempt)) by lia.
    cbn [fst snd backoff_trace app].
    now replace (S attempt + remaining) with (attempt + S remaining) by lia.
Qed.

(** X4.  When no attempt is answered at all (the request errors or the
    connection times out), all [maxRetries] attempts are made, the timer
    between attempt [i] and the next set to [1000 * 2 ^ i] ms (1 s, 2 s,
    4 s, ...), and the error of the last attempt is thrown; whatever the
    request, streamed or not. *)
Theorem transport_errors_backoff (reason : nat -> string)
    (requestData : option json) (clientRes : bool) (n : nat) :
  makeRequestWithRetry (fun i => NoResponse (reason i)) requestData clientRes
    (S n)
  = (backoff_trace 0 n ++ [Request n], Thrown (reason n)).
Proof.
  unfold makeRequestWithRetry.
  now rewrite (retry_loop_no_response reason requestData _ (S n) n 0 false).
Qed.

Lemma retry_loop_stream (upstream : nat -> attempt_outcome)
    (requestData : option json)
    (reason : nat -> string) (r : upstream_response)
    (maxRetries remaining attempt k : nat) :
  (forall i, attempt <= i < attempt + k -> upstream i = NoResponse (reason i)) ->
  upstream (attempt + k) = Responded r Ended ->
  attempt + remaining = maxRetries -> k < remaining ->
  retry_loop upstream requestData true maxRetries remaining attempt false
  = (backoff_trace attempt k ++ Request (attempt + k) :: forwarded r,
     Returned (result_of r true)).
Proof.
  revert attempt remaining.
  induction k as [|k IH]; intros attempt remaining Herr Hok Hsum Hk.
  - destruct remaining as [|remaining]; [lia|].
    rewrite retry_loop_S. cbv zeta.
    rewrite Nat.add_0_r in Hok |- *. rewrite Hok.
    cbn [run_attempt fst snd]. rewrite verdict_stream.
    reflexivity.
  - destruct remaining as [|remaining]; [lia|].
    rewrite retry_loop_S. cbv zeta.
    rewrite (Herr attempt) by lia.
    cbn [run_attempt fst snd app verdict_of]. unfold caught_verdict.
    replace (Nat.eqb attempt (maxRetries - 1)) with false
      by (symmetry; apply Nat.eqb_neq; lia).
    rewrite (IH (S attempt) remaining); try lia.
    + cbn [fst snd backoff_trace app].
      now replace (S attempt + k) with (attempt + S k) by lia.
    + intros i Hi. apply Herr. lia.
    + now replace (S attempt + k) with (attempt + S k) by lia.
Qed.

(** X5.  In streaming mode the first response that arrives complete is
    forwarded to the client as it comes, head, chunks and end, and returned
    whatever its status: a 429 or a 503 is not retried.  The attempts before
    it that were not answered are retried, the timer after attempt [i] set
    to [1000 * 2 ^ i] ms. *)
Theorem stream_first_response_forwarded (upstream : nat -> attempt_outcome)
    (requestData : option json)
    (reason : nat -> string) (r : upstream_response) (k maxRetries : nat) :
  isStreaming requestData = true ->
  (forall i, i < k -> upstream i = NoResponse (reason i)) ->
  upstream k = Responded r Ended ->
  k < maxRetries ->
  makeRequestWithRetry upstream requestData true maxRetries
  = (backoff_trace 0 k ++ Request k :: forwarded r, Returned (result_of r true)).
Proof.
  intros Hmode Herr Hok Hk.
  unfold makeRequestWithRetry. rewrite Hmode. cbn [andb].
  apply (retry_loop_stream upstream requestData reason r maxRetries maxRetries
           0 k);
    try assumption; try reflexivity.
  intros i Hi. apply Herr. lia.
Qed.

Lemma stream_first_response_forwarded_witness :
  makeRequestWithRetry
    (fun i => match i with
              | O => NoResponse "ECONNRESET"
              | S _ => Responded busy_response Ended
              end) (Some sample_request) true DEFAULT_MAX_RETRIES
  = ([ Request 0; Sleep (Some 1000%Z); Request 1; WriteHead 429;
       Write "slow down"; EndResponse ],
     Returned (result_of busy_response true)).
Proof.
  apply (stream_first_response_forwarded
           (fun i => match i with
                     | O => NoResponse "ECONNRESET"
                     | S _ => Responded busy_response Ended
                     end)
           (Some sample_request)
           (fun _ => "ECONNRESET") busy_response 1 DEFAULT_MAX_RETRIES).
  - reflexivity.
  - intros i Hi. destruct i; [reflexivity|lia].
  - reflexivity.
  - unfold DEFAULT_MAX_RETRIES. lia.
Defined.

Lemma verdict_stops (requestData : option json) (streaming headersSent : bool)
    (maxRetries attempt : nat) (r : upstream_response) :
  streaming = true
  \/ (statusCode r <> 429%Z /\ statusCode r <> 503%Z
      /\ loggable requestData = true) ->
  exists f,
    verdict_of requestData maxRetries attempt
      (snd (run_attempt streaming headersSent (Responded r Ended)))
    = Stop f.
Proof.
  intros Hfinal. unfold run_attempt.
  destruct streaming.
  - destruct headersSent; cbn [snd]; [now eexists|].
    rewrite verdict_stream. now eexists.
  - destruct Hfinal as [Hs|(H429 & H503 & Hlog)]; [discriminate|].
    apply andb_true_iff in Hlog. destruct Hlog as [Hm Ht].
    destruct (decompressedData r); cbn [snd]; [|now eexists].
    rewrite verdict_final; try assumption; try (now eexists).
    + intros H. contradiction.
    + intros H. contradiction.
    + intros _. exact Hm.
Qed.

Lemma retry_loop_stops (upstream : nat -> attempt_outcome)
    (requestData : option json) (streaming : bool)
    (maxRetries : nat) (k : nat) (r : upstream_response) :
  upstream k = Responded r Ended ->
  streaming = true
  \/ (statusCode r <> 429%Z /\ statusCode r <> 503%Z
      /\ loggable requestData = true) ->
  forall remaining attempt headersSent,
    attempt <= k ->
    Forall (fun i => i <= k)
      (requests (fst (retry_loop upstream requestData streaming maxRetries
                        remaining attempt headersSent))).
Proof.
  intros Hup Hfinal.
  induction remaining as [|remaining IH]; intros attempt headersSent Hle.
  - constructor.
  - rewrite retry_loop_S. cbv zeta.
    destruct (verdict_of requestData maxRetries attempt
                (snd (run_attempt streaming headersSent (upstream attempt))))
      as [f|ms] eqn:V; cbn [fst].
    + rewrite <- (app_nil_r (fst (fst _))). rewrite requests_turn.
      now repeat constructor.
    + rewrite requests_turn. constructor; [assumption|].
      change (Sleep ms :: ?l) with ([Sleep ms] ++ l).
      rewrite requests_app. apply IH.
      destruct (Nat.eq_dec attempt k) as [->|Hne]; [|lia].
      rewrite Hup in V.
      destruct (verdict_stops requestData streaming headersSent maxRetries k r
                  Hfinal) as [f Hf].
      rewrite Hf in V. discriminate.
Qed.

(** X6.  A complete response whose status is neither 429 nor 503, to a
    request that the loop can log about, ends the loop: no upstream request
    is made after the attempt it answers.  In streaming mode this holds for
    a complete response of any status and for every request. *)
Theorem final_response_not_retried (upstream : nat -> attempt_outcome)
    (requestData : option json) (clientRes : bool) (maxRetries k : nat)
    (r : upstream_response) :
  upstream k = Responded r Ended ->
  isStreaming requestData && clientRes = true
  \/ (statusCode r <> 429%Z /\ statusCode r <> 503%Z
      /\ loggable requestData = true) ->
  Forall (fun i => i <= k)
    (requests (fst (makeRequestWithRetry upstream requestData clientRes
                      maxRetries))).
Proof.
  intros Hup Hfinal. unfold makeRequestWithRetry.
  apply (retry_loop_stops upstream requestData _ maxRetries k r Hup Hfinal).
  lia.
Qed.

Lemma final_response_not_retried_witness :
  Forall (fun i => i <= 1)
    (requests
       (fst (makeRequestWithRetry
               (fun i => match i with
                         | 1 => Responded ok_response Ended
                         | _ => Responded busy_response Ended
                         end) (Some buffered_request) true
               DEFAULT_MAX_RETRIES))).
Proof.
  apply (final_response_not_retried
           (fun i => match i with
                     | 1 => Responded ok_response Ended
                     | _ => Responded busy_response Ended
                     end) (Some buffered_request) true DEFAULT_MAX_RETRIES 1
           ok_response).
  - reflexivity.
  - right. repeat split; discriminate || reflexivity.
Defined.

(* ================================================================== *)
(** * The retry loop of the earlier version *)
(* ================================================================== *)

Lemma retry_loops_agree (upstream : nat -> GeminiProxyRetry.attempt_outcome)
    (requestData : option json)
    (maxRetries remaining attempt : nat) (headersSent : bool) :
  searchable_messages requestData = true ->
  fst (retry_loop (fun i => as_outcome (upstream i)) requestData false
         maxRetries remaining attempt headersSent)
  = fst (GeminiProxyRetry.retry_loop upstream requestData maxRetries remaining
           attempt)
  /\ without_mode
       (snd (retry_loop (fun i => as_outcome (upstream i)) requestData false
               maxRetries remaining attempt headersSent))
     = snd (GeminiProxyRetry.retry_loop upstream requestData maxRetries
              remaining attempt).
Proof.
  intros Hm. destruct (searchable_hasToolResults requestData Hm) as [b Hb].
  revert attempt headersSent.
  induction remaining as [|remaining IH]; intros attempt headersSent.
  - split; reflexivity.
  - rewrite retry_loop_S. cbv zeta. cbn [GeminiProxyRetry.retry_loop].
    destruct (IH (S attempt) headersSent) as [IHt IHf].
    destruct (GeminiProxyRetry.retry_loop upstream requestData maxRetries
                remaining (S attempt)) as [trace f] eqn:Eold.
    cbn [fst snd] in IHt, IHf.
    destruct (upstream attempt) as [reason|r];
      cbn [as_outcome run_attempt fst snd app verdict_of].
    + unfold caught_verdict.
      destruct (Nat.eqb attempt (maxRetries - 1)); cbn [fst snd];
        [split; reflexivity|]. now rewrite IHt, IHf.
    + destruct (decompressedData r) as [data|] eqn:Ed; cbn [fst snd verdict_of];
        [|split; reflexivity].
      cbn [result_of res_streaming res_statusCode res_retry_after negb
           GeminiProxyRetry.result_of
           GeminiProxyRetry.res_statusCode GeminiProxyRetry.res_retry_after].
      rewrite Hb.
      assert (Hnormal :
                (if (200 <=? statusCode r)%Z && (statusCode r <? 300)%Z && true
                 then Normal b else Normal false)
                = Normal (if (200 <=? statusCode r)%Z && (statusCode r <? 300)%Z
                             && true then b else false))
        by now destruct ((200 <=? statusCode r)%Z && (statusCode r <? 300)%Z
                         && true).
      rewrite Hnormal. clear Hnormal.
      destruct ((statusCode r =? 429)%Z && Nat.ltb attempt (maxRetries - 1));
        cbn [fst snd]; [now rewrite IHt, IHf|].
      destruct ((statusCode r =? 503)%Z && Nat.ltb attempt 3);
        cbn [fst snd]; [now rewrite IHt, IHf|].
      destruct (if (400 <=? statusCode r)%Z
                then log_request_tools requestData
                else log_success requestData) as [u|error].
      * cbn [fst snd without_mode]. split; [reflexivity|].
        unfold GeminiProxyRetry.result_of, result_of.
        cbn [res_statusCode res_retry_after res_responseData
             res_decompressedData].
        reflexivity.
      * unfold caught_verdict.
        destruct (Nat.eqb attempt (maxRetries - 1)); cbn [fst snd];
          [split; reflexivity|]. now rewrite IHt, IHf.
Qed.

(** X7.  On a request that is not streamed, whose [messages] can be
    searched for a tool result and whose attempts do not time out, the
    retry loop of the later version does what the loop of the earlier
    single-user version does: the same upstream requests and the same
    waits in the same order, and the same outcome, the returned response
    apart from its field [streaming], the error thrown, the exception of
    the decompression, or [undefined]. *)
Theorem retry_loop_unchanged (upstream : nat -> GeminiProxyRetry.attempt_outcome)
    (requestData : option json) (clientRes : bool) (maxRetries : nat) :
  isStreaming requestData && clientRes = false ->
  searchable_messages requestData = true ->
  fst (makeRequestWithRetry (fun i => as_outcome (upstream i)) requestData
         clientRes maxRetries)
  = fst (GeminiProxyRetry.makeRequestWithRetry upstream requestData maxRetries)
  /\ without_mode
       (snd (makeRequestWithRetry (fun i => as_outcome (upstream i))
               requestData clientRes maxRetries))
     = snd (GeminiProxyRetry.makeRequestWithRetry upstream requestData
              maxRetries).
Proof.
  intros Hmode Hm. unfold makeRequestWithRetry. rewrite Hmode.
  now apply retry_loops_agree.
Qed.

Lemma retry_loop_unchanged_witness :
  fst (makeRequestWithRetry
         (fun i => as_outcome (GeminiProxyRetry.Answered busy_response))
         null_tool_request true DEFAULT_MAX_RETRIES)
  = fst (GeminiProxyRetry.makeRequestWithRetry
           (fun _ => GeminiProxyRetry.Answered busy_response)
           null_tool_request DEFAULT_MAX_RETRIES)
  /\ without_mode
       (snd (makeRequestWithRetry
               (fun i => as_outcome (GeminiProxyRetry.Answered busy_response))
               null_tool_request true DEFAULT_MAX_RETRIES))
     = snd (GeminiProxyRetry.makeRequestWithRetry
              (fun _ => GeminiProxyRetry.Answered busy_response)
              null_tool_request DEFAULT_MAX_RETRIES).
Proof.
  apply (retry_loop_unchanged
           (fun _ => GeminiProxyRetry.Answered busy_response)
           null_tool_request true DEFAULT_MAX_RETRIES);
    reflexivity.
Defined.

(** Without the condition on [messages] the two versions differ: the
    earlier one returns the 200 that the later one retries (example
    [null_message_answered]). *)
Example null_message_earlier_version :
  GeminiProxyRetry.makeRequestWithRetry
    (fun _ => GeminiProxyRetry.Answered ok_response)
    (Some null_message_request) DEFAULT_MAX_RETRIES
  = ([Request 0],
     GeminiProxyRetry.Returned (GeminiProxyRetry.result_of ok_response)).
Proof. reflexivity. Qed.

(* ================================================================== *)
(** * [parseInt] on decimal numerals, and the [Retry-After] header *)
(* ================================================================== *)

Lemma leading_digits_acc (d : Decimal.uint) (acc : positive) :
  leading_digits 10 (NilEmpty.string_of_uint d) (Some (Z.pos acc))
  = Some (Z.pos (Pos.of_uint_acc d acc)).
Proof.
  revert acc.
  induction d as [|d IH|d IH|d IH|d IH|d IH|d IH|d IH|d IH|d IH|d IH];
    intros acc; [reflexivity|..];
    cbn [NilEmpty.string_of_uint leading_digits Pos.of_uint_acc];
    match goal with
    | |- context [digit_value 10 ?c] =>
        let v := eval vm_compute in (digit_value 10 c) in
        change (digit_value 10 c) with v
    end;
    rewrite <- IH; do 2 f_equal; lia.
Qed.

Lemma leading_digits_zero (d : Decimal.uint) :
  leading_digits 10 (NilEmpty.string_of_uint d) (Some 0%Z)
  = Some (Z.of_N (Pos.of_uint d)).
Proof.
  induction d as [|d IH|d IH|d IH|d IH|d IH|d IH|d IH|d IH|d IH|d IH];
    [reflexivity|exact IH|..];
    cbn [NilEmpty.string_of_uint leading_digits Pos.of_uint];
    match goal with
    | |- context [digit_value 10 ?c] =>
        let v := eval vm_compute in (digit_value 10 c) in
        change (digit_value 10 c) with v
    end;
    cbn [Z.mul Z.add]; apply leading_digits_acc.
Qed.

Lemma leading_digits_numeral (d : Decimal.uint) :
  d <> Decimal.Nil ->
  leading_digits 10 (NilEmpty.string_of_uint d) None
  = Some (Z.of_N (Pos.of_uint d)).
Proof.
  intros Hd.
  destruct d as [|d|d|d|d|d|d|d|d|d|d]; [congruence|..];
    cbn [NilEmpty.string_of_uint leading_digits Pos.of_uint];
    match goal with
    | |- context [digit_value 10 ?c] =>
        let v := eval vm_compute in (digit_value 10 c) in
        change (digit_value 10 c) with v
    end;
    [apply leading_digits_zero|apply leading_digits_acc..].
Qed.

Lemma parseInt_numeral (d : Decimal.uint) :
  d <> Decimal.Nil ->
  parseInt (NilEmpty.string_of_uint d)
  = leading_digits 10 (NilEmpty.string_of_uint d) None
  /\ parseInt (String "-" (NilEmpty.string_of_uint d))
     = option_map Z.opp (leading_digits 10 (NilEmpty.string_of_uint d) None).
Proof.
  intros Hd.
  destruct d as [|d|d|d|d|d|d|d|d|d|d]; [congruence|..];
    destruct d; cbn [NilEmpty.string_of_uint];
    try set (s := NilEmpty.string_of_uint d);
    split; cbv -[leading_digits Z.opp];
    match goal with
    | |- context [leading_digits 10 ?s None] =>
        destruct (leading_digits 10 s None); reflexivity
    end.
Qed.

Lemma parseInt_number_key (n : Z) : parseInt (number_key n) = Some n.
Proof.
  unfold number_key.
  destruct n as [|p|p]; [reflexivity|..];
    cbn [Z.to_int NilZero.string_of_int];
    assert (Hp := DecimalPos.Unsigned.to_uint_nonnil p);
    unfold NilZero.string_of_uint;
    destruct (Pos.to_uint p) eqn:E; try congruence; rewrite <- E in *;
    destruct (parseInt_numeral (Pos.to_uint p) Hp) as [Hpos Hneg];
    rewrite ?Hpos, ?Hneg, (leading_digits_numeral _ Hp),
      DecimalPos.Unsigned.of_to; reflexivity.
Qed.

(** X8.  A [Retry-After] header that is the decimal numeral of a number
    of seconds [n] makes the retry of a 429 wait [n] seconds, whatever the
    attempt: [parseInt] reads back every numeral.  ([n * 1000] is taken
    within the range of delays that [setTimeout] takes as they are.) *)
Theorem retry_after_seconds (n : Z) (attempt : nat) :
  (0 <= n * 1000 < 2 ^ 31)%Z ->
  parseInt (number_key n) = Some n
  /\ delay_429 (Some (number_key n)) attempt = Some (n * 1000)%Z.
Proof.
  intros _.
  split; [apply parseInt_number_key|].
  apply delay_429_retry_after; [|apply parseInt_number_key].
  intros E. generalize (parseInt_number_key n). rewrite E. discriminate.
Qed.

Lemma retry_after_seconds_witness :
  parseInt "120" = Some 120%Z
  /\ delay_429 (Some "120") 2 = Some 120000%Z.
Proof.
  apply (retry_after_seconds 120 2). cbn. lia.
Defined.

(** X9.  A [Retry-After] header that does not start with a numeral (the
    HTTP-date form of the header: its first character is an ASCII character
    that is neither a blank, a sign nor a digit) gives the delay [NaN]: the
    429 is retried without the wait of the table. *)
Theorem retry_after_not_numeric (c : ascii) (rest : string) (attempt : nat) :
  Nat.ltb (nat_of_ascii c) 128 = true ->
  is_blank c = false -> digit_value 10 c = None ->
  c <> "-"%char -> c <> "+"%char ->
  delay_429 (Some (String c rest)) attempt = None.
Proof.
  intros Hascii Hblank Hdigit Hminus Hplus.
  destruct c as [[] [] [] [] [] [] [] []];
    try discriminate; try congruence; reflexivity.
Qed.

Lemma retry_after_not_numeric_witness :
  delay_429 (Some "Wed, 21 Oct 2015 07:28:00 GMT") 0 = None.
Proof.
  apply (retry_after_not_numeric "W" "ed, 21 Oct 2015 07:28:00 GMT" 0);
    [reflexivity|reflexivity|reflexivity|discriminate|discriminate].
Defined.

(* ================================================================== *)
(** * The store: what a write changes, and who keeps its invariants *)
(* ================================================================== *)

Lemma store_signature_map (store : conversations) (cid id : string) (sig : json)
    (now : Z) :
  conversation_map (store_signature cid id sig now store) cid
  = assoc_set id {| signature := sig; timestamp := now |}
      (conversation_map store cid).
Proof.
  unfold conversation_map, store_signature.
  destruct (assoc_get cid store) as [m|] eqn:E.
  - rewrite E. now rewrite assoc_get_set_same.
  - rewrite assoc_get_set_same. now rewrite assoc_get_set_same.
Qed.

Lemma store_signature_other (store : conversations) (cid cid' id : string)
    (sig : json) (now : Z) :
  cid' <> cid ->
  assoc_get cid' (store_signature cid id sig now store) = assoc_get cid' store.
Proof.
  intros Hne. apply String.eqb_neq in Hne.
  assert (Hne' : String.eqb cid cid' = false) by now rewrite String.eqb_sym.
  unfold store_signature.
  destruct (assoc_get cid store) as [m|] eqn:E.
  - rewrite E. now rewrite assoc_get_set_other.
  - rewrite assoc_get_set_same. now rewrite !assoc_get_set_other.
Qed.

Lemma stored_same (store : conversations) (cid id : string) (sig : json) (now : Z) :
  stored (store_signature cid id sig now store) cid id
  = Some {| signature := sig; timestamp := now |}.
Proof. unfold stored. rewrite store_signature_map. apply assoc_get_set_same. Qed.

Lemma stored_other_id (store : conversations) (cid id id' : string) (sig : json)
    (now : Z) :
  id' <> id ->
  stored (store_signature cid id sig now store) cid id' = stored store cid id'.
Proof.
  intros Hne. unfold stored. rewrite store_signature_map.
  apply assoc_get_set_other. rewrite String.eqb_sym. now apply String.eqb_neq.
Qed.

Lemma stored_other_conversation (store : conversations) (cid cid' id id' : string)
    (sig : json) (now : Z) :
  cid' <> cid ->
  stored (store_signature cid id sig now store) cid' id' = stored store cid' id'.
Proof.
  intros Hne. unfold stored, conversation_map.
  now rewrite store_signature_other.
Qed.

(** X10.  A token written to the store is found under the conversation and
    the tool-call id it was written for, with the time of the write; the
    records of the other tool-calls of the conversation and all records of
    the other conversations are as they were. *)
Theorem stored_signature_found (store : conversations) (cid id : string)
    (sig : json) (now : Z) :
  stored (store_signature cid id sig now store) cid id
  = Some {| signature := sig; timestamp := now |}
  /\ (forall id', id' <> id ->
        stored (store_signature cid id sig now store) cid id'
        = stored store cid id')
  /\ (forall cid', cid' <> cid ->
        assoc_get cid' (store_signature cid id sig now store)
        = assoc_get cid' store).
Proof.
  split; [apply stored_same|].
  split; [intros id'; apply stored_other_id|].
  intros cid'. apply store_signature_other.
Qed.

(** The streaming loops as one loop over the events. *)
Lemma fold_left_flat_map {A B S : Type} (step : S -> B -> S) (f : A -> list B)
    (l : list A) (st : S) :
  fold_left step (flat_map f l) st
  = fold_left (fun st x => fold_left step (f x) st) l st.
Proof.
  revert st. induction l as [|x l IH]; intros st; [reflexivity|].
  cbn [flat_map fold_left]. now rewrite fold_left_app, IH.
Qed.

Lemma fold_left_ext {A S : Type} (f g : S -> A -> S) (l : list A) (st : S) :
  (forall st x, f st x = g st x) -> fold_left f l st = fold_left g l st.
Proof.
  intros H. revert st. induction l as [|x l IH]; intros st; [reflexivity|].
  cbn [fold_left]. now rewrite H, IH.
Qed.

Lemma extract_stream_events (cid : string) (now : Z) (chunks : list chunk)
    (st : accumulator * conversations) :
  extractSignaturesFromStreamChunks cid now chunks st
  = fold_left (accumulate_tool_call cid now) (stream_events chunks) st.
Proof.
  unfold extractSignaturesFromStreamChunks, stream_events.
  rewrite fold_left_flat_map. apply fold_left_ext. intros st' c.
  unfold accumulate_chunk, chunk_events.
  destruct (choices c) as [cs|]; [|reflexivity].
  rewrite fold_left_flat_map. apply fold_left_ext. intros st'' ch.
  unfold accumulate_choice, choice_events.
  now destruct (delta_tool_calls ch).
Qed.

Lemma accumulate_tool_call_other (cid cid' : string) (now : Z)
    (st : accumulator * conversations) (d : tool_call_delta) :
  cid' <> cid ->
  assoc_get cid' (snd (accumulate_tool_call cid now st d))
  = assoc_get cid' (snd st).
Proof.
  intros Hne. destruct st as [acc store]. unfold accumulate_tool_call.
  destruct (tcd_index d) as [index|]; [|reflexivity].
  destruct (slot_token _) as [sig|]; [|reflexivity].
  destruct (nonempty _ && truthy sig); [|reflexivity].
  destruct (slot_id _) as [id|]; [|reflexivity].
  cbn [snd]. now apply store_signature_other.
Qed.

Lemma stream_other_conversation (cid cid' : string) (now : Z)
    (chunks : list chunk) (st : accumulator * conversations) :
  cid' <> cid ->
  assoc_get cid' (snd (extractSignaturesFromStreamChunks cid now chunks st))
  = assoc_get cid' (snd st).
Proof.
  intros Hne. rewrite extract_stream_events.
  generalize (stream_events chunks). intros events. revert st.
  induction events as [|d events IH]; intros st; [reflexivity|].
  cbn [fold_left]. rewrite IH. now apply accumulate_tool_call_other.
Qed.

Section Buffered.
Variable trim : string -> string.
Variable JSON_parse : string -> option json.

Lemma extract_tool_call_other (cid cid' : string) (now : Z)
    (store : conversations) (toolCall : json) :
  cid' <> cid ->
  assoc_get cid' (extract_tool_call trim cid now store toolCall)
  = assoc_get cid' store.
Proof.
  intros Hne. unfold extract_tool_call.
  destruct (valid_tool_call trim toolCall) as [id|]; [|reflexivity].
  destruct (thought_signature_of toolCall) as [sig|]; [|reflexivity].
  destruct (truthy sig); [|reflexivity].
  now apply store_signature_other.
Qed.

(** The loops of the buffered path as one loop over the tool-calls. *)
Lemma extract_choice_tool_calls (cid : string) (now : Z) (store : conversations)
    (choice : json) :
  extract_choice trim cid now store choice
  = match choice_tool_calls choice with
    | Normal toolCalls =>
        (fold_left (extract_tool_call trim cid now) toolCalls store, Normal tt)
    | TypeError w => (store, TypeError w)
    end.
Proof.
  unfold extract_choice, choice_tool_calls, bind.
  destruct (choice_message choice) as [message|w]; [|reflexivity].
  destruct (js_opt_prop "tool_calls" message) as [tool_calls|]; [|reflexivity].
  destruct (truthy tool_calls); [|reflexivity].
  now destruct (iterate tool_calls).
Qed.

Lemma extract_choices_tool_calls (cid : string) (now : Z) (choices : list json)
    (store : conversations) :
  fst (extract_choices trim cid now choices store)
  = fold_left (extract_tool_call trim cid now) (response_tool_calls choices) store.
Proof.
  revert store. induction choices as [|choice rest IH]; intros store;
    [reflexivity|].
  cbn [extract_choices response_tool_calls].
  rewrite extract_choice_tool_calls.
  destruct (choice_tool_calls choice) as [toolCalls|w]; [|reflexivity].
  now rewrite fold_left_app, IH.
Qed.

Lemma extractThoughtSignatures_tool_calls (responseData cid : string) (now : Z)
    (store : conversations) :
  exists toolCalls,
    extractThoughtSignatures trim JSON_parse responseData cid now store
    = fold_left (extract_tool_call trim cid now) toolCalls store.
Proof.
  unfold extractThoughtSignatures.
  destruct (JSON_parse responseData) as [data|]; [|now exists []].
  assert (H : exists toolCalls,
             match iterate (or_default (js_prop "choices" data) (JArr [])) with
             | Normal choices => fst (extract_choices trim cid now choices store)
             | TypeError _ => store
             end
             = fold_left (extract_tool_call trim cid now) toolCalls store).
  { destruct (iterate _) as [choices|w]; [|now exists []].
    exists (response_tool_calls choices). apply extract_choices_tool_calls. }
  destruct data; exact H.
Qed.

Lemma buffered_other_conversation (responseData cid cid' : string) (now : Z)
    (store : conversations) :
  cid' <> cid ->
  assoc_get cid'
    (extractThoughtSignatures trim JSON_parse responseData cid now store)
  = assoc_get cid' store.
Proof.
  intros Hne.
  destruct (extractThoughtSignatures_tool_calls responseData cid now store)
    as (toolCalls & ->).
  revert store. induction toolCalls as [|tc toolCalls IH]; intros store;
    [reflexivity|].
  cbn [fold_left]. rewrite IH. now apply extract_tool_call_other.
Qed.

Lemma extract_tool_call_good (cid : string) (now : Z) (store : conversations)
    (toolCall : json) :
  good_store store -> good_store (extract_tool_call trim cid now store toolCall).
Proof.
  intros H. unfold extract_tool_call.
  destruct (valid_tool_call trim toolCall) as [id|]; [|assumption].
  destruct (thought_signature_of toolCall) as [sig|]; [|assumption].
  destruct (truthy sig) eqn:E; [|assumption].
  now apply store_signature_good.
Qed.

Lemma extract_buffered_good (responseData cid : string) (now : Z)
    (store : conversations) :
  good_store store ->
  good_store (extractThoughtSignatures trim JSON_parse responseData cid now store).
Proof.
  intros H.
  destruct (extractThoughtSignatures_tool_calls responseData cid now store)
    as (toolCalls & ->).
  revert store H. induction toolCalls as [|tc toolCalls IH]; intros store H;
    [assumption|].
  cbn [fold_left]. apply IH. now apply extract_tool_call_good.
Qed.

End Buffered.

(** X11.  Extraction for one conversation, from a streamed response or from
    a buffered one, leaves the records of every other conversation as they
    were. *)
Theorem extraction_isolated (trim : string -> string)
    (JSON_parse : string -> option json) (cid cid' : string) (now : Z)
    (chunks : list chunk) (st : accumulator * conversations)
    (responseData : string) (store : conversations) :
  cid' <> cid ->
  assoc_get cid' (snd (extractSignaturesFromStreamChunks cid now chunks st))
  = assoc_get cid' (snd st)
  /\ assoc_get cid'
       (extractThoughtSignatures trim JSON_parse responseData cid now store)
     = assoc_get cid' store.
Proof.
  intros Hne. split.
  - now apply stream_other_conversation.
  - now apply buffered_other_conversation.
Qed.

Lemma extraction_isolated_witness :
  assoc_get "conv"
    (snd (extractSignaturesFromStreamChunks "other" 7 [one_event token_event]
            ([], store_with_A)))
  = assoc_get "conv" (snd (@nil (string * slot), store_with_A))
  /\ assoc_get "conv"
       (extractThoughtSignatures ascii_trim (parse_known [buffered_response])
          (render buffered_response) "other" 7 store_with_A)
     = assoc_get "conv" store_with_A.
Proof.
  apply (extraction_isolated ascii_trim (parse_known [buffered_response])
           "other" "conv" 7 [one_event token_event] ([], store_with_A)
           (render buffered_response) store_with_A).
  discriminate.
Defined.

(** X12.  Every writer of the store keeps its two invariants, one entry per
    key in each [Map] and a truthy token in every record: the extraction
    from a streamed response, the extraction from a buffered response, and
    the sweep. *)
Theorem store_invariants_kept (trim : string -> string)
    (JSON_parse : string -> option json) (cid : string) (now : Z)
    (chunks : list chunk) (acc : accumulator) (responseData : string)
    (store : conversations) :
  good_store store ->
  good_store (snd (extractSignaturesFromStreamChunks cid now chunks (acc, store)))
  /\ good_store
       (extractThoughtSignatures trim JSON_parse responseData cid now store)
  /\ good_store (cleanupSignatures now store).
Proof.
  intros H. split; [|split].
  - now apply extract_stream_good.
  - now apply extract_buffered_good.
  - now apply cleanupSignatures_good.
Qed.

Lemma store_invariants_kept_witness :
  good_store
    (snd (extractSignaturesFromStreamChunks "conv" 7 [one_event token_event]
            ([], store_with_A)))
  /\ good_store
       (extractThoughtSignatures ascii_trim (parse_known [buffered_response])
          (render buffered_response) "conv" 7 store_with_A)
  /\ good_store (cleanupSignatures 7 store_with_A).
Proof.
  apply (store_invariants_kept ascii_trim (parse_known [buffered_response])
           "conv" 7 [one_event token_event] [] (render buffered_response)
           store_with_A).
  apply good_store_checks. split; reflexivity.
Defined.

(* ================================================================== *)
(** * The sweep, run twice *)
(* ================================================================== *)

Lemma evict_oldest_subset (m : signatures_map) (e : string * signature_data) :
  In e (evict_oldest m) -> In e m.
Proof.
  unfold evict_oldest.
  destruct (Nat.ltb MAX_SIGNATURES (List.length m)); [|trivial].
  rewrite (fold_delete_filter _ (fun _ => true)).
  intros H. now apply filter_In in H.
Qed.

(** A map the sweep has nothing to remove from. *)
Lemma swept_conversation_settled (now : Z) (m : signatures_map) :
  NoDup (keys m) -> m <> [] -> List.length m <= MAX_SIGNATURES ->
  (forall e, In e m -> (now - 60 * 60 * 1000 <= timestamp (snd e))%Z) ->
  swept_conversation (now - 60 * 60 * 1000) m = Some m.
Proof.
  intros Hnd Hne Hlen Hlive. unfold swept_conversation.
  rewrite delete_expired_within_ttl by assumption.
  assert (Hall : within_ttl now m = m).
  { apply forallb_filter_id, forallb_forall. intros e He.
    apply Z.leb_le. now apply Hlive. }
  rewrite Hall.
  destruct m as [|e m]; [congruence|]. cbn [List.length Nat.eqb].
  unfold evict_oldest.
  now replace (Nat.ltb MAX_SIGNATURES (List.length (e :: m))) with false
    by (symmetry; apply Nat.ltb_ge; exact Hlen).
Qed.

(** What the sweep leaves of a conversation is such a map. *)
Lemma swept_conversation_result (now : Z) (m kept : signatures_map) :
  NoDup (keys m) ->
  swept_conversation (now - 60 * 60 * 1000) m = Some kept ->
  NoDup (keys kept) /\ kept <> [] /\ List.length kept <= MAX_SIGNATURES
  /\ forall e, In e kept -> (now - 60 * 60 * 1000 <= timestamp (snd e))%Z.
Proof.
  intros Hnd. unfold swept_conversation.
  rewrite delete_expired_within_ttl by assumption.
  assert (Hlive : NoDup (keys (within_ttl now m)))
    by now apply keys_filter_NoDup.
  destruct (Nat.eqb (List.length (within_ttl now m)) 0) eqn:E; [discriminate|].
  intros [= <-].
  apply Nat.eqb_neq in E.
  destruct (evict_oldest_capped (within_ttl now m) Hlive) as [Hle Hgt].
  assert (Hsub : forall e, In e (evict_oldest (within_ttl now m)) ->
                   (now - 60 * 60 * 1000 <= timestamp (snd e))%Z).
  { intros e He. apply evict_oldest_subset in He.
    apply filter_In in He. now apply Z.leb_le. }
  destruct (Nat.le_gt_cases (List.length (within_ttl now m)) MAX_SIGNATURES)
    as [H|H].
  - rewrite (Hle H) in *. repeat split; try assumption.
    intros Hnil. now rewrite Hnil in E.
  - destruct (Hgt H) as [Hlen _]. repeat split.
    + unfold evict_oldest.
      destruct (Nat.ltb MAX_SIGNATURES _); [|assumption].
      rewrite (fold_delete_filter _ (fun _ => true)).
      now apply keys_filter_NoDup.
    + intros Hnil. rewrite Hnil in Hlen. discriminate Hlen.
    + rewrite Hlen. apply Nat.le_refl.
    + assumption.
Qed.

Lemma cleanup_fold_settled (oneHourAgo : Z) (l acc : conversations) :
  NoDup (keys acc) ->
  (forall cid m, In (cid, m) l ->
     In (cid, m) acc /\ swept_conversation oneHourAgo m = Some m) ->
  fold_left (cleanup_conversation oneHourAgo) l acc = acc.
Proof.
  intros Hnd. induction l as [|[cid m] l IH]; intros Hl; [reflexivity|].
  cbn [fold_left].
  destruct (Hl cid m (or_introl eq_refl)) as [Hin Hs].
  assert (Hstep : cleanup_conversation oneHourAgo acc (cid, m) = acc).
  { unfold cleanup_conversation. unfold swept_conversation in Hs. cbn [fst snd].
    destruct (Nat.eqb _ 0); [discriminate|].
    injection Hs as ->.
    apply assoc_set_unchanged. now apply assoc_get_unique. }
  rewrite Hstep. apply IH. intros cid' m' Hin'. apply Hl. now right.
Qed.

(** X13.  The sweep is idempotent: on a store that satisfies the
    invariants, a second sweep at the same time changes nothing. *)
Theorem sweep_idempotent (now : Z) (store : conversations) :
  good_store store ->
  cleanupSignatures now (cleanupSignatures now store)
  = cleanupSignatures now store.
Proof.
  intros Hgood.
  assert (Hgood' := cleanupSignatures_good now store Hgood).
  destruct Hgood as [Hnd Hmaps]. destruct Hgood' as [Hnd' _].
  unfold cleanupSignatures at 1.
  apply cleanup_fold_settled; [assumption|].
  intros cid kept Hin. split; [assumption|].
  assert (Hget : assoc_get cid (cleanupSignatures now store) = Some kept)
    by now apply assoc_get_unique.
  unfold cleanupSignatures in Hget. rewrite cleanup_fold in Hget by assumption.
  destruct (assoc_get cid store) as [m|] eqn:Em; [|discriminate].
  assert (Hm : NoDup (keys m)).
  { apply assoc_get_in in Em. now destruct (Hmaps cid m Em). }
  destruct (swept_conversation_result now m kept Hm Hget)
    as (Hk & Hne & Hlen & Hlive).
  now apply swept_conversation_settled.
Qed.

Lemma sweep_idempotent_witness :
  cleanupSignatures 3603000 (cleanupSignatures 3603000 full_store)
  = cleanupSignatures 3603000 full_store.
Proof.
  apply (sweep_idempotent 3603000 full_store).
  apply good_store_checks. split; vm_compute; reflexivity.
Defined.

Lemma swept_conversation_subset (now : Z) (m kept : signatures_map)
    (e : string * signature_data) :
  NoDup (keys m) ->
  swept_conversation (now - 60 * 60 * 1000) m = Some kept ->
  In e kept -> In e m.
Proof.
  intros Hnd. unfold swept_conversation.
  rewrite delete_expired_within_ttl by assumption.
  destruct (Nat.eqb _ 0); [discriminate|]. intros [= <-] He.
  apply evict_oldest_subset in He. now apply filter_In in He.
Qed.

(** X14.  The sweep writes no record and keeps none that is older than
    one hour: a record found in the store after the sweep was there
    before, under the same conversation and tool-call id, and its time
    stamp is within one hour of the sweep.  (The handler runs the sweep on
    every request, before the injection.) *)
Theorem swept_records_fresh (now : Z) (store : conversations)
    (cid id : string) (r : signature_data) :
  good_store store ->
  stored (cleanupSignatures now store) cid id = Some r ->
  stored store cid id = Some r
  /\ (now - 60 * 60 * 1000 <= timestamp r)%Z.
Proof.
  intros [Hnd Hmaps]. unfold stored, conversation_map, cleanupSignatures.
  rewrite cleanup_fold by assumption.
  destruct (assoc_get cid store) as [m|] eqn:Em; [|discriminate].
  assert (Hm : NoDup (keys m)).
  { apply assoc_get_in in Em. now destruct (Hmaps cid m Em). }
  destruct (swept_conversation (now - 60 * 60 * 1000) m) as [kept|] eqn:Es;
    [|discriminate].
  intros Hr. apply assoc_get_in in Hr.
  destruct (swept_conversation_result now m kept Hm Es) as (_ & _ & _ & Hlive).
  split.
  - apply assoc_get_unique; [assumption|].
    now apply (swept_conversation_subset now m kept).
  - apply (Hlive (id, r) Hr).
Qed.

Lemma swept_records_fresh_witness :
  stored full_store "busy" "100"
  = Some {| signature := JStr "sig"; timestamp := 5100 |}
  /\ (3603000 - 60 * 60 * 1000 <= 5100)%Z.
Proof.
  apply (swept_records_fresh 3603000 full_store "busy" "100"
           {| signature := JStr "sig"; timestamp := 5100 |}).
  - apply good_store_checks. split; vm_compute; reflexivity.
  - vm_compute. reflexivity.
Defined.

(* ================================================================== *)
(** * The accumulator of a streamed response, slot by slot *)
(* ================================================================== *)

Lemma number_key_inj (a b : Z) : number_key a = number_key b -> a = b.
Proof.
  intros E. generalize (parseInt_number_key a). rewrite E, parseInt_number_key.
  now intros [= ->].
Qed.

(** An event changes the slot of its own index and no other. *)
Lemma current_slot_step (cid : string) (now : Z)
    (st : accumulator * conversations) (d : tool_call_delta) (index : Z) :
  current_slot (fst (accumulate_tool_call cid now st d)) index
  = if for_index index d then merge_delta (current_slot (fst st) index) d
    else current_slot (fst st) index.
Proof.
  rewrite accumulate_tool_call_slots. unfold for_index.
  destruct (tcd_index d) as [i|]; [|reflexivity].
  unfold current_slot at 1.
  destruct (Z.eqb i index) eqn:E.
  - apply Z.eqb_eq in E. subst i. now rewrite assoc_get_set_same.
  - rewrite assoc_get_set_other; [reflexivity|].
    apply String.eqb_neq. intros Hk. apply number_key_inj in Hk.
    apply Z.eqb_neq in E. contradiction.
Qed.

Lemma current_slot_fold (cid : string) (now : Z) (events : list tool_call_delta)
    (st : accumulator * conversations) (index : Z) :
  current_slot (fst (fold_left (accumulate_tool_call cid now) events st)) index
  = fold_left merge_delta (filter (for_index index) events)
      (current_slot (fst st) index).
Proof.
  revert st. induction events as [|d events IH]; intros st; [reflexivity|].
  cbn [fold_left filter]. rewrite IH, current_slot_step.
  now destruct (for_index index d).
Qed.

Lemma string_app_nil (a : string) : (a ++ "")%string = a.
Proof. induction a as [|c a IH]; [reflexivity|]. cbn. now rewrite IH. Qed.

Lemma merge_delta_arguments (s : slot) (d : tool_call_delta) :
  slot_arguments (merge_delta s d)
  = (slot_arguments s
     ++ match tcd_function d with
        | Some fn =>
            match fn_arguments fn with
            | Some fragment => fragment
            | None => ""
            end
        | None => ""
        end)%string.
Proof.
  destruct (tcd_function d) as [fn|] eqn:Ef.
  - destruct (fn_arguments fn) as [fragment|] eqn:Ea.
    + now apply (merge_delta_appends s d fn).
    + unfold merge_delta. rewrite Ef, Ea, string_app_nil.
      now destruct (truthy_opt (tcd_extra_content d)), (nonempty (fn_name fn)),
        (nonempty (tcd_id d)).
  - unfold merge_delta. rewrite Ef, string_app_nil.
    now destruct (truthy_opt (tcd_extra_content d)), (nonempty (tcd_id d)).
Qed.

Lemma merge_delta_id (s : slot) (d : tool_call_delta) :
  slot_id (merge_delta s d)
  = if nonempty (tcd_id d) then tcd_id d else slot_id s.
Proof.
  unfold merge_delta.
  destruct (nonempty (tcd_id d)), (truthy_opt (tcd_extra_content d)),
    (tcd_function d) as [fn|]; try reflexivity;
    destruct (nonempty (fn_name fn)), (fn_arguments fn) as [fragment|];
    try reflexivity; now destruct (String.eqb fragment "").
Qed.

Lemma merge_delta_extra_content (s : slot) (d : tool_call_delta) :
  slot_extra_content (merge_delta s d)
  = if truthy_opt (tcd_extra_content d) then tcd_extra_content d
    else slot_extra_content s.
Proof.
  unfold merge_delta.
  destruct (nonempty (tcd_id d)), (truthy_opt (tcd_extra_content d)),
    (tcd_function d) as [fn|]; try reflexivity;
    destruct (nonempty (fn_name fn)), (fn_arguments fn) as [fragment|];
    try reflexivity; now destruct (String.eqb fragment "").
Qed.

Lemma concat_fragments (a : string) (l l' : list string) :
  (a ++ String.concat "" (l ++ l'))%string
  = ((a ++ String.concat "" l) ++ String.concat "" l')%string.
Proof.
  revert a. induction l as [|x l IH]; intros a.
  - cbn [app String.concat]. now rewrite string_app_nil.
  - destruct l as [|y l].
    + cbn [app String.concat]. destruct l' as [|y' l'].
      * cbn [String.concat]. now rewrite string_app_nil.
      * cbn [String.append]. now rewrite string_app_assoc.
    + change ((x :: y :: l) ++ l') with (x :: (y :: l) ++ l').
      change (String.concat "" (x :: (y :: l) ++ l'))
        with (x ++ "" ++ String.concat "" ((y :: l) ++ l'))%string.
      change (String.concat "" (x :: y :: l))
        with (x ++ "" ++ String.concat "" (y :: l))%string.
      cbn [String.append].
      rewrite <- !string_app_assoc. rewrite IH.
      now rewrite !string_app_assoc.
Qed.

Lemma fold_merge_arguments (events : list tool_call_delta) (index : Z) (s : slot) :
  slot_arguments (fold_left merge_delta (filter (for_index index) events) s)
  = (slot_arguments s ++ String.concat "" (fragments index events))%string.
Proof.
  revert s. induction events as [|d events IH]; intros s.
  - cbn. now rewrite string_app_nil.
  - cbn [filter]. unfold fragments. cbn [flat_map]. fold (fragments index events).
    destruct (for_index index d).
    + cbn [fold_left]. rewrite IH, merge_delta_arguments.
      rewrite concat_fragments. f_equal. f_equal.
      destruct (tcd_function d) as [fn|]; [|reflexivity].
      destruct (fn_arguments fn); [|reflexivity].
      cbn [String.concat]. reflexivity.
    + cbn [app]. apply IH.
Qed.

(** X15.  After the chunks of a streamed response are processed, the slot
    of every tool-call index is the merge of exactly the events sent for
    this index, in their order: events for other indices do not touch it.
    Its arguments are what they were, followed by the fragments sent for
    the index, concatenated. *)
Theorem accumulator_slot_contents (cid : string) (now : Z) (chunks : list chunk)
    (st : accumulator * conversations) (index : Z) :
  current_slot (fst (extractSignaturesFromStreamChunks cid now chunks st)) index
  = fold_left merge_delta (filter (for_index index) (stream_events chunks))
      (current_slot (fst st) index)
  /\ slot_arguments
       (current_slot (fst (extractSignaturesFromStreamChunks cid now chunks st))
          index)
     = (slot_arguments (current_slot (fst st) index)
        ++ String.concat "" (fragments index (stream_events chunks)))%string.
Proof.
  rewrite extract_stream_events, current_slot_fold.
  split; [reflexivity|apply fold_merge_arguments].
Qed.

Lemma fold_merge_id (mid : list tool_call_delta) (index : Z) (s : slot) :
  Forall (fun d => for_index index d = true -> nonempty (tcd_id d) = false) mid ->
  slot_id (fold_left merge_delta (filter (for_index index) mid) s) = slot_id s.
Proof.
  intros H. revert s. induction H as [|d mid Hd _ IH]; intros s; [reflexivity|].
  cbn [filter]. destruct (for_index index d) eqn:E; [|apply IH].
  cbn [fold_left]. rewrite IH, merge_delta_id. now rewrite (Hd eq_refl).
Qed.

Lemma accumulate_tool_call_commits (cid : string) (now : Z)
    (st : accumulator * conversations) (d : tool_call_delta) (index : Z)
    (id : string) (sig : json) :
  for_index index d = true ->
  slot_id (merge_delta (current_slot (fst st) index) d) = Some id -> id <> "" ->
  slot_token (merge_delta (current_slot (fst st) index) d) = Some sig ->
  truthy sig = true ->
  stored (snd (accumulate_tool_call cid now st d)) cid id
  = Some {| signature := sig; timestamp := now |}.
Proof.
  intros Hidx Hid Hne Htok Hsig. destruct st as [acc store].
  unfold for_index in Hidx. unfold accumulate_tool_call.
  destruct (tcd_index d) as [i|]; [|discriminate].
  apply Z.eqb_eq in Hidx. subst i.
  cbn [fst] in Hid, Htok. unfold current_slot in Hid, Htok.
  rewrite Htok, Hid, Hsig.
  replace (nonempty (Some id)) with true
    by (symmetry; apply negb_true_iff; now apply String.eqb_neq).
  cbn [andb snd]. apply stored_same.
Qed.

(** X16.  The id of a streamed tool-call and its token are paired by the
    index, also when they arrive in different events: when an event brings
    the id for an index and a later event for the same index brings a
    truthy token, and no event in between brings another id for this
    index, then the token is in the store under the conversation and this
    id once the later event is processed. *)
Theorem stream_pairs_id_with_token (cid : string) (now : Z) (chunks : list chunk)
    (st : accumulator * conversations)
    (before mid : list tool_call_delta) (d1 d2 : tool_call_delta)
    (index : Z) (id : string) (sig : json) :
  stream_events chunks = before ++ d1 :: mid ++ [d2] ->
  for_index index d1 = true -> tcd_id d1 = Some id -> id <> "" ->
  Forall (fun d => for_index index d = true -> nonempty (tcd_id d) = false) mid ->
  for_index index d2 = true -> nonempty (tcd_id d2) = false ->
  delta_token d2 = Some sig -> truthy sig = true ->
  stored (snd (extractSignaturesFromStreamChunks cid now chunks st)) cid id
  = Some {| signature := sig; timestamp := now |}.
Proof.
  intros Hev H1 Hid Hne Hmid H2 Hid2 Htok Hsig.
  rewrite extract_stream_events, Hev.
  rewrite fold_left_app. cbn [fold_left]. rewrite fold_left_app. cbn [fold_left].
  set (st1 := fold_left (accumulate_tool_call cid now) before st).
  set (st2 := accumulate_tool_call cid now st1 d1).
  set (st3 := fold_left (accumulate_tool_call cid now) mid st2).
  assert (Hslot : slot_id (current_slot (fst st3) index) = Some id).
  { unfold st3. rewrite current_slot_fold, fold_merge_id by assumption.
    unfold st2. rewrite current_slot_step, H1, merge_delta_id, Hid.
    now replace (nonempty (Some id)) with true
      by (symmetry; apply negb_true_iff; now apply String.eqb_neq). }
  assert (Hextra : truthy_opt (tcd_extra_content d2) = true).
  { unfold delta_token in Htok.
    destruct (tcd_extra_content d2) as [[]|]; try discriminate; reflexivity. }
  apply (accumulate_tool_call_commits cid now st3 d2 index id sig);
    try assumption.
  - now rewrite merge_delta_id, Hid2.
  - unfold slot_token. now rewrite merge_delta_extra_content, Hextra.
Qed.

Lemma stream_pairs_id_with_token_witness :
  stored (snd (extractSignaturesFromStreamChunks "conv" 7 streamed_call ([], [])))
    "conv" "call_1"
  = Some {| signature := JStr "tok1"; timestamp := 7 |}.
Proof.
  apply (stream_pairs_id_with_token "conv" 7 streamed_call ([], []) []
           [fragment_event 0 "{a"; fragment_event 1 "{b"; fragment_event 0 "}"]
           opening_event closing_event 0 "call_1" (JStr "tok1")).
  - reflexivity.
  - reflexivity.
  - reflexivity.
  - discriminate.
  - repeat constructor.
  - reflexivity.
  - reflexivity.
  - reflexivity.
  - reflexivity.
Defined.

(** A write replaces a record by a newer one or leaves it. *)
Lemma store_signature_keeps (store : conversations) (cid cid' id id' : string)
    (sig : json) (now : Z) (r : signature_data) :
  stored store cid' id' = Some r ->
  exists r', stored (store_signature cid id sig now store) cid' id' = Some r'
             /\ (r' = r \/ timestamp r' = now).
Proof.
  intros H.
  destruct (String.eqb cid' cid) eqn:Ec.
  - apply String.eqb_eq in Ec. subst cid'.
    destruct (String.eqb id' id) eqn:Ei.
    + apply String.eqb_eq in Ei. subst id'. rewrite stored_same.
      eexists. split; [reflexivity|]. now right.
    + apply String.eqb_neq in Ei. rewrite stored_other_id by assumption.
      exists r. split; [assumption|now left].
  - apply String.eqb_neq in Ec.
    rewrite stored_other_conversation by assumption.
    exists r. split; [assumption|now left].
Qed.

Lemma fold_keeps_records {A S : Type} (step : S -> A -> S)
    (view : S -> conversations) (now : Z) (cid' id' : string) (l : list A) :
  (forall st x r, stored (view st) cid' id' = Some r ->
     exists r', stored (view (step st x)) cid' id' = Some r'
                /\ (r' = r \/ timestamp r' = now)) ->
  forall st r, stored (view st) cid' id' = Some r ->
    exists r', stored (view (fold_left step l st)) cid' id' = Some r'
               /\ (r' = r \/ timestamp r' = now).
Proof.
  intros Hstep. induction l as [|x l IH]; intros st r H.
  - exists r. split; [assumption|now left].
  - cbn [fold_left].
    destruct (Hstep st x r H) as (r1 & H1 & Hr1).
    destruct (IH _ r1 H1) as (r2 & H2 & Hr2).
    exists r2. split; [assumption|].
    destruct Hr2 as [->|Hr2]; [assumption|now right].
Qed.

Lemma stream_keeps_records (cid cid' id' : string) (now : Z) (chunks : list chunk)
    (st : accumulator * conversations) (r : signature_data) :
  stored (snd st) cid' id' = Some r ->
  exists r',
    stored (snd (extractSignaturesFromStreamChunks cid now chunks st)) cid' id'
    = Some r'
    /\ (r' = r \/ timestamp r' = now).
Proof.
  rewrite extract_stream_events.
  apply (fold_keeps_records (accumulate_tool_call cid now) snd now cid' id').
  clear. intros [acc store] d r H. unfold accumulate_tool_call.
  assert (Hsame : exists r', stored store cid' id' = Some r'
                             /\ (r' = r \/ timestamp r' = now))
    by (exists r; split; [assumption|now left]).
  destruct (tcd_index d) as [index|]; [|exact Hsame].
  destruct (slot_token _) as [sig|]; [|exact Hsame].
  destruct (nonempty _ && truthy sig); [|exact Hsame].
  destruct (slot_id _) as [id|]; [|exact Hsame].
  cbn [snd]. now apply store_signature_keeps.
Qed.

Lemma buffered_keeps_records (trim : string -> string)
    (JSON_parse : string -> option json) (responseData cid cid' id' : string)
    (now : Z) (store : conversations) (r : signature_data) :
  stored store cid' id' = Some r ->
  exists r',
    stored (extractThoughtSignatures trim JSON_parse responseData cid now store)
      cid' id' = Some r'
    /\ (r' = r \/ timestamp r' = now).
Proof.
  destruct (extractThoughtSignatures_tool_calls trim JSON_parse responseData cid
              now store) as (toolCalls & ->).
  apply (fold_keeps_records (extract_tool_call trim cid now) (fun s => s) now
           cid' id').
  clear. intros store tc r H. unfold extract_tool_call.
  assert (Hsame : exists r', stored store cid' id' = Some r'
                             /\ (r' = r \/ timestamp r' = now))
    by (exists r; split; [assumption|now left]).
  destruct (valid_tool_call trim tc) as [id|]; [|exact Hsame].
  destruct (thought_signature_of tc) as [sig|]; [|exact Hsame].
  destruct (truthy sig); [|exact Hsame].
  now apply store_signature_keeps.
Qed.

(** X17.  Extraction never drops a record: a record that is in the store,
    of any conversation and tool-call, is still there after a streamed or a
    buffered response is processed, as it was or replaced by a record
    written at the time of the extraction. *)
Theorem extraction_keeps_records (trim : string -> string)
    (JSON_parse : string -> option json) (cid cid' id' : string) (now : Z)
    (chunks : list chunk) (acc : accumulator) (responseData : string)
    (store : conversations) (r : signature_data) :
  stored store cid' id' = Some r ->
  (exists r',
     stored (snd (extractSignaturesFromStreamChunks cid now chunks (acc, store)))
       cid' id' = Some r'
     /\ (r' = r \/ timestamp r' = now))
  /\ (exists r',
        stored (extractThoughtSignatures trim JSON_parse responseData cid now
                  store) cid' id' = Some r'
        /\ (r' = r \/ timestamp r' = now)).
Proof.
  intros H. split.
  - now apply (stream_keeps_records cid cid' id' now chunks (acc, store)).
  - now apply buffered_keeps_records.
Qed.

Lemma extraction_keeps_records_witness :
  (exists r',
     stored (snd (extractSignaturesFromStreamChunks "conv" 7 streamed_call
                    ([], store_with_A))) "conv" "A" = Some r'
     /\ (r' = {| signature := JStr "sigA"; timestamp := 1 |}
         \/ timestamp r' = 7%Z))
  /\ (exists r',
        stored (extractThoughtSignatures ascii_trim
                  (parse_known [buffered_response]) (render buffered_response)
                  "conv" 7 store_with_A) "conv" "A" = Some r'
        /\ (r' = {| signature := JStr "sigA"; timestamp := 1 |}
            \/ timestamp r' = 7%Z)).
Proof.
  apply (extraction_keeps_records ascii_trim (parse_known [buffered_response])
           "conv" "conv" "A" 7 streamed_call [] (render buffered_response)
           store_with_A {| signature := JStr "sigA"; timestamp := 1 |}).
  reflexivity.
Defined.

(* ================================================================== *)
(** * The buffered path: which tool-calls are recorded *)
(* ================================================================== *)

Section BufferedRecords.
Variable trim : string -> string.
Variable JSON_parse : string -> option json.

Lemma extract_tool_call_recorded (cid : string) (now : Z) (store : conversations)
    (toolCall : json) :
  extract_tool_call trim cid now store toolCall
  = match recorded_as trim toolCall with
    | Some (id, sig) => store_signature cid id sig now store
    | None => store
    end.
Proof.
  unfold extract_tool_call, recorded_as.
  destruct (valid_tool_call trim toolCall) as [id|]; [|reflexivity].
  destruct (thought_signature_of toolCall) as [sig|]; [|reflexivity].
  now destruct (truthy sig).
Qed.

Lemma extractThoughtSignatures_fold (responseData cid : string) (now : Z)
    (store : conversations) :
  extractThoughtSignatures trim JSON_parse responseData cid now store
  = fold_left (extract_tool_call trim cid now)
      (body_tool_calls JSON_parse responseData) store.
Proof.
  unfold extractThoughtSignatures, body_tool_calls.
  destruct (JSON_parse responseData) as [data|]; [|reflexivity].
  assert (H : match iterate (or_default (js_prop "choices" data) (JArr [])) with
              | Normal choices => fst (extract_choices trim cid now choices store)
              | TypeError _ => store
              end
              = fold_left (extract_tool_call trim cid now)
                  match iterate (or_default (js_prop "choices" data) (JArr [])) with
                  | Normal choices => response_tool_calls choices
                  | TypeError _ => []
                  end store).
  { destruct (iterate _) as [choices|w]; [|reflexivity].
    apply extract_choices_tool_calls. }
  destruct data; first [exact H|reflexivity].
Qed.

Lemma fold_last_signature (cid id : string) (now : Z) (toolCalls : list json)
    (store : conversations) :
  stored (fold_left (extract_tool_call trim cid now) toolCalls store) cid id
  = match last_signature trim id toolCalls with
    | Some sig => Some {| signature := sig; timestamp := now |}
    | None => stored store cid id
    end.
Proof.
  induction toolCalls as [|tc toolCalls IH] using rev_ind; [reflexivity|].
  unfold last_signature. rewrite !fold_left_app. cbn [fold_left].
  fold (last_signature trim id toolCalls).
  rewrite extract_tool_call_recorded.
  destruct (recorded_as trim tc) as [[id' sig]|]; [|exact IH].
  destruct (String.eqb id' id) eqn:E.
  - apply String.eqb_eq in E. subst id'. apply stored_same.
  - apply String.eqb_neq in E.
    rewrite stored_other_id by congruence. exact IH.
Qed.

Lemma response_tool_calls_abort (before after : list json) (bad : json)
    (w : string) :
  choice_tool_calls bad = TypeError w ->
  response_tool_calls (before ++ bad :: after) = response_tool_calls before.
Proof.
  intros Hbad. induction before as [|c before IH].
  - cbn [app response_tool_calls]. now rewrite Hbad.
  - cbn [app response_tool_calls]. destruct (choice_tool_calls c); [|reflexivity].
    now rewrite IH.
Qed.

End BufferedRecords.

(** X18.  After a buffered response is processed, the store holds under
    every tool-call id the token of the last tool-call of the response that
    is recorded under this id, stamped with the time of the extraction; an
    id that no tool-call of the response is recorded under has the record it
    had.  A tool-call is recorded when it passes the four validity tests
    and carries a truthy token. *)
Theorem buffered_records (trim : string -> string)
    (JSON_parse : string -> option json) (responseData cid id : string)
    (now : Z) (store : conversations) :
  stored (extractThoughtSignatures trim JSON_parse responseData cid now store)
    cid id
  = match last_signature trim id (body_tool_calls JSON_parse responseData) with
    | Some sig => Some {| signature := sig; timestamp := now |}
    | None => stored store cid id
    end.
Proof.
  rewrite extractThoughtSignatures_fold. apply fold_last_signature.
Qed.

(** X19.  A choice that cannot be read ([null], or one whose [tool_calls]
    is a value that cannot be iterated) ends the extraction from a buffered
    response without an error: the tool-calls of the choices after it are
    not recorded, and the store is left as the choices before it alone
    would leave it. *)
Theorem buffered_extraction_aborts (trim : string -> string)
    (JSON_parse : string -> option json) (body body' cid : string) (now : Z)
    (store : conversations) (o o' : object) (before after : list json)
    (bad : json) (w : string) :
  JSON_parse body = Some (JObj o) ->
  obj_get "choices" o = Some (JArr (before ++ bad :: after)) ->
  choice_tool_calls bad = TypeError w ->
  JSON_parse body' = Some (JObj o') ->
  obj_get "choices" o' = Some (JArr before) ->
  extractThoughtSignatures trim JSON_parse body cid now store
  = extractThoughtSignatures trim JSON_parse body' cid now store.
Proof.
  intros Hb Ho Hbad Hb' Ho'.
  rewrite !extractThoughtSignatures_fold. unfold body_tool_calls.
  rewrite Hb, Hb'. cbn [js_prop]. rewrite Ho, Ho'.
  cbn [or_default truthy iterate].
  now rewrite (response_tool_calls_abort before after bad w).
Qed.

Lemma buffered_extraction_aborts_witness :
  extractThoughtSignatures ascii_trim
    (parse_known [broken_response; cut_response]) (render broken_response)
    "conv" 7 []
  = extractThoughtSignatures ascii_trim
      (parse_known [broken_response; cut_response]) (render cut_response)
      "conv" 7 [].
Proof.
  apply (buffered_extraction_aborts ascii_trim
           (parse_known [broken_response; cut_response])
           (render broken_response) (render cut_response) "conv" 7 []
           [("choices",
             JArr ([choice_with [signed_call "call_1" "tok1"]]
                   ++ JNull :: [choice_with [signed_call "call_3" "tok3"]]))]
           [("choices", JArr [choice_with [signed_call "call_1" "tok1"]])]
           [choice_with [signed_call "call_1" "tok1"]]
           [choice_with [signed_call "call_3" "tok3"]] JNull
           "Cannot read properties of null (reading 'message')");
    reflexivity.
Defined.

Example buffered_sample :
  extractThoughtSignatures ascii_trim (parse_known [buffered_response])
    (render buffered_response) "conv" 7 store_with_A
  = [("conv", [("A", {| signature := JStr "sigA"; timestamp := 1 |});
               ("call_1", {| signature := JStr "tok1"; timestamp := 7 |})])]
  /\ extractThoughtSignatures ascii_trim
       (parse_known [broken_response; cut_response]) (render broken_response)
       "conv" 7 []
     = [("conv", [("call_1", {| signature := JStr "tok1"; timestamp := 7 |})])].
Proof. split; reflexivity. Qed.

(* ================================================================== *)
(** * [parseSSEChunks]: lines are parsed one by one *)
(* ================================================================== *)

Lemma split_lines_nonempty (text : string) : split_lines text <> [].
Proof.
  destruct text as [|c rest]; [discriminate|]. cbn [split_lines].
  destruct (Ascii.eqb c "010"); [discriminate|].
  destruct (split_lines rest); discriminate.
Qed.

Lemma split_lines_app (a b : string) :
  split_lines (a ++ line_feed ++ b) = split_lines a ++ split_lines b.
Proof.
  induction a as [|c a IH]; [reflexivity|].
  cbn [String.append split_lines]. rewrite IH.
  destruct (Ascii.eqb c "010"); [reflexivity|].
  assert (H := split_lines_nonempty a).
  destruct (split_lines a) as [|line lines]; [congruence|reflexivity].
Qed.

Lemma parseSSEChunks_app (trim : string -> string)
    (JSON_parse : string -> option json) (a b : string) :
  parseSSEChunks trim JSON_parse (a ++ line_feed ++ b)
  = parseSSEChunks trim JSON_parse a ++ parseSSEChunks trim JSON_parse b.
Proof.
  unfold parseSSEChunks. now rewrite split_lines_app, flat_map_app.
Qed.

(** X20.  [parseSSEChunks] parses the lines of a buffer one by one: the
    events of two texts joined by a line feed are the events of the first
    followed by the events of the second.  No event is read across a line
    feed, and none is lost by it. *)
Theorem sse_lines_independent (trim : string -> string)
    (JSON_parse : string -> option json) (a b : string) :
  parseSSEChunks trim JSON_parse (a ++ line_feed ++ b)
  = parseSSEChunks trim JSON_parse a ++ parseSSEChunks trim JSON_parse b.
Proof. apply parseSSEChunks_app. Qed.

Lemma parseSSEChunks_empty (trim : string -> string)
    (JSON_parse : string -> option json) :
  trim "" = "" -> parseSSEChunks trim JSON_parse "" = [].
Proof.
  intros Ht. unfold parseSSEChunks. cbn [split_lines flat_map].
  unfold sse_line. rewrite Ht. reflexivity.
Qed.

Lemma parseSSEChunks_line (trim : string -> string)
    (JSON_parse : string -> option json) (a b : string) :
  trim "" = "" ->
  parseSSEChunks trim JSON_parse ((a ++ line_feed) ++ b)
  = parseSSEChunks trim JSON_parse (a ++ line_feed)
    ++ parseSSEChunks trim JSON_parse b.
Proof.
  intros Ht. rewrite string_app_assoc.
  rewrite (parseSSEChunks_app trim JSON_parse a b).
  replace (a ++ line_feed)%string with (a ++ line_feed ++ "")%string
    by reflexivity.
  rewrite (parseSSEChunks_app trim JSON_parse a "").
  now rewrite parseSSEChunks_empty, app_nil_r.
Qed.

Lemma concat_cons (c : string) (cs : list string) :
  String.concat "" (c :: cs) = (c ++ String.concat "" cs)%string.
Proof.
  destruct cs as [|c' cs]; [|reflexivity].
  cbn [String.concat]. now rewrite string_app_nil.
Qed.

(** X21.  The events read from a streamed response chunk by chunk, as the
    chunks arrive, are the events read from the whole body at its end,
    provided every chunk ends with a line feed. *)
Theorem sse_chunks_as_whole (trim : string -> string)
    (JSON_parse : string -> option json) (chunks : list string) :
  trim "" = "" ->
  Forall ends_line chunks ->
  flat_map (parseSSEChunks trim JSON_parse) chunks
  = parseSSEChunks trim JSON_parse (String.concat "" chunks).
Proof.
  intros Ht Hall. induction Hall as [|c cs [a ->] _ IH].
  - now rewrite parseSSEChunks_empty.
  - cbn [flat_map]. rewrite concat_cons, parseSSEChunks_line by assumption.
    now rewrite IH.
Qed.

Lemma sse_chunks_as_whole_witness :
  flat_map (parseSSEChunks ascii_trim (parse_known [JNum 1; JNum 2]))
    [("data: 1" ++ line_feed)%string;
     (("data: 2" ++ line_feed ++ "data: [DONE]") ++ line_feed)%string]
  = parseSSEChunks ascii_trim (parse_known [JNum 1; JNum 2])
      (String.concat ""
         [("data: 1" ++ line_feed)%string;
          (("data: 2" ++ line_feed ++ "data: [DONE]") ++ line_feed)%string]).
Proof.
  apply (sse_chunks_as_whole ascii_trim (parse_known [JNum 1; JNum 2])
           [("data: 1" ++ line_feed)%string;
            (("data: 2" ++ line_feed ++ "data: [DONE]") ++ line_feed)%string]).
  - reflexivity.
  - repeat constructor; eexists; reflexivity.
Defined.

(** A line that is cut by the end of a chunk is lost to the reading chunk
    by chunk, and found by the reading of the whole body. *)
Example sse_cut_line :
  flat_map (parseSSEChunks ascii_trim (parse_known [JNum 12]))
    ["data: 1"; ("2" ++ line_feed)%string] = []
  /\ parseSSEChunks ascii_trim (parse_known [JNum 12])
       (String.concat "" ["data: 1"; ("2" ++ line_feed)%string])
     = [JNum 12].
Proof. split; reflexivity. Qed.

(* ================================================================== *)
(** * Conversation ids *)
(* ================================================================== *)

Lemma generateConversationId_explicit (sha256_hex : string -> string)
    (headers : list (string * string)) (remoteAddress : option string)
    (explicitId : string) :
  assoc_get "x-conversation-id" headers = Some explicitId -> explicitId <> "" ->
  generateConversationId sha256_hex headers remoteAddress
  = ("explicit:" ++ explicitId)%string.
Proof.
  intros H Hne. unfold generateConversationId. rewrite H.
  apply String.eqb_neq in Hne. now rewrite Hne.
Qed.

Lemma generateConversationId_derived (sha256_hex : string -> string)
    (headers : list (string * string)) (remoteAddress : option string) :
  nonempty (assoc_get "x-conversation-id" headers) = false ->
  generateConversationId sha256_hex headers remoteAddress
  = derived_id sha256_hex headers remoteAddress.
Proof.
  unfold generateConversationId, nonempty.
  destruct (assoc_get "x-conversation-id" headers) as [h|]; [|reflexivity].
  now intros ->.
Qed.

(** X22.  A request that names its conversation in the [X-Conversation-ID]
    header gets the id [explicit:] followed by the header, whatever its
    address and user agent; two such requests share a conversation only
    when their headers are equal, and none shares one with a request that
    does not send the header (or sends it empty), whose id is derived from
    the address and the user agent. *)
Theorem explicit_conversation_ids (sha256_hex : string -> string)
    (headers headers' : list (string * string))
    (remoteAddress remoteAddress' : option string) (explicitId : string) :
  assoc_get "x-conversation-id" headers = Some explicitId -> explicitId <> "" ->
  generateConversationId sha256_hex headers remoteAddress
  = ("explicit:" ++ explicitId)%string
  /\ (forall explicitId',
        assoc_get "x-conversation-id" headers' = Some explicitId' ->
        explicitId' <> "" ->
        generateConversationId sha256_hex headers remoteAddress
        = generateConversationId sha256_hex headers' remoteAddress' ->
        explicitId = explicitId')
  /\ (nonempty (assoc_get "x-conversation-id" headers') = false ->
      generateConversationId sha256_hex headers remoteAddress
      <> generateConversationId sha256_hex headers' remoteAddress').
Proof.
  intros H Hne.
  rewrite (generateConversationId_explicit _ _ _ _ H Hne).
  split; [reflexivity|]. split.
  - intros explicitId' H' Hne'.
    rewrite (generateConversationId_explicit _ _ _ _ H' Hne').
    cbn [String.append]. now intros [= ->].
  - intros H'. rewrite (generateConversationId_derived _ _ _ H').
    unfold derived_id. cbn [String.append]. discriminate.
Qed.

Lemma explicit_conversation_ids_witness :
  generateConversationId (fun _ => "9f86d081884c7d659a2feaa0c55ad015")
    [("user-agent", "droid"); ("x-conversation-id", "session-1")]
    (Some "10.0.0.1")
  = "explicit:session-1"
  /\ (forall explicitId',
        assoc_get "x-conversation-id" [("x-conversation-id", "session-2")]
        = Some explicitId' ->
        explicitId' <> "" ->
        generateConversationId (fun _ => "9f86d081884c7d659a2feaa0c55ad015")
          [("user-agent", "droid"); ("x-conversation-id", "session-1")]
          (Some "10.0.0.1")
        = generateConversationId (fun _ => "9f86d081884c7d659a2feaa0c55ad015")
            [("x-conversation-id", "session-2")] None ->
        "session-1" = explicitId')
  /\ (nonempty (assoc_get "x-conversation-id" [("x-conversation-id", "session-2")])
      = false ->
      generateConversationId (fun _ => "9f86d081884c7d659a2feaa0c55ad015")
        [("user-agent", "droid"); ("x-conversation-id", "session-1")]
        (Some "10.0.0.1")
      <> generateConversationId (fun _ => "9f86d081884c7d659a2feaa0c55ad015")
           [("x-conversation-id", "session-2")] None).
Proof.
  apply (explicit_conversation_ids
           (fun _ => "9f86d081884c7d659a2feaa0c55ad015")
           [("user-agent", "droid"); ("x-conversation-id", "session-1")]
           [("x-conversation-id", "session-2")] (Some "10.0.0.1") None
           "session-1").
  - reflexivity.
  - discriminate.
Defined.

(* ================================================================== *)
(** * The sanitizer: what every node of the result looks like, and what
      is left as it was *)
(* ================================================================== *)

Lemma unsupported_not_descended (k : string) :
  In k unsupported_keys ->
  String.eqb "properties" k = false /\ String.eqb "items" k = false
  /\ String.eqb "additionalProperties" k = false.
Proof.
  unfold unsupported_keys. simpl.
  intros H.
  repeat (destruct H as [<-|H]; [repeat split; reflexivity|]). destruct H.
Qed.

Lemma sanitized_format (rec : json -> json) (o : object) :
  supported_format (sanitize_children rec (sanitize_node o)) = true.
Proof.
  unfold supported_format.
  assert (E : obj_get "format" (sanitize_children rec (sanitize_node o))
              = obj_get "format" (drop_format (delete_keys unsupported_keys o))).
  { unfold sanitize_children, sanitize_node. now frame. }
  rewrite E. unfold drop_format.
  destruct (obj_get "format" (delete_keys unsupported_keys o)) as [f|] eqn:Ef.
  - destruct (truthy f && negb (str_includes ["enum"; "date-time"] f)) eqn:Et.
    + now rewrite assoc_get_delete_same.
    + rewrite Ef. destruct (truthy f); [|reflexivity].
      cbn [andb negb] in Et |- *. apply negb_false_iff in Et. now rewrite Et.
  - now rewrite Ef.
Qed.

Lemma sanitized_required (rec : json -> json) (o : object) :
  empty_required (sanitize_children rec (sanitize_node o)) = false.
Proof.
  unfold empty_required.
  set (c := drop_closed (collapse_type (drop_format (delete_keys unsupported_keys o)))).
  assert (E : obj_get "required" (sanitize_children rec (sanitize_node o))
              = obj_get "required" (drop_empty_required c)).
  { unfold sanitize_children, sanitize_node. fold c. now frame. }
  rewrite E. unfold drop_empty_required.
  destruct (obj_get "required" c) as [[| | | |[|x l]|]|] eqn:Er;
    rewrite ?Er, ?assoc_get_delete_same; reflexivity.
Qed.

Lemma sanitized_closed (o : object) :
  closed (sanitize_children sanitizeSchema (sanitize_node o)) = false.
Proof.
  unfold closed.
  set (c := collapse_type (drop_format (delete_keys unsupported_keys o))).
  set (c2 := sanitize_items sanitizeSchema
               (sanitize_properties sanitizeSchema (sanitize_node o))).
  assert (E2 : obj_get "additionalProperties" c2
               = obj_get "additionalProperties" (drop_closed c)).
  { unfold c2, sanitize_node. fold c. now frame. }
  assert (Hc : obj_get "additionalProperties" (drop_closed c) <> Some (JBool false)).
  { unfold drop_closed.
    destruct (obj_get "additionalProperties" c) as [[|[]| | | |]|] eqn:Ea;
      rewrite ?Ea, ?assoc_get_delete_same; discriminate. }
  unfold sanitize_children. fold c2. unfold sanitize_additional.
  rewrite <- E2 in Hc.
  destruct (obj_get "additionalProperties" c2) as [ap|] eqn:Ea.
  - destruct (truthy ap && typeof_object ap) eqn:Et.
    + rewrite assoc_get_set_same.
      assert (Hs := sanitizeSchema_keeps_objects ap Et).
      destruct (sanitizeSchema ap) as [|[]| | | |]; congruence.
    + rewrite Ea. destruct ap as [|[]| | | |]; congruence.
  - now rewrite Ea.
Qed.

Lemma sanitized_numeric (rec : json -> json) (o : object) :
  negb (non_numeric_type (sanitize_children rec (sanitize_node o)))
  || forallb (absent (sanitize_children rec (sanitize_node o))) numeric_keys
  = true.
Proof.
  set (r := sanitize_children rec (sanitize_node o)).
  set (c := drop_empty_required
              (drop_closed
                 (collapse_type (drop_format (delete_keys unsupported_keys o))))).
  assert (Hn : non_numeric_type r = non_numeric_type c).
  { unfold non_numeric_type, r, c, sanitize_children, sanitize_node. now frame. }
  rewrite Hn. destruct (non_numeric_type c) eqn:En; [|reflexivity].
  cbn [negb orb]. apply forallb_forall. intros k Hin. unfold absent.
  assert (E : obj_get k r = obj_get k (drop_numeric c)).
  { unfold r, sanitize_children, sanitize_node. fold c.
    simpl in Hin. destruct Hin as [<-|[<-|[<-|[]]]]; now frame. }
  rewrite E. unfold drop_numeric. rewrite En.
  now rewrite delete_keys_get_deleted.
Qed.

Lemma sanitized_node (o : object) :
  gemini_node (sanitize_children sanitizeSchema (sanitize_node o)) = true.
Proof.
  unfold gemini_node.
  rewrite sanitized_format, sanitized_closed, sanitized_required,
    sanitized_numeric.
  rewrite !andb_true_r. apply forallb_forall. intros k Hin. unfold absent.
  destruct (unsupported_not_descended k Hin) as (Hp & Hi & Ha).
  rewrite sanitize_children_get_other by assumption.
  now rewrite sanitize_node_unsupported.
Qed.

Lemma rebuild_props_get (rec : json -> json) (entries acc : object)
    (k : string) (v : json) :
  obj_get k (fold_left (fun props kv => props_assign props (fst kv) (rec (snd kv)))
               entries acc) = Some v ->
  obj_get k acc = Some v \/ exists v0, In (k, v0) entries /\ v = rec v0.
Proof.
  revert acc. induction entries as [|[k0 v0] entries IH]; intros acc H.
  - now left.
  - cbn [fold_left fst snd] in H. apply IH in H.
    destruct H as [H|(v1 & Hin & Hv)].
    + unfold props_assign in H.
      destruct (String.eqb k0 "__proto__"); [now left|].
      destruct (String.eqb k0 k) eqn:E.
      * apply String.eqb_eq in E. subst k0. rewrite assoc_get_set_same in H.
        injection H as <-. right. exists v0. split; [now left|reflexivity].
      * rewrite assoc_get_set_other in H by assumption. now left.
    + right. exists v1. split; [now right|assumption].
Qed.

Lemma sanitizeSchema_not_object (v : json) :
  truthy v && typeof_object v = false -> sanitizeSchema v = v.
Proof.
  intros H. rewrite sanitizeSchema_unfold.
  destruct v; try reflexivity; discriminate.
Qed.

(** Where the schemas under a sanitized node come from: each is the
    sanitized schema of what the node had at the same place. *)
Lemma sanitized_property_origin (c ps : object) (k : string) (v : json) :
  obj_get "properties" (sanitize_children sanitizeSchema c) = Some (JObj ps) ->
  obj_get k ps = Some v ->
  exists w v0,
    obj_get "properties" c = Some w /\ json_depth v0 < json_depth w
    /\ v = sanitizeSchema v0.
Proof.
  intros Hps Hk. unfold sanitize_children in Hps.
  rewrite sanitize_additional_get_other, sanitize_items_get_other in Hps
    by reflexivity.
  unfold sanitize_properties in Hps.
  destruct (obj_get "properties" c) as [[| | | |l0|ps0]|] eqn:Ep;
    rewrite ?assoc_get_set_same, ?Ep in Hps; try discriminate;
    injection Hps as <-;
    apply rebuild_props_get in Hk;
    destruct Hk as [Hk|(v0 & Hin & ->)]; try discriminate.
  - exists (JArr l0), v0. split; [reflexivity|]. split; [|reflexivity].
    apply array_entries_in in Hin. now apply depth_in_arr.
  - exists (JObj ps0), v0. split; [reflexivity|]. split; [|reflexivity].
    now apply (depth_in_obj ps0 k).
Qed.

Lemma sanitized_items_origin (c : object) (it : json) :
  obj_get "items" (sanitize_children sanitizeSchema c) = Some it ->
  exists it0, obj_get "items" c = Some it0 /\ it = sanitizeSchema it0.
Proof.
  intros Hit. unfold sanitize_children in Hit.
  rewrite sanitize_additional_get_other in Hit by reflexivity.
  assert (Ei : obj_get "items" (sanitize_properties sanitizeSchema c)
               = obj_get "items" c)
    by now rewrite sanitize_properties_get_other.
  unfold sanitize_items in Hit. rewrite Ei in Hit.
  destruct (obj_get "items" c) as [it0|] eqn:E0.
  - exists it0. split; [reflexivity|].
    destruct (truthy it0) eqn:Et.
    + rewrite assoc_get_set_same in Hit. now injection Hit as <-.
    + rewrite ?Ei, ?E0 in Hit. injection Hit as <-.
      symmetry. apply sanitizeSchema_not_object. now rewrite Et.
  - rewrite ?Ei, ?E0 in Hit. discriminate.
Qed.

Lemma sanitized_additional_origin (c : object) (ap : json) :
  obj_get "additionalProperties" (sanitize_children sanitizeSchema c) = Some ap ->
  exists ap0,
    obj_get "additionalProperties" c = Some ap0 /\ ap = sanitizeSchema ap0.
Proof.
  intros Hap. unfold sanitize_children in Hap.
  set (c2 := sanitize_items sanitizeSchema
               (sanitize_properties sanitizeSchema c)) in *.
  assert (Ea : obj_get "additionalProperties" c2
               = obj_get "additionalProperties" c).
  { unfold c2.
    now rewrite sanitize_items_get_other, sanitize_properties_get_other. }
  unfold sanitize_additional in Hap. rewrite Ea in Hap.
  destruct (obj_get "additionalProperties" c) as [ap0|] eqn:E0.
  - exists ap0. split; [reflexivity|].
    destruct (truthy ap0 && typeof_object ap0) eqn:Et.
    + rewrite assoc_get_set_same in Hap. now injection Hap as <-.
    + rewrite ?Ea, ?E0 in Hap. injection Hap as <-.
      symmetry. now apply sanitizeSchema_not_object.
  - rewrite ?Ea, ?E0 in Hap. discriminate.
Qed.

(** The same, the places read from the node before it is cleaned. *)
Lemma sanitized_children_origin (o : object) (n : nat) :
  json_depth (JObj o) <= S n ->
  (forall ps k v,
     obj_get "properties" (sanitize_children sanitizeSchema (sanitize_node o))
     = Some (JObj ps) ->
     obj_get k ps = Some v ->
     exists v0, json_depth v0 <= n /\ v = sanitizeSchema v0)
  /\ (forall it,
        obj_get "items" (sanitize_children sanitizeSchema (sanitize_node o))
        = Some it ->
        exists it0, json_depth it0 <= n /\ it = sanitizeSchema it0)
  /\ (forall ap,
        obj_get "additionalProperties"
          (sanitize_children sanitizeSchema (sanitize_node o)) = Some ap ->
        exists ap0, json_depth ap0 <= n /\ ap = sanitizeSchema ap0).
Proof.
  intros Hd.
  assert (Hget : forall k v, k = "properties" \/ k = "items"
                             \/ k = "additionalProperties" ->
                   obj_get k (sanitize_node o) = Some v -> json_depth v <= n).
  { intros k v Hk Hv.
    assert (Hv' : obj_get k o = Some v).
    { apply (sanitize_node_get_some k o v); [| |exact Hv];
        destruct Hk as [->|[->| ->]]; reflexivity. }
    apply depth_get in Hv'. lia. }
  split; [|split].
  - intros ps k v Hps Hk.
    destruct (sanitized_property_origin _ ps k v Hps Hk)
      as (w & v0 & Hw & Hlt & ->).
    exists v0. split; [|reflexivity].
    assert (Hwn := Hget "properties" w (or_introl eq_refl) Hw). lia.
  - intros it Hit.
    destruct (sanitized_items_origin _ it Hit) as (it0 & H0 & ->).
    exists it0. split; [|reflexivity]. apply (Hget "items" it0); auto.
  - intros ap Hap.
    destruct (sanitized_additional_origin _ ap Hap) as (ap0 & H0 & ->).
    exists ap0. split; [|reflexivity].
    apply (Hget "additionalProperties" ap0); auto.
Qed.

Lemma subschema_of_scalar (x y : json) (r : object) :
  subschema x y -> (forall o, x <> JObj o) -> y <> JObj r.
Proof.
  intros H Hx. destruct H as [x|o ? ? ? ? ? ? ?|o ? ? ? ?|o ? ? ? ?];
    try (exfalso; now apply (Hx o)).
  intros ->. now apply (Hx r).
Qed.

Lemma sanitized_everywhere_depth (n : nat) (x : json) (r : object) :
  json_depth x <= n -> subschema (sanitizeSchema x) (JObj r) ->
  gemini_node r = true.
Proof.
  revert x r. induction n as [|n IH]; intros x r Hd Hsub.
  - exfalso. apply (subschema_of_scalar _ _ r Hsub); [|reflexivity].
    intros o0. rewrite sanitizeSchema_unfold.
    destruct x; cbn in Hd; try lia; discriminate.
  - destruct x as [| | | |l|o];
      try (exfalso; apply (subschema_of_scalar _ _ r Hsub); [|reflexivity];
           intros o0; rewrite sanitizeSchema_unfold; discriminate).
    rewrite sanitizeSchema_object in Hsub.
    assert (Hroot := sanitized_node o).
    destruct (sanitized_children_origin o n Hd) as (Hprops & Hitems & Hadd).
    remember (sanitize_children sanitizeSchema (sanitize_node o)) as r0 eqn:Er0.
    clear Er0 Hd.
    inversion Hsub as [x0 Hx0 Hr|o0 ps k v y0 Hps Hk Hv Ho Hy
                      |o0 it y0 Hit Hv Ho Hy|o0 ap y0 Hap Hv Ho Hy].
    + now subst r0.
    + destruct (Hprops ps k v Hps Hk) as (v0 & Hv0 & E). subst v.
      now apply (IH v0 r).
    + destruct (Hitems it Hit) as (it0 & Hit0 & E). subst it.
      now apply (IH it0 r).
    + destruct (Hadd ap Hap) as (ap0 & Hap0 & E). subst ap.
      now apply (IH ap0 r).
Qed.

(** The tuple form of [items] is not descended into. *)
Lemma sanitized_items_array (o : object) (l : list json) :
  obj_get "items" o = Some (JArr l) ->
  js_prop "items" (sanitizeSchema (JObj o)) = Some (JArr l).
Proof.
  intros H. rewrite sanitizeSchema_object. cbn [js_prop].
  unfold sanitize_children.
  rewrite sanitize_additional_get_other by reflexivity.
  assert (E : obj_get "items" (sanitize_properties sanitizeSchema (sanitize_node o))
              = Some (JArr l)).
  { unfold sanitize_node. frame. exact H. }
  unfold sanitize_items. rewrite E. cbn [truthy].
  rewrite assoc_get_set_same. now rewrite sanitizeSchema_unfold.
Qed.

(** X23.  Every object node of a sanitized schema that is the root or is
    reached from it through the values of [properties], through an
    [items] that is an object and through an [additionalProperties] that
    is an object, at any depth, is in the dialect: it has none of the 22
    unsupported keywords, its [format], when truthy, is [enum] or
    [date-time], it has no [additionalProperties: false] and no empty
    [required], and no [minimum], [maximum] or [multipleOf] beside a type
    that is not numeric.  An [items] that is an array, the tuple form, is
    no such path: the array is returned with the elements it had, not
    sanitized. *)
Theorem sanitized_everywhere (x : json) :
  (forall r, subschema (sanitizeSchema x) (JObj r) -> gemini_node r = true)
  /\ (forall o l,
        x = JObj o -> obj_get "items" o = Some (JArr l) ->
        js_prop "items" (sanitizeSchema x) = Some (JArr l)).
Proof.
  split.
  - intros r H. now apply (sanitized_everywhere_depth (json_depth x) x r).
  - intros o l -> H. now apply sanitized_items_array.
Qed.

(** A node under an [items] object is sanitized; a node inside an [items]
    array keeps its [$ref]. *)
Lemma sanitized_everywhere_witness :
  gemini_node [("type", JStr "string")] = true
  /\ js_prop "items"
       (sanitizeSchema
          (JObj [("type", JStr "array");
                 ("items", JArr [JObj [("$ref", JStr "#/definitions/a")]])]))
     = Some (JArr [JObj [("$ref", JStr "#/definitions/a")]]).
Proof.
  destruct (sanitized_everywhere sample_schema) as [Hnode _].
  destruct (sanitized_everywhere
              (JObj [("type", JStr "array");
                     ("items", JArr [JObj [("$ref", JStr "#/definitions/a")]])]))
    as [_ Hitems].
  split.
  - apply Hnode.
    apply (sub_property _ [("name", JObj [("type", JStr "string")]);
                           ("tags", JObj [("type", JStr "array");
                                          ("items", JObj [("type", JStr "string")])])]
             "tags" (JObj [("type", JStr "array");
                           ("items", JObj [("type", JStr "string")])]));
      [reflexivity|reflexivity|].
    apply (sub_items _ (JObj [("type", JStr "string")])); [reflexivity|].
    apply sub_root.
  - apply (Hitems _ _ eq_refl). reflexivity.
Defined.

Lemma not_rewritten (k k' : string) :
  existsb (String.eqb k) rewritten_keys = false -> In k' rewritten_keys ->
  String.eqb k' k = false.
Proof.
  intros H Hin. apply String.eqb_neq. intros ->.
  assert (Ht : existsb (String.eqb k) rewritten_keys = true).
  { apply existsb_exists. exists k. split; [assumption|apply String.eqb_refl]. }
  congruence.
Qed.

Lemma not_rewritten_all (k : string) (ks : list string) :
  existsb (String.eqb k) rewritten_keys = false ->
  (forall k', In k' ks -> In k' rewritten_keys) ->
  forallb (fun k' => negb (String.eqb k' k)) ks = true.
Proof.
  intros H Hsub. apply forallb_forall. intros k' Hin.
  now rewrite (not_rewritten k k' H (Hsub k' Hin)).
Qed.

(** X24.  The sanitizer leaves every keyword of a node that it does not
    know as it was: a key other than the 22 unsupported ones, [format],
    [type], [nullable], [additionalProperties], [required], the three
    numeric bounds, [properties] and [items] has the value it had
    ([description], [enum], [default], [title], ...). *)
Theorem unknown_keywords_kept (o : object) (k : string) :
  existsb (String.eqb k) rewritten_keys = false ->
  exists r, sanitizeSchema (JObj o) = JObj r /\ obj_get k r = obj_get k o.
Proof.
  intros H. eexists. split; [apply sanitizeSchema_object|].
  assert (Hk : forall k', In k' rewritten_keys -> String.eqb k' k = false)
    by (intros k'; apply not_rewritten; assumption).
  unfold sanitize_children, sanitize_node.
  rewrite sanitize_additional_get_other, sanitize_items_get_other,
    sanitize_properties_get_other, drop_numeric_get_other,
    drop_empty_required_get_other, drop_closed_get_other,
    collapse_type_get_other, drop_format_get_other, delete_keys_get_other;
    try reflexivity;
    try (apply Hk; unfold rewritten_keys; rewrite !in_app_iff; simpl; tauto);
    apply (not_rewritten_all k _ H); intros k' Hin;
    unfold rewritten_keys; rewrite !in_app_iff; tauto.
Qed.

Lemma unknown_keywords_kept_witness :
  exists r,
    sanitizeSchema
      (JObj [("type", JStr "string"); ("minimum", JNum 1);
             ("description", JStr "a name"); ("enum", JArr [JStr "a"; JStr "b"])])
    = JObj r
    /\ obj_get "enum" r
       = obj_get "enum"
           [("type", JStr "string"); ("minimum", JNum 1);
            ("description", JStr "a name"); ("enum", JArr [JStr "a"; JStr "b"])].
Proof.
  apply (unknown_keywords_kept
           [("type", JStr "string"); ("minimum", JNum 1);
            ("description", JStr "a name"); ("enum", JArr [JStr "a"; JStr "b"])]
           "enum").
  reflexivity.
Defined.

Lemma rebuild_props_map (rec : json -> json) (entries acc : object) :
  NoDup (keys acc ++ keys entries) ->
  fold_left (fun props kv => props_assign props (fst kv) (rec (snd kv)))
    entries acc
  = acc ++ map (fun kv => (fst kv, rec (snd kv))) (filter own_name entries).
Proof.
  revert acc. induction entries as [|[k v] entries IH]; intros acc Hnd.
  - cbn. now rewrite app_nil_r.
  - cbn [fold_left fst snd filter]. unfold own_name at 1. cbn [fst].
    unfold props_assign.
    cbn [keys map fst] in Hnd. fold (keys entries) in Hnd.
    assert (Hnd' : NoDup (keys acc ++ keys entries)).
    { apply NoDup_remove_1 in Hnd. exact Hnd. }
    assert (Hk : ~ In k (keys acc)).
    { apply NoDup_remove_2 in Hnd. intros Hin. apply Hnd.
      apply in_or_app. now left. }
    destruct (String.eqb k "__proto__"); cbn [negb].
    + now apply IH.
    + rewrite assoc_set_absent by now apply assoc_get_none_keys.
      rewrite IH.
      * cbn [map fst snd]. now rewrite <- app_assoc.
      * unfold keys. rewrite map_app. cbn [map fst].
        rewrite <- app_assoc. cbn [app]. exact Hnd.
Qed.

(** X25.  The schemas under [properties] are sanitized one by one: the
    [properties] of the result holds the same property names in the same
    order, each with the sanitized schema of the property (the name
    [__proto__] alone is dropped). *)
Theorem properties_sanitized_by_name (o ps : object) :
  obj_get "properties" o = Some (JObj ps) -> NoDup (keys ps) ->
  exists r,
    sanitizeSchema (JObj o) = JObj r
    /\ obj_get "properties" r
       = Some (JObj (map sanitized_property (filter own_name ps))).
Proof.
  intros Hps Hnd. eexists. split; [apply sanitizeSchema_object|].
  unfold sanitize_children.
  rewrite sanitize_additional_get_other, sanitize_items_get_other by reflexivity.
  assert (Hp : obj_get "properties" (sanitize_node o) = Some (JObj ps)).
  { unfold sanitize_node. now frame. }
  unfold sanitize_properties. rewrite Hp, assoc_get_set_same.
  unfold rebuild_props. now rewrite rebuild_props_map.
Qed.

Lemma properties_sanitized_by_name_witness :
  exists r,
    sanitizeSchema
      (JObj [("type", JStr "object");
             ("properties",
              JObj [("path", JObj [("type", JStr "string"); ("const", JStr "x")]);
                    ("__proto__", JObj []);
                    ("mode", JObj [("type", JArr [JStr "integer"; JStr "null"])])])])
    = JObj r
    /\ obj_get "properties" r
       = Some (JObj (map sanitized_property
                       (filter own_name
                          [("path", JObj [("type", JStr "string"); ("const", JStr "x")]);
                           ("__proto__", JObj []);
                           ("mode", JObj [("type", JArr [JStr "integer"; JStr "null"])])]))).
Proof.
  apply (properties_sanitized_by_name
           [("type", JStr "object");
            ("properties",
             JObj [("path", JObj [("type", JStr "string"); ("const", JStr "x")]);
                   ("__proto__", JObj []);
                   ("mode", JObj [("type", JArr [JStr "integer"; JStr "null"])])])]
           [("path", JObj [("type", JStr "string"); ("const", JStr "x")]);
            ("__proto__", JObj []);
            ("mode", JObj [("type", JArr [JStr "integer"; JStr "null"])])]).
  - reflexivity.
  - apply unique_NoDup. reflexivity.
Defined.

(* ================================================================== *)
(** * [sanitizeTools] *)
(* ================================================================== *)

Lemma sanitizeSchema_falsy (v : json) : truthy v = false -> sanitizeSchema v = v.
Proof.
  intros H. rewrite sanitizeSchema_unfold.
  destruct v; try reflexivity; discriminate.
Qed.

Lemma sanitizeSchema_truthy (v : json) : truthy (sanitizeSchema v) = truthy v.
Proof. rewrite sanitizeSchema_unfold. now destruct v. Qed.

(** What [sanitize_tool] returns for a tool that has truthy parameters. *)
Lemma sanitize_tool_parameters (tool : json) (parameters : json) :
  tool_parameters tool = Some parameters -> truthy parameters = true ->
  exists o fo,
    tool = JObj o /\ obj_get "function" o = Some (JObj fo)
    /\ obj_get "parameters" fo = Some parameters
    /\ sanitize_tool tool
       = JObj (obj_set "function"
                 (JObj (obj_set "parameters" (sanitizeSchema parameters) fo)) o).
Proof.
  unfold tool_parameters, sanitize_tool. intros Hp Ht.
  destruct tool as [| | | | |o]; try discriminate.
  cbn [js_opt_prop js_prop] in *.
  destruct (obj_get "function" o) as [fn|] eqn:Ef; [|discriminate].
  destruct fn as [| | | | |fo]; try discriminate.
  cbn [js_opt_prop js_prop] in *. rewrite Hp, Ht.
  exists o, fo. repeat split; try assumption; reflexivity.
Qed.

Lemma sanitize_tool_unchanged (tool : json) :
  truthy_opt (tool_parameters tool) = false -> sanitize_tool tool = tool.
Proof.
  unfold tool_parameters, sanitize_tool.
  destruct (js_opt_prop "function" (Some tool)) as [fn|]; [|reflexivity].
  destruct (js_opt_prop "parameters" (Some fn)) as [p|]; [|reflexivity].
  cbn [truthy_opt]. now intros ->.
Qed.

Lemma sanitize_tool_frame (tool : json) :
  tool_parameters (sanitize_tool tool)
  = option_map sanitizeSchema (tool_parameters tool)
  /\ (forall k, k <> "function" ->
        js_opt_prop k (Some (sanitize_tool tool)) = js_opt_prop k (Some tool))
  /\ (forall k, k <> "parameters" ->
        js_opt_prop k (js_opt_prop "function" (Some (sanitize_tool tool)))
        = js_opt_prop k (js_opt_prop "function" (Some tool))).
Proof.
  destruct (tool_parameters tool) as [parameters|] eqn:Ep.
  - destruct (truthy parameters) eqn:Et.
    + destruct (sanitize_tool_parameters tool parameters Ep Et)
        as (o & fo & -> & Hf & Hp & ->).
      unfold tool_parameters. cbn [js_opt_prop js_prop option_map].
      rewrite assoc_get_set_same. cbn [js_opt_prop js_prop].
      rewrite assoc_get_set_same. split; [reflexivity|]. split.
      * intros k Hk. apply assoc_get_set_other. now apply String.eqb_neq.
      * intros k Hk. rewrite Hf. cbn [js_opt_prop js_prop].
        apply assoc_get_set_other. now apply String.eqb_neq.
    + rewrite sanitize_tool_unchanged by (rewrite Ep; exact Et).
      rewrite Ep. cbn [option_map]. rewrite sanitizeSchema_falsy by assumption.
      repeat split; reflexivity.
  - rewrite sanitize_tool_unchanged by now rewrite Ep.
    rewrite Ep. repeat split; reflexivity.
Qed.

(** X26.  [sanitizeTools] returns as many tools as it gets, in the same
    order; in each of them [function.parameters] is the sanitized schema of
    the parameters it had, and every other field of the tool and of its
    [function] (the type, the name, the description) is as it was. *)
Theorem tools_parameters_sanitized (tools : list json) :
  exists tools',
    sanitizeTools (JArr tools) = JArr tools'
    /\ List.length tools' = List.length tools
    /\ forall i tool, nth_error tools i = Some tool ->
         exists tool',
           nth_error tools' i = Some tool'
           /\ tool_parameters tool'
              = option_map sanitizeSchema (tool_parameters tool)
           /\ (forall k, k <> "function" ->
                 js_opt_prop k (Some tool') = js_opt_prop k (Some tool))
           /\ (forall k, k <> "parameters" ->
                 js_opt_prop k (js_opt_prop "function" (Some tool'))
                 = js_opt_prop k (js_opt_prop "function" (Some tool))).
Proof.
  exists (map sanitize_tool tools). split; [reflexivity|].
  split; [apply length_map|].
  intros i tool Hi. exists (sanitize_tool tool).
  split; [now apply map_nth_error|apply sanitize_tool_frame].
Qed.

Lemma assoc_set_twice {V : Type} (k : string) (v v' : V) (m : list (string * V)) :
  assoc_set k v (assoc_set k v' m) = assoc_set k v m.
Proof.
  induction m as [|[k0 v0] m IH]; cbn [assoc_set].
  - now rewrite String.eqb_refl.
  - destruct (String.eqb k0 k) eqn:E; cbn [assoc_set]; rewrite E;
      [reflexivity|now rewrite IH].
Qed.

Lemma sanitize_tool_settled (tool : json) :
  flat_types tool = true -> sanitize_tool (sanitize_tool tool) = sanitize_tool tool.
Proof.
  intros Hflat.
  destruct (tool_parameters tool) as [parameters|] eqn:Ep.
  - destruct (truthy parameters) eqn:Et.
    + destruct (sanitize_tool_parameters tool parameters Ep Et)
        as (o & fo & -> & Hf & Hp & E).
      rewrite E.
      assert (Hflat_p : flat_types parameters = true).
      { apply assoc_get_in in Hf, Hp.
        apply (flat_types_in_obj fo "parameters"); [|assumption].
        now apply (flat_types_in_obj o "function"). }
      assert (Hs : sanitizeSchema (sanitizeSchema parameters)
                   = sanitizeSchema parameters)
        by now apply (sanitize_settled_depth (json_depth parameters)).
      unfold sanitize_tool. cbn [js_opt_prop js_prop].
      rewrite assoc_get_set_same. cbn [js_opt_prop js_prop].
      rewrite assoc_get_set_same, sanitizeSchema_truthy, Et.
      cbn [spread]. now rewrite Hs, !assoc_set_twice.
    + rewrite !(sanitize_tool_unchanged tool) by (rewrite Ep; exact Et).
      reflexivity.
  - rewrite !(sanitize_tool_unchanged tool) by now rewrite Ep.
    reflexivity.
Qed.

(** X27.  [sanitizeTools] is idempotent on tools that hold no [type] array
    whose first entry other than ["null"] is an array: sanitizing the tools
    of a request a second time changes nothing. *)
Theorem sanitizeTools_idempotent (tools : json) :
  flat_types tools = true ->
  sanitizeTools (sanitizeTools tools) = sanitizeTools tools.
Proof.
  intros Hflat. destruct tools as [| | | |l|]; try reflexivity.
  cbn [sanitizeTools]. apply (f_equal JArr). rewrite map_map.
  apply map_ext_in. intros tool Hin. apply sanitize_tool_settled.
  now apply (flat_types_in_arr l).
Qed.

Lemma sanitizeTools_idempotent_witness :
  sanitizeTools (sanitizeTools (JArr [sample_tool; JNull]))
  = sanitizeTools (JArr [sample_tool; JNull]).
Proof.
  apply (sanitizeTools_idempotent (JArr [sample_tool; JNull])). reflexivity.
Defined.

(* ================================================================== *)
(** * The request on its way upstream *)
(* ================================================================== *)

Lemma map_indexed_inv {A B : Type} (f : nat -> A -> completion B)
    (l : list A) (idx : nat) (l' : list B) :
  map_indexed f idx l = Normal l' ->
  List.length l' = List.length l
  /\ forall j x, nth_error l j = Some x ->
       exists y, f (idx + j) x = Normal y /\ nth_error l' j = Some y.
Proof.
  revert idx l'. induction l as [|x l IH]; intros idx l' H.
  - injection H as <-. split; [reflexivity|]. intros [|j] x0; discriminate.
  - cbn [map_indexed] in H. unfold bind in H.
    destruct (f idx x) as [y|w] eqn:Ey; [|discriminate].
    destruct (map_indexed f (S idx) l) as [ys|w] eqn:Eys; [|discriminate].
    injection H as <-.
    destruct (IH (S idx) ys Eys) as [Hlen Hnth].
    split; [cbn; now rewrite Hlen|].
    intros [|j] x0 Hx0.
    + injection Hx0 as <-. exists y. rewrite Nat.add_0_r. now split.
    + cbn [nth_error] in Hx0 |- *.
      replace (idx + S j) with (S idx + j) by lia. now apply Hnth.
Qed.

Lemma inject_message_other (signaturesMap : signatures_map) (idx : nat)
    (msg y : json) :
  carries_tool_calls msg = false ->
  inject_message signaturesMap idx msg = Normal y -> y = msg.
Proof.
  unfold carries_tool_calls, inject_message. intros Hc.
  destruct msg; try discriminate;
    (replace (negb (is_assistant _) || negb (truthy_opt _)) with true
       by (symmetry; rewrite <- negb_andb; now apply negb_true_iff));
    now intros [= <-].
Qed.

(** What a successful injection returns. *)
Lemma injection_result (store : conversations) (requestData : json)
    (conversationId : string) (r : json) :
  injectThoughtSignatures store requestData conversationId = Normal r ->
  (truthy_opt (js_opt_prop "messages" (Some requestData)) = false
   /\ r = requestData)
  \/ exists o msgs messages,
       requestData = JObj o
       /\ obj_get "messages" o = Some (JArr msgs)
       /\ map_indexed (inject_message (conversation_map store conversationId)) 0
            msgs = Normal messages
       /\ r = JObj (obj_set "messages" (JArr messages) o).
Proof.
  unfold injectThoughtSignatures.
  destruct (truthy_opt (js_opt_prop "messages" (Some requestData))) eqn:Et;
    cbn [negb].
  - intros H. right.
    destruct requestData as [| | | | |o]; try discriminate Et.
    cbn [js_opt_prop js_prop] in *.
    destruct (obj_get "messages" o) as [[| | | |msgs|]|] eqn:Em; try discriminate.
    fold (conversation_map store conversationId) in H. unfold bind in H.
    destruct (map_indexed _ 0 msgs) as [messages|w] eqn:Emap; [|discriminate].
    injection H as <-. now exists o, msgs, messages.
  - intros [= <-]. now left.
Qed.

(** X28.  In the messages of a request, the injection rewrites only the
    assistant messages that carry tool-calls: every other message is
    forwarded as it came, at its place, and so is every field of the
    request other than [messages]. *)
Theorem other_messages_untouched (store : conversations) (requestData : json)
    (conversationId : string) (msgs : list json) (r : json) :
  js_prop "messages" requestData = Some (JArr msgs) ->
  injectThoughtSignatures store requestData conversationId = Normal r ->
  exists messages,
    js_prop "messages" r = Some (JArr messages)
    /\ List.length messages = List.length msgs
    /\ (forall i msg, nth_error msgs i = Some msg ->
          carries_tool_calls msg = false -> nth_error messages i = Some msg)
    /\ (forall k, k <> "messages" -> js_prop k r = js_prop k requestData).
Proof.
  intros Hm Hr.
  destruct (injection_result store requestData conversationId r Hr)
    as [[Ht _]|(o & msgs' & messages & -> & Hm' & Hmap & ->)].
  - destruct requestData; try discriminate Hm.
    cbn [js_opt_prop js_prop] in *. now rewrite Hm in Ht.
  - cbn [js_prop] in Hm. rewrite Hm in Hm'. injection Hm' as <-.
    exists messages. cbn [js_prop]. rewrite assoc_get_set_same.
    destruct (map_indexed_inv _ _ _ _ Hmap) as [Hlen Hnth].
    repeat split; try assumption.
    + intros i msg Hi Hc. destruct (Hnth i msg Hi) as (y & Hy & Hyi).
      apply inject_message_other in Hy; [|assumption]. now subst y.
    + intros k Hk. apply assoc_get_set_other.
      rewrite String.eqb_sym. now apply String.eqb_neq.
Qed.

Lemma other_messages_untouched_witness :
  exists messages,
    js_prop "messages" conversation_request_injected = Some (JArr messages)
    /\ List.length messages = List.length [user_message; assistant_message]
    /\ (forall i msg,
          nth_error [user_message; assistant_message] i = Some msg ->
          carries_tool_calls msg = false -> nth_error messages i = Some msg)
    /\ (forall k, k <> "messages" ->
          js_prop k conversation_request_injected
          = js_prop k conversation_request).
Proof.
  apply (other_messages_untouched store_with_A conversation_request "conv"
           [user_message; assistant_message] conversation_request_injected);
    reflexivity.
Defined.

Lemma sanitize_request_tools_frame (o : object) :
  exists o1,
    sanitize_request_tools (JObj o) = JObj o1
    /\ keys o1 = keys o
    /\ obj_get "tools" o1 = option_map sanitizeTools (obj_get "tools" o)
    /\ forall k, k <> "tools" -> obj_get k o1 = obj_get k o.
Proof.
  unfold sanitize_request_tools.
  destruct (obj_get "tools" o) as [tools|] eqn:Et.
  - destruct tools as [| | | |l|];
      try (exists o; rewrite Et; repeat split; reflexivity).
    eexists. split; [reflexivity|]. split; [now apply (keys_assoc_set _ _ _ (JArr l))|].
    split; [apply assoc_get_set_same|].
    intros k Hk. apply assoc_get_set_other.
    rewrite String.eqb_sym. now apply String.eqb_neq.
  - exists o. rewrite Et. repeat split; reflexivity.
Qed.

Lemma rewrite_request_frame (store : conversations) (conversationId : string)
    (o : object) (r : json) :
  rewrite_request store conversationId (JObj o) = Normal r ->
  exists o',
    r = JObj o'
    /\ keys o' = keys o
    /\ obj_get "tools" o' = option_map sanitizeTools (obj_get "tools" o)
    /\ forall k, k <> "tools" -> k <> "messages" -> obj_get k o' = obj_get k o.
Proof.
  unfold rewrite_request.
  destruct (sanitize_request_tools_frame o) as (o1 & -> & Hkeys & Htools & Hother).
  intros Hr.
  destruct (injection_result store (JObj o1) conversationId r Hr)
    as [[_ ->]|(o2 & msgs & messages & [= <-] & Hm & _ & ->)].
  - exists o1. repeat split; try assumption. intros k Hk _. now apply Hother.
  - eexists. split; [reflexivity|].
    split; [now rewrite (keys_assoc_set _ _ _ (JArr msgs))|].
    split.
    + now rewrite assoc_get_set_other.
    + intros k Hk Hk'. rewrite assoc_get_set_other; [now apply Hother|].
      rewrite String.eqb_sym. now apply String.eqb_neq.
Qed.

Lemma inject_message_normal (signaturesMap : signatures_map) (idx : nat)
    (msg : json) :
  injectable [msg] = true ->
  exists y, inject_message signaturesMap idx msg = Normal y.
Proof.
  unfold injectable. cbn [forallb]. rewrite andb_true_r. intros H.
  apply andb_true_iff in H. destruct H as [Hnull Hcalls].
  unfold carries_tool_calls in Hcalls.
  assert (Em : inject_message signaturesMap idx msg
               = if negb (is_assistant msg)
                    || negb (truthy_opt (js_prop "tool_calls" msg))
                 then Normal msg
                 else match js_prop "tool_calls" msg with
                      | Some (JArr tool_calls) =>
                          toolCalls <- map_indexed
                            (inject_tool_call signaturesMap) 0 tool_calls ;;
                          Normal (JObj (obj_set "tool_calls" (JArr toolCalls)
                                          (spread msg)))
                      | _ => TypeError "msg.tool_calls.map is not a function"
                      end).
  { unfold inject_message. destruct msg; try discriminate Hnull; reflexivity. }
  rewrite Em. clear Em.
  destruct (is_assistant msg); cbn [negb orb andb] in *; [|now eexists].
  destruct (truthy_opt (js_prop "tool_calls" msg)); cbn [negb];
    [|now eexists].
  destruct (js_prop "tool_calls" msg) as [[| | | |tool_calls|]|];
    try discriminate Hcalls.
  destruct (map_indexed_normal (inject_tool_call signaturesMap) tool_calls 0)
    as (toolCalls & E & _).
  { intros j x Hj. eexists. apply inject_tool_call_normal.
    rewrite forallb_forall in Hcalls.
    apply nth_error_In in Hj. apply Hcalls in Hj.
    now apply negb_true_iff in Hj. }
  rewrite E. cbn [bind]. now eexists.
Qed.

(** The injection returns on an object exactly when [injection_fails]
    says so. *)
Lemma injection_settles (store : conversations) (conversationId : string)
    (o : object) :
  if injection_fails o
  then exists w, injectThoughtSignatures store (JObj o) conversationId
                 = TypeError w
  else exists r, injectThoughtSignatures store (JObj o) conversationId
                 = Normal r.
Proof.
  unfold injection_fails.
  destruct (obj_get "messages" o) as [v|] eqn:Em.
  - destruct v as [|b|n|s|msgs|ms];
      try (unfold injectThoughtSignatures; cbn [js_opt_prop js_prop];
           rewrite Em; cbn [truthy_opt truthy];
           match goal with
           | |- context [negb ?c] => destruct c; cbn [negb]; now eexists
           | |- _ => now eexists
           end).
    destruct (injectable msgs) eqn:Hinj; cbn [negb].
    + unfold injectThoughtSignatures. cbn [js_opt_prop js_prop].
      rewrite Em. cbn [truthy_opt truthy negb].
      destruct (map_indexed_normal
                  (inject_message
                     match assoc_get conversationId store with
                     | Some m => m
                     | None => []
                     end) msgs 0) as (messages & E & _).
      { intros j x Hj. apply inject_message_normal.
        unfold injectable in *. cbn [forallb]. rewrite andb_true_r.
        rewrite forallb_forall in Hinj. apply Hinj.
        now apply nth_error_In in Hj. }
      rewrite E. cbn [bind]. now eexists.
    + now apply (injection_throws store (JObj o) conversationId msgs).
  - unfold injectThoughtSignatures. cbn [js_opt_prop js_prop].
    rewrite Em. cbn [truthy_opt negb]. now eexists.
Qed.

Lemma sanitize_request_tools_fails (o o1 : object) :
  sanitize_request_tools (JObj o) = JObj o1 ->
  injection_fails o1 = injection_fails o.
Proof.
  intros H.
  destruct (sanitize_request_tools_frame o) as (o2 & E & _ & _ & Hother).
  rewrite H in E. injection E as <-.
  unfold injection_fails. now rewrite Hother by discriminate.
Qed.

(** X29.  Of a request body that is a JSON object the handler forwards
    upstream the body as the client sent it when the injection throws,
    that is when [messages] is truthy and is not an array of messages the
    injection can process; on every other object it forwards an object
    with the same fields in the same order, in which [tools] is the
    sanitized [tools] and every field other than [tools] and [messages]
    has the value it had.  Whether the request is streamed is read from
    the client's [stream] field in both cases. *)
Theorem request_fields_kept (JSON_parse : string -> option json)
    (JSON_stringify : json -> string) (store : conversations)
    (conversationId body : string) (o : object) :
  JSON_parse body = Some (JObj o) ->
  isStreaming (handler_request_data JSON_parse store conversationId body)
  = isStreaming (Some (JObj o))
  /\ (injection_fails o = true ->
      rewrite_body JSON_parse JSON_stringify store conversationId body = body)
  /\ (injection_fails o = false ->
      exists o',
        rewrite_body JSON_parse JSON_stringify store conversationId body
        = JSON_stringify (JObj o')
        /\ keys o' = keys o
        /\ obj_get "tools" o' = option_map sanitizeTools (obj_get "tools" o)
        /\ forall k, k <> "tools" -> k <> "messages" ->
             obj_get k o' = obj_get k o).
Proof.
  intros Hb. unfold handler_request_data, rewrite_body. rewrite Hb.
  assert (Hset : if injection_fails o
                 then exists w, rewrite_request store conversationId (JObj o)
                                = TypeError w
                 else exists r, rewrite_request store conversationId (JObj o)
                                = Normal r).
  { unfold rewrite_request.
    destruct (sanitize_request_tools_frame o) as (o1 & E1 & _).
    rewrite <- (sanitize_request_tools_fails o o1 E1). rewrite E1.
    apply injection_settles. }
  destruct (rewrite_request store conversationId (JObj o)) as [r|w] eqn:Er.
  - destruct (rewrite_request_frame store conversationId o r Er)
      as (o' & -> & Hkeys & Htools & Hother).
    split; [|split].
    + unfold isStreaming. cbn [js_opt_prop js_prop].
      now rewrite Hother by discriminate.
    + intros Hf. rewrite Hf in Hset. destruct Hset as [w Hw]. discriminate.
    + intros _. now exists o'.
  - split; [|split].
    + destruct (sanitize_request_tools_frame o) as (o1 & -> & _ & _ & Hother).
      unfold isStreaming. cbn [js_opt_prop js_prop].
      now rewrite Hother by discriminate.
    + reflexivity.
    + intros Hf. rewrite Hf in Hset. destruct Hset as [r Hr]. discriminate.
Qed.

Lemma request_fields_kept_witness :
  isStreaming
    (handler_request_data (parse_known [sample_request]) store_with_A "conv"
       (render sample_request))
  = isStreaming (Some sample_request)
  /\ exists o',
       rewrite_body (parse_known [sample_request]) render store_with_A "conv"
         (render sample_request)
       = render (JObj o')
       /\ keys o' = ["model"; "stream"; "tools"; "messages"; "temperature"]
       /\ obj_get "tools" o'
          = option_map sanitizeTools (Some (JArr [sample_tool]))
       /\ forall k, k <> "tools" -> k <> "messages" ->
            obj_get k o'
            = obj_get k
                [("model", JStr "gemini"); ("stream", JBool true);
                 ("tools", JArr [sample_tool]);
                 ("messages", JArr [user_message; assistant_message]);
                 ("temperature", JNum 0)].
Proof.
  destruct (request_fields_kept (parse_known [sample_request]) render
              store_with_A "conv" (render sample_request)
              [("model", JStr "gemini"); ("stream", JBool true);
               ("tools", JArr [sample_tool]);
               ("messages", JArr [user_message; assistant_message]);
               ("temperature", JNum 0)] eq_refl)
    as (Hstream & _ & Hkept).
  split; [exact Hstream|exact (Hkept eq_refl)].
Defined.

(** A body whose messages hold [null] is forwarded as it came. *)
Example rewrite_null_message :
  injection_fails [("model", JStr "gemini");
                   ("messages", JArr [assistant_message; JNull])] = true
  /\ rewrite_body (parse_known [null_message_request]) render store_with_A
       "conv" (render null_message_request)
     = render null_message_request.
Proof. split; reflexivity. Qed.

Example rewrite_sample_request :
  rewrite_request store_with_A "conv" sample_request
  = Normal
      (JObj [("model", JStr "gemini"); ("stream", JBool true);
             ("tools", JArr [sanitize_tool sample_tool]);
             ("messages",
              JArr [user_message;
                    JObj [("role", JStr "assistant");
                          ("tool_calls",
                           JArr [with_token (JStr "sigA") call_A; call_B])]]);
             ("temperature", JNum 0)]).
Proof. reflexivity. Qed.

(* ================================================================== *)
(** * The error translator, applied to its own output *)
(* ================================================================== *)

Lemma or_default_settled (a : option json) (d : json) :
  or_default (Some (or_default a d)) d = or_default a d.
Proof.
  unfold or_default. destruct a as [x|].
  - destruct (truthy x) eqn:E; [now rewrite E|]. now destruct (truthy d).
  - now destruct (truthy d).
Qed.

Lemma convert_error_object (JSON_parse : string -> option json)
    (JSON_stringify : json -> string) (body : string) (data e : json) :
  JSON_parse body = Some data -> error_of data = Some e ->
  is_error_object (Some e) = true ->
  convertGeminiErrorToOpenAI JSON_parse JSON_stringify body
  = JSON_stringify (openai_error e).
Proof.
  intros Hb He Ht. unfold convertGeminiErrorToOpenAI. rewrite Hb.
  unfold error_of in He. cbn [is_error_object] in Ht.
  destruct data; try discriminate He; cbn [js_opt_prop] in He; rewrite He;
    now rewrite Ht.
Qed.

Lemma convert_error_twice (JSON_parse : string -> option json)
    (JSON_stringify : json -> string) (body : string) (data e : json) :
  JSON_parse body = Some data -> error_of data = Some e ->
  is_error_object (Some e) = true ->
  JSON_parse (JSON_stringify (openai_error e)) = Some (openai_error e) ->
  convertGeminiErrorToOpenAI JSON_parse JSON_stringify
    (convertGeminiErrorToOpenAI JSON_parse JSON_stringify body)
  = JSON_stringify (retranslated_error e).
Proof.
  intros Hb He Ht Hround.
  rewrite (convert_error_object _ _ body data e Hb He Ht).
  rewrite (convert_error_object _ _ _ (openai_error e)
             (JObj [("message",
                     or_default (js_prop "message" e) (JStr "Unknown error"));
                    ("type",
                     or_default (js_prop "status" e) (JStr "api_error"));
                    ("code", or_default (js_prop "code" e) JNull)]) Hround);
    [|reflexivity|reflexivity].
  unfold openai_error at 1, retranslated_error.
  cbn [js_prop assoc_get String.eqb Ascii.eqb Bool.eqb].
  now rewrite !or_default_settled.
Qed.

(** X30.  The translator takes its own output, a body in the OpenAI
    format, for an error of the Gemini API again: the second translation
    keeps the message and the code and sets the type to ["api_error"],
    since its input has no [status].  So translating twice gives what
    translating once gives when the type of the first translation is
    ["api_error"] already (the upstream status is absent, falsy or
    ["api_error"] itself), and a different body in every other case. *)
Theorem error_translated_twice (JSON_parse : string -> option json)
    (JSON_stringify : json -> string) (body : string) (data e : json) :
  JSON_parse body = Some data -> error_of data = Some e ->
  is_error_object (Some e) = true ->
  JSON_parse (JSON_stringify (openai_error e)) = Some (openai_error e) ->
  JSON_parse (JSON_stringify (retranslated_error e))
  = Some (retranslated_error e) ->
  convertGeminiErrorToOpenAI JSON_parse JSON_stringify
    (convertGeminiErrorToOpenAI JSON_parse JSON_stringify body)
  = JSON_stringify (retranslated_error e)
  /\ (or_default (js_prop "status" e) (JStr "api_error") = JStr "api_error" ->
      convertGeminiErrorToOpenAI JSON_parse JSON_stringify
        (convertGeminiErrorToOpenAI JSON_parse JSON_stringify body)
      = convertGeminiErrorToOpenAI JSON_parse JSON_stringify body)
  /\ (or_default (js_prop "status" e) (JStr "api_error") <> JStr "api_error" ->
      convertGeminiErrorToOpenAI JSON_parse JSON_stringify
        (convertGeminiErrorToOpenAI JSON_parse JSON_stringify body)
      <> convertGeminiErrorToOpenAI JSON_parse JSON_stringify body).
Proof.
  intros Hb He Ht Hround Hround2.
  rewrite (convert_error_twice _ _ body data e Hb He Ht Hround).
  rewrite (convert_error_object _ _ body data e Hb He Ht).
  split; [reflexivity|]. split.
  - intros Hs. unfold retranslated_error, openai_error. now rewrite Hs.
  - intros Hs E. apply Hs.
    rewrite E in Hround2. rewrite Hround in Hround2.
    unfold retranslated_error, openai_error in Hround2.
    now injection Hround2.
Qed.

Lemma error_translated_twice_witness :
  convertGeminiErrorToOpenAI (parse_known error_bodies) render
    (convertGeminiErrorToOpenAI (parse_known error_bodies) render
       (render (gemini_error 400)))
  = render
      (JObj [("error",
              JObj [("message", JStr "bad"); ("type", JStr "api_error");
                    ("code", JNum 400)])])
  /\ convertGeminiErrorToOpenAI (parse_known error_bodies) render
       (convertGeminiErrorToOpenAI (parse_known error_bodies) render
          (render (gemini_error 400)))
     <> convertGeminiErrorToOpenAI (parse_known error_bodies) render
          (render (gemini_error 400)).
Proof.
  destruct (error_translated_twice (parse_known error_bodies) render
              (render (gemini_error 400)) (gemini_error 400)
              (JObj [("code", JNum 400); ("message", JStr "bad");
                     ("status", JStr "INVALID_ARGUMENT")])
              eq_refl eq_refl eq_refl eq_refl eq_refl)
    as (Hshape & _ & Hdiffers).
  split; [exact Hshape|]. apply Hdiffers. discriminate.
Defined.
